(** * Clickability checker: a shallow embedding and its properties

    The development follows the two source files of the repository:

    - [selenium_clickable_tester.py]            (module [Tester]),
    - [selenium_clickable_tester_optimized.py]  (module [Optimized]),

    both of which define one class [ClickableElementTester].  Code that the
    two files share verbatim (string handling, the dead-href test, the
    classification of an observed click, the locator) is embedded once, ahead
    of the two modules.

    The browser is an external collaborator.  Every call into it is modelled
    by its outcome: a value, or a raised exception ([Res]).  A test run is
    therefore a function of the descriptor(s) and of the outcomes the driver
    delivers, and it can be evaluated on concrete outcomes. *)

From Stdlib Require Import String Ascii List ZArith Lia Bool Arith Sorted.
From stdpp Require Import base decidable option list gmap sets strings.
Import ListNotations.

Local Open Scope string_scope.
Local Open Scope list_scope.

(* ===================================================================== *)
(** ** Python strings

    A [str] is modelled as a Rocq [string]; each [ascii] stands for one code
    point below 256. *)
(* ===================================================================== *)

Module PyStr.

(** [str.replace(old, new)] for a one-character [old]. *)
Fixpoint replace (old : ascii) (new : string) (s : string) : string :=
  match s with
  | EmptyString => EmptyString
  | String c s' =>
      if Ascii.eqb c old then new +:+ replace old new s'
      else String c (replace old new s')
  end.

(** Upper-case code points below 256: A-Z, and U+00C0..U+00DE but U+00D7. *)
Definition is_upper (c : ascii) : bool :=
  let n := nat_of_ascii c in
  (((65 <=? n) && (n <=? 90))
   || ((192 <=? n) && (n <=? 222) && negb (n =? 215)))%nat.

Definition lower_char (c : ascii) : ascii :=
  if is_upper c then ascii_of_nat (nat_of_ascii c + 32) else c.

(** [str.lower()]. *)
Fixpoint lower (s : string) : string :=
  match s with
  | EmptyString => EmptyString
  | String c s' => String (lower_char c) (lower s')
  end.

(** The code points below 256 for which [str.isspace()] holds. *)
Definition is_space (c : ascii) : bool :=
  let n := nat_of_ascii c in
  (((9 <=? n) && (n <=? 13)) || ((28 <=? n) && (n <=? 32))
   || (n =? 133) || (n =? 160))%nat.

Fixpoint lstrip (s : string) : string :=
  match s with
  | EmptyString => EmptyString
  | String c s' => if is_space c then lstrip s' else s
  end.

Definition reverse (s : string) : string :=
  string_of_list_ascii (List.rev (list_ascii_of_string s)).

Definition rstrip (s : string) : string := reverse (lstrip (reverse s)).

(** [str.strip()]. *)
Definition strip (s : string) : string := rstrip (lstrip s).

(** [s[:n]]. *)
Definition take (n : nat) (s : string) : string := String.substring 0 n s.

(** [s.startswith(p)]. *)
Definition startswith (p s : string) : bool := String.prefix p s.

(** [x in [..]] on a list of strings. *)
Definition in_list (x : string) (l : list string) : bool :=
  existsb (String.eqb x) l.

(** [sep.join(parts)]. *)
Fixpoint join (sep : string) (parts : list string) : string :=
  match parts with
  | [] => EmptyString
  | [p] => p
  | p :: ps => p +:+ sep +:+ join sep ps
  end.

(** [o or ''] for a value that is a [str] or [None]. *)
Definition or_empty (o : option string) : string :=
  match o with
  | Some s => s
  | None => EmptyString
  end.

(** Truthiness of a [str]. *)
Definition truthy (s : string) : bool :=
  match s with
  | EmptyString => false
  | String _ _ => true
  end.

End PyStr.

(* ===================================================================== *)
(** ** Exceptions and fallible driver calls *)
(* ===================================================================== *)

(** The exception classes the code distinguishes; everything else that
    derives from [Exception] is [OtherException]. *)
Inductive exn_class : Type :=
| TimeoutException
| StaleElementReferenceException
| ElementClickInterceptedException
| NameError
| ZeroDivisionError
| OtherException.

(** An exception: its class and [str(e)]. *)
Record exn : Type := Exn { exn_cls : exn_class; exn_str : string }.

(** Outcome of one fallible call. *)
Inductive Res (A : Type) : Type :=
| Ok (a : A)
| Raise (e : exn).
Arguments Ok {A} a.
Arguments Raise {A} e.

#[global] Instance exn_class_eq_dec : EqDecision exn_class.
Proof. solve_decision. Defined.

(* ===================================================================== *)
(** ** Element descriptors ([element_info] dictionaries)

    The keys the algorithms read.  [href], [is_carousel_element] and
    [detection_method] are read with [dict.get] or written only on some
    paths, so they are optional; descriptors of the regular sweeps carry no
    [is_carousel_element] key.  [unique_id] is an MD5 hex digest for regular
    descriptors and a Python [hash] value for carousel descriptors. *)
(* ===================================================================== *)

Inductive unique_id_t : Type :=
| Md5Hex (digest : string)
| PyHash (h : Z).

Record ElementInfo : Type := {
  info_tag_name : string;
  info_text : string;
  info_class_names : string;
  info_id : string;
  info_href : option string;
  info_onclick : string;
  info_xpath : string;
  info_location : Z * Z;
  info_is_displayed : bool;
  info_is_enabled : bool;
  info_unique_id : unique_id_t;
  info_is_carousel_element : option bool;
  info_detection_method : option string
}.

(** [is_dead_click_by_href], identical in both files:
<<
    href = (element_info.get('href') or '').replace(' ', '').lower()
    return href in ['javascript:void(0)', 'javascript::void(0)', '#', ' ']
>> *)
Definition normalized_href (element_info : ElementInfo) : string :=
  PyStr.lower (PyStr.replace " "%char "" (PyStr.or_empty (info_href element_info))).

Definition dead_href_markers : list string :=
  ["javascript:void(0)"; "javascript::void(0)"; "#"; " "].

Definition is_dead_click_by_href (element_info : ElementInfo) : bool :=
  PyStr.in_list (normalized_href element_info) dead_href_markers.

(* ===================================================================== *)
(** ** Live element handles

    What Selenium reports for one DOM node.  A stale handle raises
    [StaleElementReferenceException] on every command.  The two ancestor
    walks inspect the DOM only; their outcome on the node is recorded with
    the node: [el_in_header_or_footer] for [_is_in_header_or_footer], and
    [el_has_carousel_ancestor] for the script of [_is_carousel_element],
    which asks whether the class name of the node or of one of its ancestors
    contains one of nine carousel keywords.

    A handle can also fail in the middle of an extraction.
    [el_late_reads] is the outcome of the reads that [_extract_element_info]
    performs after it has recorded the fingerprint (the attributes [role] to
    [alt], [location], [size], [is_displayed()], [is_enabled()]): [Ok] when
    all of them answer, the exception of the first that raises otherwise. *)
(* ===================================================================== *)

Record WebElement : Type := {
  el_stale : bool;
  el_tag_name : string;
  el_text : string;
  el_class : option string;
  el_href : option string;
  el_id : option string;
  el_onclick : option string;
  el_xpath_script : Res string;
  el_location : Z * Z;
  el_is_displayed : bool;
  el_is_enabled : bool;
  el_in_header_or_footer : bool;
  el_has_carousel_ancestor : bool;
  el_late_reads : Res unit
}.

Definition stale_exn : exn :=
  Exn StaleElementReferenceException "stale element reference".

(** One command on a handle. *)
Definition command {A : Type} (element : WebElement) (value : A) : Res A :=
  if el_stale element then Raise stale_exn else Ok value.

#[global] Instance res_ret : MRet Res := fun A a => Ok a.

#[global] Instance res_bind : MBind Res := fun A B k r =>
  match r with
  | Ok a => k a
  | Raise e => Raise e
  end.

(** [element.text.strip()[:100]] as the locator computes it. *)
Definition displayed_text (element : WebElement) : string :=
  PyStr.take 100 (PyStr.strip (el_text element)).

(** [element.text.strip()[:100] if element.text else ''] as the extractors
    compute it. *)
Definition extracted_text (element : WebElement) : string :=
  if PyStr.truthy (el_text element) then displayed_text element else "".

(* ===================================================================== *)
(** ** Locator: [_find_element_by_info] and its copies *)
(* ===================================================================== *)

Inductive By : Type := By_ID | By_XPATH | By_CSS_SELECTOR.

(** The [strategies] list; [None] entries are skipped by the loop. *)
Definition strategies (element_info : ElementInfo) : list (option (By * string)) :=
  [ if PyStr.truthy (info_id element_info)
    then Some (By_ID, info_id element_info) else None;
    if negb (String.eqb (info_xpath element_info) "xpath_unavailable")
    then Some (By_XPATH, info_xpath element_info) else None;
    if PyStr.truthy (info_class_names element_info)
    then Some (By_CSS_SELECTOR,
               "." +:+ PyStr.replace " "%char "." (info_class_names element_info))
    else None ].

(** The test applied to one candidate.  [check_displayed] is [true] for the
    document-wide locators and [false] for the in-container one, which has
    no [is_displayed()] conjunct.  [and] short-circuits, but every conjunct
    raises alike on a stale handle. *)
Definition candidate_matches (check_displayed : bool)
    (element_info : ElementInfo) (element : WebElement) : Res bool :=
  command element
    ((if check_displayed then el_is_displayed element else true)
     && String.eqb (el_tag_name element) (info_tag_name element_info)
     && String.eqb (displayed_text element) (info_text element_info)).

(** [for element in elements: if ...: return element]. *)
Fixpoint first_matching (check_displayed : bool) (element_info : ElementInfo)
    (elements : list WebElement) : Res (option WebElement) :=
  match elements with
  | [] => Ok None
  | element :: rest =>
      candidate_matches check_displayed element_info element ≫= fun ok : bool =>
      if ok then Ok (Some element)
      else first_matching check_displayed element_info rest
  end.

(** [for strategy in strategies: if strategy: try: ... except Exception:
    continue], then [return None]. *)
Fixpoint try_strategies (check_displayed : bool)
    (find_elements : By -> string -> Res (list WebElement))
    (element_info : ElementInfo)
    (strats : list (option (By * string))) : option WebElement :=
  match strats with
  | [] => None
  | None :: rest => try_strategies check_displayed find_elements element_info rest
  | Some (by_, value) :: rest =>
      match elements ← find_elements by_ value;
            first_matching check_displayed element_info elements with
      | Ok (Some element) => Some element
      | Ok None | Raise _ =>
          try_strategies check_displayed find_elements element_info rest
      end
  end.

(** [_find_element_by_info] (both files) and
    [_find_element_by_info_with_driver]; [find_elements] is the driver's. *)
Definition _find_element_by_info
    (find_elements : By -> string -> Res (list WebElement))
    (element_info : ElementInfo) : option WebElement :=
  try_strategies true find_elements element_info (strategies element_info).

(** [_find_element_by_info_in_container]; [find_elements] is the
    container's. *)
Definition _find_element_by_info_in_container
    (element_info : ElementInfo)
    (find_elements : By -> string -> Res (list WebElement)) : option WebElement :=
  try_strategies false find_elements element_info (strategies element_info).

(** A carousel container as the classifier sees it: its scoped query.
    [_pause_carousel] swallows its own exceptions and returns nothing. *)
Record Container : Type := {
  cont_find_elements : By -> string -> Res (list WebElement)
}.

(** [for container in carousel_containers: ... if element: return element]. *)
Fixpoint first_in_containers (element_info : ElementInfo)
    (containers : list Container) : option WebElement :=
  match containers with
  | [] => None
  | container :: rest =>
      match _find_element_by_info_in_container element_info
              (cont_find_elements container) with
      | Some element => Some element
      | None => first_in_containers element_info rest
      end
  end.

(** [_find_and_prepare_carousel_element]: the container query is the only
    call that can raise; the handler returns [None]. *)
Definition _find_and_prepare_carousel_element
    (carousel_containers : Res (list Container))
    (element_info : ElementInfo) : option WebElement :=
  match carousel_containers with
  | Ok containers => first_in_containers element_info containers
  | Raise _ => None
  end.

(* ===================================================================== *)
(** ** Click results and the driver outcomes of one classification *)
(* ===================================================================== *)

(** The [result] dictionary ([timestamp], a clock reading, is left out). *)
Record ClickResult : Type := {
  res_element_info : ElementInfo;
  res_click_status : string;
  res_error_message : string;
  res_page_changed : bool;
  res_url_before : string;
  res_url_after : string;
  res_new_elements_appeared : bool
}.

Definition set_click_status (v : string) (r : ClickResult) : ClickResult :=
  {| res_element_info := res_element_info r;
     res_click_status := v;
     res_error_message := res_error_message r;
     res_page_changed := res_page_changed r;
     res_url_before := res_url_before r;
     res_url_after := res_url_after r;
     res_new_elements_appeared := res_new_elements_appeared r |}.

Definition set_error_message (v : string) (r : ClickResult) : ClickResult :=
  {| res_element_info := res_element_info r;
     res_click_status := res_click_status r;
     res_error_message := v;
     res_page_changed := res_page_changed r;
     res_url_before := res_url_before r;
     res_url_after := res_url_after r;
     res_new_elements_appeared := res_new_elements_appeared r |}.

Definition set_page_changed (v : bool) (r : ClickResult) : ClickResult :=
  {| res_element_info := res_element_info r;
     res_click_status := res_click_status r;
     res_error_message := res_error_message r;
     res_page_changed := v;
     res_url_before := res_url_before r;
     res_url_after := res_url_after r;
     res_new_elements_appeared := res_new_elements_appeared r |}.

Definition set_url_before (v : string) (r : ClickResult) : ClickResult :=
  {| res_element_info := res_element_info r;
     res_click_status := res_click_status r;
     res_error_message := res_error_message r;
     res_page_changed := res_page_changed r;
     res_url_before := v;
     res_url_after := res_url_after r;
     res_new_elements_appeared := res_new_elements_appeared r |}.

Definition set_url_after (v : string) (r : ClickResult) : ClickResult :=
  {| res_element_info := res_element_info r;
     res_click_status := res_click_status r;
     res_error_message := res_error_message r;
     res_page_changed := res_page_changed r;
     res_url_before := res_url_before r;
     res_url_after := v;
     res_new_elements_appeared := res_new_elements_appeared r |}.

Definition set_new_elements_appeared (v : bool) (r : ClickResult) : ClickResult :=
  {| res_element_info := res_element_info r;
     res_click_status := res_click_status r;
     res_error_message := res_error_message r;
     res_page_changed := res_page_changed r;
     res_url_before := res_url_before r;
     res_url_after := res_url_after r;
     res_new_elements_appeared := v |}.

(** The dictionary both classifiers start from. *)
Definition initial_result (element_info : ElementInfo) : ClickResult :=
  {| res_element_info := element_info;
     res_click_status := "unknown";
     res_error_message := "";
     res_page_changed := false;
     res_url_before := "";
     res_url_after := "";
     res_new_elements_appeared := false |}.

(** What the session answers during one classification, call by call, in
    the order the classifier issues the calls. *)
Record ClickEnv : Type := {
  env_url_before : Res string;
  env_title_before : Res string;
  env_find_elements : By -> string -> Res (list WebElement);
  env_carousel_containers : Res (list Container);
  env_scroll_into_view : WebElement -> Res unit;
  env_is_displayed : WebElement -> Res bool;
  env_is_enabled : WebElement -> Res bool;
  env_click : WebElement -> Res unit;
  env_script_click : WebElement -> Res unit;
  env_url_after : Res string;
  env_title_after : Res string;
  env_modals : Res (list WebElement);
  env_dropdowns : Res (list WebElement)
}.

(* ===================================================================== *)
(** ** The classifier

    The body of the [try] block mutates [result], may [return result]
    early and may raise; [Classify] threads the three. *)
(* ===================================================================== *)

Inductive Flow (A : Type) : Type :=
| Continue (a : A)
| ReturnResult
| Raised (e : exn).
Arguments Continue {A} a.
Arguments ReturnResult {A}.
Arguments Raised {A} e.

Definition Classify (A : Type) : Type := ClickResult -> Flow A * ClickResult.

#[global] Instance classify_ret : MRet Classify := fun A a result =>
  (Continue a, result).

#[global] Instance classify_bind : MBind Classify := fun A B k m result =>
  match m result with
  | (Continue a, result') => k a result'
  | (ReturnResult, result') => (ReturnResult, result')
  | (Raised e, result') => (Raised e, result')
  end.

(** A driver call inside the [try] block. *)
Definition call {A : Type} (r : Res A) : Classify A := fun result =>
  match r with
  | Ok a => (Continue a, result)
  | Raise e => (Raised e, result)
  end.

(** [result[...] = ...]. *)
Definition update (f : ClickResult -> ClickResult) : Classify unit :=
  fun result => (Continue tt, f result).

(** [return result]. *)
Definition return_result {A : Type} : Classify A := fun result =>
  (ReturnResult, result).

(** Truthiness of a list. *)
Definition nonempty {A : Type} (l : list A) : bool :=
  match l with
  | [] => false
  | _ :: _ => true
  end.

(** The two overlay queries followed by [modals or dropdowns]; the modal
    query runs first. *)
Definition overlay_present (env : ClickEnv) : Res bool :=
  modals ← env_modals env;
  dropdowns ← env_dropdowns env;
  Ok (nonempty modals || nonempty dropdowns).

(** The [if]/[elif] chain that ends the [try] block:
<<
    if self.is_dead_click_by_href(element_info): ... 'dead_click'
    elif current_url != initial_url:             ... 'active_navigation'
    elif current_title != initial_title:         ... 'active_title_change'
    else:
        try:    ... 'active_ui_change' if modals or dropdowns else 'dead_click'
        except Exception: 'dead_click'
>> *)
Definition determine_click_status (element_info : ElementInfo)
    (initial_url current_url initial_title current_title : string)
    (overlay : Res bool) (result : ClickResult) : ClickResult :=
  if is_dead_click_by_href element_info then
    set_error_message "Dead click: href is javascript:void(0)"
      (set_click_status "dead_click" result)
  else if negb (String.eqb current_url initial_url) then
    set_page_changed true (set_click_status "active_navigation" result)
  else if negb (String.eqb current_title initial_title) then
    set_page_changed true (set_click_status "active_title_change" result)
  else
    match overlay with
    | Ok true =>
        set_new_elements_appeared true
          (set_click_status "active_ui_change" result)
    | Ok false => set_click_status "dead_click" result
    | Raise _ => set_click_status "dead_click" result
    end.

(** [element.click()], with the script click as fallback for an intercepted
    click; any failure of the fallback returns [click_intercepted]. *)
Definition attempt_click (env : ClickEnv) (element : WebElement) : Classify unit :=
  fun result =>
    match env_click env element with
    | Ok _ => (Continue tt, result)
    | Raise e =>
        if bool_decide (exn_cls e = ElementClickInterceptedException) then
          match env_script_click env element with
          | Ok _ => (Continue tt, result)
          | Raise js_error =>
              (ReturnResult,
               set_error_message ("Click intercepted: " +:+ exn_str js_error)
                 (set_click_status "click_intercepted" result))
          end
        else (Raised e, result)
    end.

(** [element.is_displayed() and element.is_enabled()]. *)
Definition still_clickable (env : ClickEnv) (element : WebElement) : Res bool :=
  displayed ← env_is_displayed env element;
  if displayed : bool then env_is_enabled env element else Ok false.

(** The [try] block shared by [test_element_click] (both files) and
    [_test_element_click_with_driver]; [located] is what the locator of the
    respective function returns.  [_make_carousel_element_clickable] handles
    its own exceptions and leaves [result] alone. *)
Definition click_test_body (env : ClickEnv) (element_info : ElementInfo)
    (located : option WebElement) : Classify unit :=
  initial_url ← call (env_url_before env);
  initial_title ← call (env_title_before env);
  _ ← update (set_url_before initial_url);
  match located with
  | None =>
      _ ← update (fun result =>
             set_error_message "Element could not be located for clicking"
               (set_click_status "element_not_found" result));
      return_result
  | Some element =>
      _ ← call (env_scroll_into_view env element);
      clickable ← call (still_clickable env element);
      if clickable : bool then
        _ ← attempt_click env element;
        current_url ← call (env_url_after env);
        current_title ← call (env_title_after env);
        _ ← update (set_url_after current_url);
        update (determine_click_status element_info initial_url current_url
                  initial_title current_title (overlay_present env))
      else
        _ ← update (fun result =>
               set_error_message "Element is not displayed or enabled"
                 (set_click_status "not_clickable" result));
        return_result
  end.

(** The [except] clauses of [test_element_click]. *)
Definition sequential_handler (e : exn) (result : ClickResult) : ClickResult :=
  match exn_cls e with
  | TimeoutException =>
      set_error_message "Timeout waiting for element or page response"
        (set_click_status "timeout" result)
  | StaleElementReferenceException =>
      set_error_message "Element became stale during test"
        (set_click_status "stale_element" result)
  | _ => set_error_message (exn_str e) (set_click_status "error" result)
  end.

(** The single [except Exception as e] of
    [_test_element_click_with_driver]. *)
Definition with_driver_handler (e : exn) (result : ClickResult) : ClickResult :=
  set_error_message (exn_str e) (set_click_status "error" result).

(** [try: body  except ...: handler], then [return result]. *)
Definition try_except (body : Classify unit)
    (handler : exn -> ClickResult -> ClickResult)
    (result : ClickResult) : ClickResult :=
  match body result with
  | (Continue _, result') => result'
  | (ReturnResult, result') => result'
  | (Raised e, result') => handler e result'
  end.

(** [element_info.get('is_carousel_element', False)]. *)
Definition is_carousel_element (element_info : ElementInfo) : bool :=
  default false (info_is_carousel_element element_info).

(** The element lookup of [test_element_click]: carousel descriptors go
    through the carousel containers. *)
Definition locate_for_click (env : ClickEnv) (element_info : ElementInfo)
    : option WebElement :=
  if is_carousel_element element_info
  then _find_and_prepare_carousel_element (env_carousel_containers env) element_info
  else _find_element_by_info (env_find_elements env) element_info.

(** [test_element_click], the sequential classifier (the same text in both
    files). *)
Definition test_element_click (env : ClickEnv) (element_info : ElementInfo)
    : ClickResult :=
  try_except
    (click_test_body env element_info (locate_for_click env element_info))
    sequential_handler
    (initial_result element_info).

(** [_test_element_click_with_driver], the per-session classifier of the
    concurrent path. *)
Definition _test_element_click_with_driver (env : ClickEnv)
    (element_info : ElementInfo) : ClickResult :=
  try_except
    (click_test_body env element_info
       (_find_element_by_info (env_find_elements env) element_info))
    with_driver_handler
    (initial_result element_info).

(* ===================================================================== *)
(** ** Discovery: extraction and fingerprints *)
(* ===================================================================== *)

#[global] Instance unique_id_eq_dec : EqDecision unique_id_t.
Proof. solve_decision. Defined.

#[global] Instance unique_id_countable : Countable unique_id_t :=
  inj_countable'
    (fun u => match u with Md5Hex d => inl d | PyHash h => inr h end)
    (fun s => match s with inl d => Md5Hex d | inr h => PyHash h end)
    (fun u => match u with Md5Hex _ => eq_refl | PyHash _ => eq_refl end).

(** Library functions the extractors call: [hashlib.md5(..).hexdigest()],
    the built-in [hash] on strings, and [str] of a location dictionary. *)
Class Digests : Type := {
  md5_hexdigest : string -> string;
  py_hash : string -> Z;
  str_location : Z * Z -> string
}.

(** The selector catalogues of [find_clickable_elements] and
    [_extract_clickables_from_slide].  They are literal lists in the source;
    the sweeps below work for any catalogue. *)
Record Catalogue : Type := {
  carousel_selectors : list string;
  clickable_selectors : list string;
  slide_clickable_selectors : list string;
  action_words : list string
}.

(** A slide handed out by [_get_all_carousel_slides]: the outcome of the
    script that forces it visible, and its scoped query. *)
Record Slide : Type := {
  slide_make_visible : Res unit;
  slide_find_elements : By -> string -> Res (list WebElement)
}.

(** A carousel candidate: [car_slides] is the outcome of the container
    lookup script of [_handle_carousel_banner] ([None]: no container)
    together with the slides [_get_all_carousel_slides] then returns. *)
Record Carousel : Type := {
  car_stale : bool;
  car_is_displayed : bool;
  car_in_header_or_footer : bool;
  car_slides : Res (option (list Slide))
}.

(** The page as the lead session presents it to one discovery pass.  The
    two queries are scoped to the main content area when there is one. *)
Record Page : Type := {
  page_load : Res unit;
  page_find_carousels : string -> Res (list Carousel);
  page_find_elements : string -> Res (list WebElement);
  page_pointer_elements : Res (list WebElement);
  page_listener_elements : Res (list WebElement)
}.

(** State of the loops of [find_clickable_elements]: the tester's
    [seen_elements], the local [unique_ids], and [clickable_elements]. *)
Record Sweep : Type := {
  sw_seen_elements : gset string;
  sw_unique_ids : gset unique_id_t;
  sw_clickable_elements : list ElementInfo
}.

Section Discovery.
Context `{Digests}.

(** [f"{tag_name}|{text}|{href}|{class_names}|{element_id}"]. *)
Definition dedup_key (element : WebElement) : string :=
  el_tag_name element +:+ "|" +:+ extracted_text element +:+ "|"
  +:+ PyStr.or_empty (el_href element) +:+ "|"
  +:+ PyStr.or_empty (el_class element) +:+ "|"
  +:+ PyStr.or_empty (el_id element).

(** The fingerprint: [hashlib.md5(dedup_key.encode()).hexdigest()]. *)
Definition fingerprint (element : WebElement) : string :=
  md5_hexdigest (dedup_key element).

(** [_get_element_xpath]: the script, or ['xpath_unavailable']. *)
Definition _get_element_xpath (element : WebElement) : string :=
  match el_xpath_script element with
  | Ok xpath => xpath
  | Raise _ => "xpath_unavailable"
  end.

(** The dictionary [_extract_element_info] builds for a fresh element. *)
Definition regular_info (element : WebElement) : ElementInfo :=
  {| info_tag_name := el_tag_name element;
     info_text := extracted_text element;
     info_class_names := PyStr.or_empty (el_class element);
     info_id := PyStr.or_empty (el_id element);
     info_href := Some (PyStr.or_empty (el_href element));
     info_onclick := PyStr.or_empty (el_onclick element);
     info_xpath := _get_element_xpath element;
     info_location := el_location element;
     info_is_displayed := el_is_displayed element;
     info_is_enabled := el_is_enabled element;
     info_unique_id := Md5Hex (fingerprint element);
     info_is_carousel_element := None;
     info_detection_method := None |}.

(** [_extract_element_info] against the tester's [seen_elements] (created
    empty in [__init__] in one file, on first use in the other; never
    cleared in either).  Returns the descriptor, if any, and the set.

    The five fields are read and the fingerprint is recorded before the
    dictionary is built, all inside one [try]: a read that raises before
    that leaves the set as it was; one that raises afterwards returns
    [None] as well, but the fingerprint stays in the set. *)
Definition _extract_element_info (seen_elements : gset string)
    (element : WebElement) : option ElementInfo * gset string :=
  match command element (fingerprint element) with
  | Raise _ => (None, seen_elements)
  | Ok unique_id =>
      if bool_decide (unique_id ∈ seen_elements) then (None, seen_elements)
      else
        match el_late_reads element with
        | Ok _ => (Some (regular_info element), {[unique_id]} ∪ seen_elements)
        | Raise _ => (None, {[unique_id]} ∪ seen_elements)
        end
  end.

(** [_create_unique_id]. *)
Definition _create_unique_id (element_info : ElementInfo) : Z :=
  py_hash (PyStr.join "|"
    [ info_tag_name element_info;
      info_id element_info;
      info_class_names element_info;
      PyStr.take 50 (info_text element_info);
      str_location (info_location element_info) ]).

(** The dictionary [_extract_element_info_for_hidden] builds. *)
Definition hidden_info (element : WebElement) : ElementInfo :=
  let element_info :=
    {| info_tag_name := el_tag_name element;
       info_text := extracted_text element;
       info_class_names := PyStr.or_empty (el_class element);
       info_id := PyStr.or_empty (el_id element);
       info_href := Some (PyStr.or_empty (el_href element));
       info_onclick := PyStr.or_empty (el_onclick element);
       info_xpath := _get_element_xpath element;
       info_location := el_location element;
       info_is_displayed := true;
       info_is_enabled := el_is_enabled element;
       info_unique_id := PyHash 0;
       info_is_carousel_element := Some true;
       info_detection_method := None |} in
  {| info_tag_name := info_tag_name element_info;
     info_text := info_text element_info;
     info_class_names := info_class_names element_info;
     info_id := info_id element_info;
     info_href := info_href element_info;
     info_onclick := info_onclick element_info;
     info_xpath := info_xpath element_info;
     info_location := info_location element_info;
     info_is_displayed := info_is_displayed element_info;
     info_is_enabled := info_is_enabled element_info;
     info_unique_id := PyHash (_create_unique_id element_info);
     info_is_carousel_element := info_is_carousel_element element_info;
     info_detection_method := info_detection_method element_info |}.

(** [element_info['detection_method'] = ...]. *)
Definition set_detection_method (method : option string)
    (element_info : ElementInfo) : ElementInfo :=
  match method with
  | None => element_info
  | Some _ =>
      {| info_tag_name := info_tag_name element_info;
         info_text := info_text element_info;
         info_class_names := info_class_names element_info;
         info_id := info_id element_info;
         info_href := info_href element_info;
         info_onclick := info_onclick element_info;
         info_xpath := info_xpath element_info;
         info_location := info_location element_info;
         info_is_displayed := info_is_displayed element_info;
         info_is_enabled := info_is_enabled element_info;
         info_unique_id := info_unique_id element_info;
         info_is_carousel_element := info_is_carousel_element element_info;
         info_detection_method := method |}
  end.

(** The guard of the three regular sweeps: displayed, enabled, outside
    header and footer, not a carousel element.  A stale handle raises at the
    first conjunct. *)
Definition passes_filters (_is_carousel_element : WebElement -> bool)
    (element : WebElement) : Res bool :=
  command element
    (el_is_displayed element && el_is_enabled element
     && negb (el_in_header_or_footer element)
     && negb (_is_carousel_element element)).

(** One iteration of a regular sweep.  [use_unique_ids] tells whether the
    loop also tests and extends the local [unique_ids]; [method] is the
    [detection_method] tag the loop writes.  Both [except] clauses of the
    loop body [continue]. *)
Definition sweep_element (_is_carousel_element : WebElement -> bool)
    (use_unique_ids : bool) (method : option string)
    (st : Sweep) (element : WebElement) : Sweep :=
  match passes_filters _is_carousel_element element with
  | Ok true =>
      match _extract_element_info (sw_seen_elements st) element with
      | (Some element_info, seen) =>
          if use_unique_ids
             && bool_decide (info_unique_id element_info ∈ sw_unique_ids st)
          then {| sw_seen_elements := seen;
                  sw_unique_ids := sw_unique_ids st;
                  sw_clickable_elements := sw_clickable_elements st |}
          else {| sw_seen_elements := seen;
                  sw_unique_ids :=
                    if use_unique_ids
                    then {[info_unique_id element_info]} ∪ sw_unique_ids st
                    else sw_unique_ids st;
                  sw_clickable_elements :=
                    sw_clickable_elements st
                    ++ [set_detection_method method element_info] |}
      | (None, seen) =>
          {| sw_seen_elements := seen;
             sw_unique_ids := sw_unique_ids st;
             sw_clickable_elements := sw_clickable_elements st |}
      end
  | Ok false | Raise _ => st
  end.

(** [for element in elements: ...]. *)
Definition sweep_elements (_is_carousel_element : WebElement -> bool)
    (use_unique_ids : bool) (method : option string)
    (st : Sweep) (elements : list WebElement) : Sweep :=
  fold_left (sweep_element _is_carousel_element use_unique_ids method)
    elements st.

(** A query whose failure the caller logs and skips. *)
Definition or_nothing {A : Type} (r : Res (list A)) : list A :=
  match r with
  | Ok l => l
  | Raise _ => []
  end.

(** The structural sweep: [for selector in clickable_selectors: ...]. *)
Definition structural_sweep (_is_carousel_element : WebElement -> bool)
    (selectors : list string) (page : Page) (st : Sweep) : Sweep :=
  fold_left
    (fun st selector =>
       sweep_elements _is_carousel_element true None st
         (or_nothing (page_find_elements page selector)))
    selectors st.

(** The inner loop of [_extract_clickables_from_slide]; the [try] encloses
    the loop, so a stale handle ends it, keeping what was appended. *)
Fixpoint collect_enabled (extract_hidden : WebElement -> option ElementInfo)
    (elements : list WebElement) : list ElementInfo :=
  match elements with
  | [] => []
  | element :: rest =>
      match command element (el_is_enabled element) with
      | Raise _ => []
      | Ok enabled =>
          (if enabled
           then match extract_hidden element with
                | Some element_info => [element_info]
                | None => []
                end
           else [])
          ++ collect_enabled extract_hidden rest
      end
  end.

(** The XPath of the action-word loop. *)
Definition action_word_xpath (word : string) : string :=
  ".//*[contains(translate(text(), 'abcdefghijklmnopqrstuvwxyz', 'ABCDEFGHIJKLMNOPQRSTUVWXYZ'), '"
  +:+ word +:+ "')]".

(** [_extract_clickables_from_slide]. *)
Definition _extract_clickables_from_slide
    (extract_hidden : WebElement -> option ElementInfo)
    (catalogue : Catalogue) (slide : Slide) : list ElementInfo :=
  match slide_make_visible slide with
  | Raise _ => []
  | Ok _ =>
      concat (map (fun selector =>
                     collect_enabled extract_hidden
                       (or_nothing (slide_find_elements slide By_CSS_SELECTOR selector)))
                (slide_clickable_selectors catalogue))
      ++ concat (map (fun word =>
                        collect_enabled extract_hidden
                          (or_nothing (slide_find_elements slide By_XPATH
                                         (action_word_xpath word))))
                   (action_words catalogue))
  end.

(** [_handle_carousel_banner]. *)
Definition _handle_carousel_banner
    (extract_hidden : WebElement -> option ElementInfo)
    (catalogue : Catalogue) (carousel : Carousel) : list ElementInfo :=
  match car_slides carousel with
  | Ok (Some slides) =>
      concat (map (_extract_clickables_from_slide extract_hidden catalogue) slides)
  | Ok None | Raise _ => []
  end.

(** The carousel loop of [find_clickable_elements] (in the second file,
    [_find_carousel_elements]). *)
Definition carousel_sweep
    (extract_hidden : WebElement -> option ElementInfo)
    (catalogue : Catalogue) (page : Page) : list ElementInfo :=
  concat (map (fun selector =>
    concat (map (fun carousel =>
                   if negb (car_stale carousel) && car_is_displayed carousel
                      && negb (car_in_header_or_footer carousel)
                   then _handle_carousel_banner extract_hidden catalogue carousel
                   else [])
              (or_nothing (page_find_carousels page selector))))
    (carousel_selectors catalogue)).

(** The three regular sweeps in the order of the source.  [aux_unique_ids]
    tells whether the cursor and listener loops also use [unique_ids]. *)
Definition regular_sweeps (_is_carousel_element : WebElement -> bool)
    (aux_unique_ids : bool) (catalogue : Catalogue) (page : Page)
    (seen_elements : gset string) : Sweep :=
  let st := {| sw_seen_elements := seen_elements;
               sw_unique_ids := ∅;
               sw_clickable_elements := [] |} in
  let st := structural_sweep _is_carousel_element
              (clickable_selectors catalogue) page st in
  let st := sweep_elements _is_carousel_element aux_unique_ids
              (Some "pointer_cursor") st
              (or_nothing (page_pointer_elements page)) in
  sweep_elements _is_carousel_element aux_unique_ids
    (Some "event_listener") st
    (or_nothing (page_listener_elements page)).

(** [find_clickable_elements], up to the two places where the files differ:
    [driver.get] may raise (nothing in the function catches it); the
    carousel descriptors are gathered first and appended last. *)
Definition find_clickable_elements_with
    (_is_carousel_element : WebElement -> bool)
    (extract_hidden : WebElement -> option ElementInfo)
    (aux_unique_ids : bool) (catalogue : Catalogue) (page : Page)
    (seen_elements : gset string) : Res (list ElementInfo * gset string) :=
  _ ← page_load page;
  let carousel_elements := carousel_sweep extract_hidden catalogue page in
  let st := regular_sweeps _is_carousel_element aux_unique_ids catalogue page
              seen_elements in
  Ok (sw_clickable_elements st ++ carousel_elements, sw_seen_elements st).

End Discovery.

(** A name that is read but bound nowhere: the read raises [NameError]. *)
Definition undefined_name {A : Type} (name : string) : Res A :=
  Raise (Exn NameError ("name '" +:+ name +:+ "' is not defined")).

(* ===================================================================== *)
(** ** [selenium_clickable_tester.py] *)
(* ===================================================================== *)

Module Tester.

(** [_is_carousel_element]: the ancestor walk; [False] if the script
    raises. *)
Definition _is_carousel_element (element : WebElement) : bool :=
  match command element (el_has_carousel_ancestor element) with
  | Ok answer => answer
  | Raise _ => false
  end.

(** [_extract_element_info_for_hidden].  Inside the dictionary display, after
    the ['href'] entry, comes
<<
    'status_code': self.get_status_code(href) if href else None,
>>
    and [href] is bound neither in the function nor in the module, so
    building the dictionary raises; the handler prints and returns [None]. *)
Definition _extract_element_info_for_hidden `{Digests}
    (element : WebElement) : option ElementInfo :=
  match _ ← command element tt;
        _ ← @undefined_name string "href";
        Ok (hidden_info element) with
  | Ok element_info => Some element_info
  | Raise _ => None
  end.

(** [find_clickable_elements]: all three regular loops consult
    [unique_ids]. *)
Definition find_clickable_elements `{Digests} (catalogue : Catalogue)
    (page : Page) (seen_elements : gset string)
    : Res (list ElementInfo * gset string) :=
  find_clickable_elements_with _is_carousel_element
    _extract_element_info_for_hidden true catalogue page seen_elements.

End Tester.

(* ===================================================================== *)
(** ** [selenium_clickable_tester_optimized.py] *)
(* ===================================================================== *)

Module Optimized.

(** [_is_carousel_element].  The script text has one closing parenthesis too
    many ([if (carouselSelectors.some(sel => className.includes(sel)))) {]),
    so running it raises and the handler returns [False]. *)
Definition _is_carousel_element (element : WebElement) : bool := false.

(** [_extract_element_info_for_hidden]; here [href] is bound before the
    dictionary is built. *)
Definition _extract_element_info_for_hidden `{Digests}
    (element : WebElement) : option ElementInfo :=
  match command element (hidden_info element) with
  | Ok element_info => Some element_info
  | Raise _ => None
  end.

(** [find_clickable_elements] with [_find_carousel_elements] and
    [_find_regular_clickables] inlined: only the structural loop consults
    [unique_ids]; [_find_elements_by_pointer_cursor] and
    [_find_elements_by_event_listeners] append whatever
    [_extract_element_info] returns. *)
Definition find_clickable_elements `{Digests} (catalogue : Catalogue)
    (page : Page) (seen_elements : gset string)
    : Res (list ElementInfo * gset string) :=
  find_clickable_elements_with _is_carousel_element
    _extract_element_info_for_hidden false catalogue page seen_elements.

End Optimized.

(* ===================================================================== *)
(** ** Batches *)
(* ===================================================================== *)

(** [elements[start_idx:end_idx]] for [0 <= start_idx <= end_idx]. *)
Definition slice {A : Type} (elements : list A) (start_idx end_idx : nat) : list A :=
  take (end_idx - start_idx) (drop start_idx elements).

(** The [for i in range(num_batches)] loop, from index [i], with [todo]
    iterations left. *)
Fixpoint batches_from {A : Type} (elements : list A)
    (batch_size remainder : nat) (i todo start_idx : nat) : list (list A) :=
  match todo with
  | O => []
  | S todo' =>
      let current_batch_size := batch_size + (if (i <? remainder)%nat then 1 else 0) in
      let end_idx := start_idx + current_batch_size in
      let batch := slice elements start_idx end_idx in
      (if nonempty batch then [batch] else [])
      ++ batches_from elements batch_size remainder (S i) todo' end_idx
  end.

(** [_divide_elements_into_batches]; [//] and [%] raise on a zero divisor. *)
Definition _divide_elements_into_batches {A : Type} (elements : list A)
    (num_batches : nat) : Res (list (list A)) :=
  match num_batches with
  | O => Raise (Exn ZeroDivisionError "integer division or modulo by zero")
  | S _ =>
      let batch_size := (length elements / num_batches)%nat in
      let remainder := (length elements mod num_batches)%nat in
      Ok (batches_from elements batch_size remainder 0 num_batches 0)
  end.

(* ===================================================================== *)
(** ** Test runs *)
(* ===================================================================== *)

(** The [test_results] dictionary ([summary] holds rounded floating-point
    percentages and is left out, as are the timestamps). *)
Record TestRun : Type := {
  run_url : string;
  run_total_elements_found : nat;
  run_elements_tested : nat;
  run_active_clicks : nat;
  run_dead_clicks : nat;
  run_errors : nat;
  run_results : list ClickResult
}.

(** What a run returns: [test_results], or [{'error': str(e)}]. *)
Inductive RunOutcome : Type :=
| Completed (test_results : TestRun)
| Failed (error : string).

Definition initial_test_results (url : string) (found : nat) : TestRun :=
  {| run_url := url;
     run_total_elements_found := found;
     run_elements_tested := 0;
     run_active_clicks := 0;
     run_dead_clicks := 0;
     run_errors := 0;
     run_results := [] |}.

(** The counter update both runs perform for one result. *)
Definition count_result (result : ClickResult) (t : TestRun) : TestRun :=
  if PyStr.startswith "active" (res_click_status result) then
    {| run_url := run_url t;
       run_total_elements_found := run_total_elements_found t;
       run_elements_tested := run_elements_tested t;
       run_active_clicks := run_active_clicks t + 1;
       run_dead_clicks := run_dead_clicks t;
       run_errors := run_errors t;
       run_results := run_results t |}
  else if String.eqb (res_click_status result) "dead_click" then
    {| run_url := run_url t;
       run_total_elements_found := run_total_elements_found t;
       run_elements_tested := run_elements_tested t;
       run_active_clicks := run_active_clicks t;
       run_dead_clicks := run_dead_clicks t + 1;
       run_errors := run_errors t;
       run_results := run_results t |}
  else
    {| run_url := run_url t;
       run_total_elements_found := run_total_elements_found t;
       run_elements_tested := run_elements_tested t;
       run_active_clicks := run_active_clicks t;
       run_dead_clicks := run_dead_clicks t;
       run_errors := run_errors t + 1;
       run_results := run_results t |}.

(** [results.extend(new); elements_tested += len(new)]. *)
Definition extend_results (new : list ClickResult) (t : TestRun) : TestRun :=
  {| run_url := run_url t;
     run_total_elements_found := run_total_elements_found t;
     run_elements_tested := run_elements_tested t + length new;
     run_active_clicks := run_active_clicks t;
     run_dead_clicks := run_dead_clicks t;
     run_errors := run_errors t;
     run_results := run_results t ++ new |}.

(** What the lead session answers around the test of one element of the
    sequential run. *)
Record SeqStep : Type := {
  seq_get : Res unit;
  seq_current_url : Res string;
  seq_get_again : Res unit;
  seq_click_env : ClickEnv
}.

(** The [for i, element_info in enumerate(clickable_elements, 1)] loop of
    [run_comprehensive_test]; a raising navigation leaves the loop. *)
Fixpoint test_each (url : string) (steps : nat -> SeqStep) (i : nat)
    (clickable_elements : list ElementInfo) (t : TestRun) : Res TestRun :=
  match clickable_elements with
  | [] => Ok t
  | element_info :: rest =>
      _ ← seq_get (steps i);
      current ← seq_current_url (steps i);
      _ ← (if negb (String.eqb current url) then seq_get_again (steps i)
           else Ok tt);
      let result := test_element_click (seq_click_env (steps i)) element_info in
      test_each url steps (S i) rest
        (count_result result (extend_results [result] t))
  end.

(** [run_comprehensive_test] (both files), given the outcome of
    [find_clickable_elements]. *)
Definition run_comprehensive_test (url : string)
    (discovered : Res (list ElementInfo)) (steps : nat -> SeqStep) : RunOutcome :=
  match clickable_elements ← discovered;
        test_each url steps 0 clickable_elements
          (initial_test_results url (length clickable_elements)) with
  | Ok test_results => Completed test_results
  | Raise e => Failed (exn_str e)
  end.

(** What a pool session answers around the test of one element of its
    batch. *)
Record BatchStep : Type := {
  step_current_url : Res string;
  step_get : Res unit;
  step_click_env : ClickEnv
}.

(** A pool session: its answers while it tests the [i]-th element of the
    batch it is given. *)
Definition Session : Type := nat -> BatchStep.

(** The dictionary the [except] clause of [_test_element_batch] appends. *)
Definition batch_error_result (element_info : ElementInfo) (url : string)
    (e : exn) : ClickResult :=
  {| res_element_info := element_info;
     res_click_status := "batch_error";
     res_error_message := exn_str e;
     res_page_changed := false;
     res_url_before := url;
     res_url_after := url;
     res_new_elements_appeared := false |}.

(** The body of the loop of [_test_element_batch]. *)
Definition test_in_batch (url : string) (step : BatchStep)
    (element_info : ElementInfo) : ClickResult :=
  match current ← step_current_url step;
        if negb (String.eqb current url) then step_get step else Ok tt with
  | Ok _ => _test_element_click_with_driver (step_click_env step) element_info
  | Raise e => batch_error_result element_info url e
  end.

(** [_test_element_batch]. *)
Definition _test_element_batch (batch : list ElementInfo) (driver : Session)
    (url : string) : list ClickResult :=
  imap (fun i element_info => test_in_batch url (driver i) element_info) batch.

(** The submissions: batch [i] runs on [driver_pool[i]]. *)
Fixpoint submit_batches (url : string) (driver_pool : list Session) (i : nat)
    (batches : list (list ElementInfo)) : Res (list (list ClickResult)) :=
  match batches with
  | [] => Ok []
  | batch :: rest =>
      match driver_pool !! i with
      | None => Raise (Exn OtherException "list index out of range")
      | Some driver =>
          futures ← submit_batches url driver_pool (S i) rest;
          Ok (_test_element_batch batch driver url :: futures)
      end
  end.

(** The [for future in as_completed(...)] loop; [completion] lists the
    submission indices in the order in which the batches finish. *)
Definition collect_results (futures : list (list ClickResult))
    (completion : list nat) (t : TestRun) : TestRun :=
  fold_left
    (fun t i => match futures !! i with
                | Some batch_results => extend_results batch_results t
                | None => t
                end)
    completion t.

(** The counting loop [for result in test_results['results']]. *)
Definition count_results (t : TestRun) : TestRun :=
  fold_left (fun t result => count_result result t) (run_results t) t.

(** [run_comprehensive_test_concurrent], given the outcome of
    [find_clickable_elements] and the sessions [_setup_driver_pool] could
    start. *)
Definition run_comprehensive_test_concurrent (url : string)
    (discovered : Res (list ElementInfo)) (driver_pool : list Session)
    (completion : list nat) : RunOutcome :=
  match clickable_elements ← discovered;
        _ ← (if nonempty driver_pool then Ok tt
             else Raise (Exn OtherException "Failed to initialize driver pool"));
        batches ← _divide_elements_into_batches clickable_elements
                    (length driver_pool);
        futures ← submit_batches url driver_pool 0 batches;
        Ok (count_results
              (collect_results futures completion
                 (initial_test_results url (length clickable_elements)))) with
  | Ok test_results => Completed test_results
  | Raise e => Failed (exn_str e)
  end.

(* ===================================================================== *)
(** ** Vocabulary of the properties *)
(* ===================================================================== *)

(** The ten classifications of a click result. *)
Definition classifications : list string :=
  [ "active_navigation"; "active_title_change"; "active_ui_change";
    "dead_click"; "not_clickable"; "element_not_found"; "click_intercepted";
    "stale_element"; "timeout"; "error" ].

(** The click went through: directly, or by the script after an intercepted
    direct click. *)
Definition click_succeeds (env : ClickEnv) (element : WebElement) : Prop :=
  env_click env element = Ok tt
  \/ (exists e, env_click env element = Raise e
                /\ exn_cls e = ElementClickInterceptedException
                /\ env_script_click env element = Ok tt).

(** The classification reaches the observation step on [element], with the
    given URLs and titles before and after the click. *)
Definition observed (env : ClickEnv) (element : WebElement)
    (initial_url initial_title current_url current_title : string) : Prop :=
  env_url_before env = Ok initial_url
  /\ env_title_before env = Ok initial_title
  /\ env_scroll_into_view env element = Ok tt
  /\ still_clickable env element = Ok true
  /\ click_succeeds env element
  /\ env_url_after env = Ok current_url
  /\ env_title_after env = Ok current_title.

(** The priority order of the terminal classification, as a relation
    between what was observed and the status reported.  [modals] and
    [dropdowns] are the outcomes of the two overlay queries: only when both
    answer does what they find count. *)
Definition strict_priority (element_info : ElementInfo)
    (initial_url initial_title current_url current_title : string)
    (modals dropdowns : Res (list WebElement)) (status : string) : Prop :=
  (is_dead_click_by_href element_info = true -> status = "dead_click")
  /\ (is_dead_click_by_href element_info = false ->
      current_url <> initial_url -> status = "active_navigation")
  /\ (is_dead_click_by_href element_info = false ->
      current_url = initial_url -> current_title <> initial_title ->
      status = "active_title_change")
  /\ (is_dead_click_by_href element_info = false ->
      current_url = initial_url -> current_title = initial_title ->
      forall found_modals found_dropdowns,
        modals = Ok found_modals -> dropdowns = Ok found_dropdowns ->
        (found_modals <> [] \/ found_dropdowns <> [] ->
         status = "active_ui_change")
        /\ (found_modals = [] -> found_dropdowns = [] ->
            status = "dead_click"))
  /\ (is_dead_click_by_href element_info = false ->
      current_url = initial_url -> current_title = initial_title ->
      (exists e, modals = Raise e) \/ (exists e, dropdowns = Raise e) ->
      status = "dead_click").

(** The three outcome buckets of the counters. *)
Definition is_active (result : ClickResult) : bool :=
  PyStr.startswith "active" (res_click_status result).

Definition is_dead (result : ClickResult) : bool :=
  negb (is_active result) && String.eqb (res_click_status result) "dead_click".

Definition is_error (result : ClickResult) : bool :=
  negb (is_active result)
  && negb (String.eqb (res_click_status result) "dead_click").

(** The counters of a run agree with its result list. *)
Definition accounted (t : TestRun) : Prop :=
  run_active_clicks t = length (List.filter is_active (run_results t))
  /\ run_dead_clicks t = length (List.filter is_dead (run_results t))
  /\ run_errors t = length (List.filter is_error (run_results t))
  /\ run_active_clicks t + run_dead_clicks t + run_errors t = run_elements_tested t
  /\ run_elements_tested t = length (run_results t).

(* ===================================================================== *)
(** ** Concrete scenarios used by the examples *)
(* ===================================================================== *)

(** A stand-in for the library digests: the key itself as its digest, the
    length of a string as its hash. *)
Definition example_digests : Digests :=
  {| md5_hexdigest := fun key => key;
     py_hash := fun s => Z.of_nat (String.length s);
     str_location := fun _ => "{'x': 0, 'y': 0}" |}.

(** A descriptor that carries nothing but a link target. *)
Definition link_info (href : string) : ElementInfo :=
  {| info_tag_name := "a";
     info_text := "";
     info_class_names := "";
     info_id := "";
     info_href := Some href;
     info_onclick := "";
     info_xpath := "xpath_unavailable";
     info_location := (0, 0)%Z;
     info_is_displayed := true;
     info_is_enabled := true;
     info_unique_id := Md5Hex "";
     info_is_carousel_element := None;
     info_detection_method := None |}.

(** A visible, enabled node outside header, footer and carousels. *)
Definition node (tag text : string) (class href id_ : option string) : WebElement :=
  {| el_stale := false;
     el_tag_name := tag;
     el_text := text;
     el_class := class;
     el_href := href;
     el_id := id_;
     el_onclick := None;
     el_xpath_script := Ok ("//" +:+ tag);
     el_location := (0, 0)%Z;
     el_is_displayed := true;
     el_is_enabled := true;
     el_in_header_or_footer := false;
     el_has_carousel_ancestor := false;
     el_late_reads := Ok tt |}.

(** The same node, not displayed. *)
Definition hidden (element : WebElement) : WebElement :=
  {| el_stale := el_stale element;
     el_tag_name := el_tag_name element;
     el_text := el_text element;
     el_class := el_class element;
     el_href := el_href element;
     el_id := el_id element;
     el_onclick := el_onclick element;
     el_xpath_script := el_xpath_script element;
     el_location := el_location element;
     el_is_displayed := false;
     el_is_enabled := el_is_enabled element;
     el_in_header_or_footer := el_in_header_or_footer element;
     el_has_carousel_ancestor := el_has_carousel_ancestor element;
     el_late_reads := el_late_reads element |}.

Definition about_link : WebElement :=
  node "a" "About" (Some "btn") (Some "/about") None.

Definition hash_button : WebElement :=
  node "button" "Menu" (Some "btn") (Some "#") (Some "menu").

Definition promo_link : WebElement :=
  node "a" "Promo" (Some "cta") (Some "/promo") None.

(** A session on which every call succeeds: each query answers
    [candidates], the click leads to [url_after] and [title_after], and the
    overlay queries answer [modals] and [dropdowns]. *)
Definition click_env (candidates : list WebElement)
    (url_after title_after : string) (modals dropdowns : list WebElement)
    : ClickEnv :=
  {| env_url_before := Ok "https://example.test/";
     env_title_before := Ok "Home";
     env_find_elements := fun _ _ => Ok candidates;
     env_carousel_containers := Ok [];
     env_scroll_into_view := fun _ => Ok tt;
     env_is_displayed := fun _ => Ok true;
     env_is_enabled := fun _ => Ok true;
     env_click := fun _ => Ok tt;
     env_script_click := fun _ => Ok tt;
     env_url_after := Ok url_after;
     env_title_after := Ok title_after;
     env_modals := Ok modals;
     env_dropdowns := Ok dropdowns |}.

(** A session whose very first answer is the exception [e]. *)
Definition raising_env (e : exn) : ClickEnv :=
  {| env_url_before := Raise e;
     env_title_before := Ok "Home";
     env_find_elements := fun _ _ => Ok [];
     env_carousel_containers := Ok [];
     env_scroll_into_view := fun _ => Ok tt;
     env_is_displayed := fun _ => Ok true;
     env_is_enabled := fun _ => Ok true;
     env_click := fun _ => Ok tt;
     env_script_click := fun _ => Ok tt;
     env_url_after := Ok "https://example.test/";
     env_title_after := Ok "Home";
     env_modals := Ok [];
     env_dropdowns := Ok [] |}.

(** The descriptor discovery produces for a node, under the stand-in
    digests. *)
Definition descriptor (element : WebElement) : ElementInfo :=
  @regular_info example_digests element.

Definition timeout_exn : exn :=
  Exn TimeoutException "timed out receiving message from renderer".

(** A pool session that cannot report its current URL. *)
Definition broken_session : Session := fun _ =>
  {| step_current_url := Raise (Exn OtherException "chrome not reachable");
     step_get := Ok tt;
     step_click_env := click_env [about_link] "https://example.test/about" "Home" [] [] |}.

(** A pool session on its target page, where every click on [about_link]
    navigates. *)
Definition healthy_session : Session := fun _ =>
  {| step_current_url := Ok "https://example.test/";
     step_get := Ok tt;
     step_click_env := click_env [about_link] "https://example.test/about" "Home" [] [] |}.

(** The lead session during a sequential run over the same page. *)
Definition healthy_steps : nat -> SeqStep := fun _ =>
  {| seq_get := Ok tt;
     seq_current_url := Ok "https://example.test/";
     seq_get_again := Ok tt;
     seq_click_env := click_env [about_link] "https://example.test/about" "Home" [] [] |}.

(** The same session, but the page load before the test of element [k]
    times out. *)
Definition steps_failing_at (k : nat) : nat -> SeqStep := fun i =>
  if (i =? k)%nat
  then {| seq_get := Raise (Exn TimeoutException "page load timed out");
          seq_current_url := Ok "https://example.test/";
          seq_get_again := Ok tt;
          seq_click_env :=
            click_env [about_link] "https://example.test/about" "Home" [] [] |}
  else healthy_steps i.

(** [1] for [True], [0] for [False]. *)
Definition bump (b : bool) : nat := if b then 1 else 0.

(** The size of batch [i] of the division: the quotient, plus one for the
    first [remainder] batches. *)
Definition batch_len (batch_size remainder i : nat) : nat :=
  batch_size + bump (i <? remainder)%nat.

(** The number of elements of batches [i .. i + todo - 1]. *)
Fixpoint span (batch_size remainder i todo : nat) : nat :=
  match todo with
  | O => 0
  | S todo' =>
      batch_len batch_size remainder i + span batch_size remainder (S i) todo'
  end.

(** The ceiling of [n / k]. *)
Definition ceil_div (n k : nat) : nat := ((n + k - 1) / k)%nat.

(** A candidate the document-wide locator accepts: displayed, and with the
    tag name and the truncated text of the descriptor. *)
Definition accepts (element_info : ElementInfo) (element : WebElement) : bool :=
  el_is_displayed element
  && String.eqb (el_tag_name element) (info_tag_name element_info)
  && String.eqb (displayed_text element) (info_text element_info).

(** A live candidate the locator passes over. *)
Definition passed_over (element_info : ElementInfo) (element : WebElement) : Prop :=
  el_stale element = false /\ accepts element_info element = false.

(** The first candidate whose tag name and truncated text match the
    descriptor, whether displayed or not. *)
Definition first_tag_text_match (element_info : ElementInfo)
    (candidates : list WebElement) : option WebElement :=
  List.find
    (fun element =>
       String.eqb (el_tag_name element) (info_tag_name element_info)
       && String.eqb (displayed_text element) (info_text element_info))
    candidates.

(** A second link with the tag and text of [about_link]. *)
Definition about_link_twin : WebElement :=
  node "a" "About" (Some "btn") (Some "/about-us") None.

Section DiscoveryVocabulary.
Context `{Digests}.

(** The candidates of a sweep on which [_extract_element_info] is called:
    those that pass the guard. *)
Definition eligible (_is_carousel_element : WebElement -> bool)
    (elements : list WebElement) : list WebElement :=
  List.filter
    (fun element =>
       match passes_filters _is_carousel_element element with
       | Ok answer => answer
       | Raise _ => false
       end)
    elements.

Definition tagged (method : option string) (elements : list WebElement)
    : list (WebElement * option string) :=
  map (fun element => (element, method)) elements.

(** The raw elements one discovery pass meets in its three regular sweeps,
    in the order in which it meets them, each with the tag of the sweep. *)
Definition encounters (_is_carousel_element : WebElement -> bool)
    (catalogue : Catalogue) (page : Page) : list (WebElement * option string) :=
  tagged None
    (concat (map (fun selector =>
                    eligible _is_carousel_element
                      (or_nothing (page_find_elements page selector)))
               (clickable_selectors catalogue)))
  ++ tagged (Some "pointer_cursor")
       (eligible _is_carousel_element (or_nothing (page_pointer_elements page)))
  ++ tagged (Some "event_listener")
       (eligible _is_carousel_element (or_nothing (page_listener_elements page))).

(** The fingerprint set after meeting one more element. *)
Definition seen_with (seen : gset string) (element : WebElement) : gset string :=
  if bool_decide (fingerprint element ∈ seen) then seen
  else {[fingerprint element]} ∪ seen.

(** The reads that follow the recording of the fingerprint all answer. *)
Definition extraction_completes (element : WebElement) : bool :=
  match el_late_reads element with
  | Ok _ => true
  | Raise _ => false
  end.

(** First-seen-wins deduplication of a sequence of encounters against a
    set of fingerprints: an element whose fingerprint is in the set is
    dropped; any other enters the set, and yields its descriptor if its
    extraction completes. *)
Fixpoint first_seen_wins (seen : gset string)
    (met : list (WebElement * option string)) : list ElementInfo :=
  match met with
  | [] => []
  | (element, method) :: rest =>
      (if bool_decide (fingerprint element ∈ seen) then []
       else if extraction_completes element
            then [set_detection_method method (regular_info element)]
            else [])
      ++ first_seen_wins (seen_with seen element) rest
  end.

(** The fingerprint set after a sequence of encounters. *)
Definition seen_after (seen : gset string)
    (met : list (WebElement * option string)) : gset string :=
  fold_left (fun seen em => seen_with seen (fst em)) met seen.


(** In the sweeps that consult it, [unique_ids] never holds a digest that
    [seen_elements] lacks. *)
Definition unique_ids_seen (st : Sweep) : Prop :=
  forall digest, Md5Hex digest ∈ sw_unique_ids st -> digest ∈ sw_seen_elements st.

End DiscoveryVocabulary.

Definition example_catalogue : Catalogue :=
  {| carousel_selectors := [".carousel"; ".slider"];
     clickable_selectors := ["a"; "button"];
     slide_clickable_selectors := ["a"; "button"];
     action_words := ["LEARN MORE"] |}.

(** A static page with a link and a button, outside any carousel; both have
    a pointer cursor and the button has an inline handler. *)
Definition static_page : Page :=
  {| page_load := Ok tt;
     page_find_carousels := fun _ => Ok [];
     page_find_elements := fun selector =>
       if String.eqb selector "a" then Ok [about_link]
       else if String.eqb selector "button" then Ok [hash_button]
       else Ok [];
     page_pointer_elements := Ok [about_link; hash_button];
     page_listener_elements := Ok [hash_button] |}.



(** The promo link again, as a separate node inside a carousel slide. *)
Definition promo_in_banner : WebElement :=
  {| el_stale := false;
     el_tag_name := el_tag_name promo_link;
     el_text := el_text promo_link;
     el_class := el_class promo_link;
     el_href := el_href promo_link;
     el_id := el_id promo_link;
     el_onclick := el_onclick promo_link;
     el_xpath_script := Ok "/html/body/div[1]/div[2]/a[1]";
     el_location := (0, 0)%Z;
     el_is_displayed := false;
     el_is_enabled := true;
     el_in_header_or_footer := false;
     el_has_carousel_ancestor := true;
     el_late_reads := Ok tt |}.

Definition banner_slide : Slide :=
  {| slide_make_visible := Ok tt;
     slide_find_elements := fun by_ value =>
       match by_ with
       | By_CSS_SELECTOR =>
           if String.eqb value "a" then Ok [promo_in_banner] else Ok []
       | _ => Ok []
       end |}.

Definition banner : Carousel :=
  {| car_stale := false;
     car_is_displayed := true;
     car_in_header_or_footer := false;
     car_slides := Ok (Some [banner_slide]) |}.

(** A page with a banner whose slide holds a promo link, and the same promo
    link once more in the page body. *)
Definition banner_page : Page :=
  {| page_load := Ok tt;
     page_find_carousels := fun selector =>
       if String.eqb selector ".carousel" then Ok [banner] else Ok [];
     page_find_elements := fun selector =>
       if String.eqb selector "a" then Ok [promo_in_banner; promo_link]
       else Ok [];
     page_pointer_elements := Ok [];
     page_listener_elements := Ok [] |}.

(** The list a discovery pass returns to its caller. *)
Definition descriptors_of (discovered : Res (list ElementInfo * gset string))
    : Res (list ElementInfo) :=
  found ← discovered; Ok (fst found).

(** Two discovery passes of one tester, fresh at the start, over the same
    page: the second starts from the [seen_elements] the first has left.
    Returns the two descriptor lists. *)
Definition discover_twice
    (find_clickable_elements :
       Page -> gset string -> Res (list ElementInfo * gset string))
    (page : Page) : Res (list ElementInfo * list ElementInfo) :=
  first ← find_clickable_elements page ∅;
  second ← find_clickable_elements page (snd first);
  Ok (fst first, fst second).

(* ===================================================================== *)
(** ** Further vocabulary: click results *)
(* ===================================================================== *)

(** The flags of a result agree with its status, and the result belongs to
    the descriptor it was made for. *)
Definition flags_consistent (element_info : ElementInfo) (result : ClickResult)
    : Prop :=
  res_element_info result = element_info
  /\ (res_page_changed result = true
      <-> In (res_click_status result)
             ["active_navigation"; "active_title_change"])
  /\ (res_new_elements_appeared result = true
      <-> res_click_status result = "active_ui_change").

(** The ways through the [try] block of a classifier, each with the driver
    answers that select it and with the flow and [result] it ends in. *)
Inductive ClickPath (env : ClickEnv) (element_info : ElementInfo)
    (located : option WebElement) : Flow unit * ClickResult -> Prop :=
| path_url_before_raises e :
    env_url_before env = Raise e ->
    ClickPath env element_info located (Raised e, initial_result element_info)
| path_title_before_raises initial_url e :
    env_url_before env = Ok initial_url ->
    env_title_before env = Raise e ->
    ClickPath env element_info located (Raised e, initial_result element_info)
| path_not_found initial_url initial_title :
    env_url_before env = Ok initial_url ->
    env_title_before env = Ok initial_title ->
    located = None ->
    ClickPath env element_info located
      (ReturnResult,
       set_error_message "Element could not be located for clicking"
         (set_click_status "element_not_found"
            (set_url_before initial_url (initial_result element_info))))
| path_scroll_raises initial_url initial_title element e :
    env_url_before env = Ok initial_url ->
    env_title_before env = Ok initial_title ->
    located = Some element ->
    env_scroll_into_view env element = Raise e ->
    ClickPath env element_info located
      (Raised e, set_url_before initial_url (initial_result element_info))
| path_check_raises initial_url initial_title element e :
    env_url_before env = Ok initial_url ->
    env_title_before env = Ok initial_title ->
    located = Some element ->
    env_scroll_into_view env element = Ok tt ->
    still_clickable env element = Raise e ->
    ClickPath env element_info located
      (Raised e, set_url_before initial_url (initial_result element_info))
| path_not_clickable initial_url initial_title element :
    env_url_before env = Ok initial_url ->
    env_title_before env = Ok initial_title ->
    located = Some element ->
    env_scroll_into_view env element = Ok tt ->
    still_clickable env element = Ok false ->
    ClickPath env element_info located
      (ReturnResult,
       set_error_message "Element is not displayed or enabled"
         (set_click_status "not_clickable"
            (set_url_before initial_url (initial_result element_info))))
| path_click_raises initial_url initial_title element e :
    env_url_before env = Ok initial_url ->
    env_title_before env = Ok initial_title ->
    located = Some element ->
    env_scroll_into_view env element = Ok tt ->
    still_clickable env element = Ok true ->
    env_click env element = Raise e ->
    exn_cls e <> ElementClickInterceptedException ->
    ClickPath env element_info located
      (Raised e, set_url_before initial_url (initial_result element_info))
| path_click_intercepted initial_url initial_title element e js_error :
    env_url_before env = Ok initial_url ->
    env_title_before env = Ok initial_title ->
    located = Some element ->
    env_scroll_into_view env element = Ok tt ->
    still_clickable env element = Ok true ->
    env_click env element = Raise e ->
    exn_cls e = ElementClickInterceptedException ->
    env_script_click env element = Raise js_error ->
    ClickPath env element_info located
      (ReturnResult,
       set_error_message ("Click intercepted: " +:+ exn_str js_error)
         (set_click_status "click_intercepted"
            (set_url_before initial_url (initial_result element_info))))
| path_url_after_raises initial_url initial_title element e :
    env_url_before env = Ok initial_url ->
    env_title_before env = Ok initial_title ->
    located = Some element ->
    env_scroll_into_view env element = Ok tt ->
    still_clickable env element = Ok true ->
    click_succeeds env element ->
    env_url_after env = Raise e ->
    ClickPath env element_info located
      (Raised e, set_url_before initial_url (initial_result element_info))
| path_title_after_raises initial_url initial_title element current_url e :
    env_url_before env = Ok initial_url ->
    env_title_before env = Ok initial_title ->
    located = Some element ->
    env_scroll_into_view env element = Ok tt ->
    still_clickable env element = Ok true ->
    click_succeeds env element ->
    env_url_after env = Ok current_url ->
    env_title_after env = Raise e ->
    ClickPath env element_info located
      (Raised e, set_url_before initial_url (initial_result element_info))
| path_observed initial_url initial_title element current_url current_title :
    located = Some element ->
    observed env element initial_url initial_title current_url current_title ->
    ClickPath env element_info located
      (Continue tt,
       determine_click_status element_info initial_url current_url
         initial_title current_title (overlay_present env)
         (set_url_after current_url
            (set_url_before initial_url (initial_result element_info)))).

(** What the URLs recorded in a result say, status by status. *)
Definition urls_consistent (result : ClickResult) : Prop :=
  (res_click_status result = "active_navigation" ->
   res_url_after result <> res_url_before result)
  /\ (In (res_click_status result) ["active_title_change"; "active_ui_change"] ->
      res_url_after result = res_url_before result)
  /\ (In (res_click_status result)
         ["element_not_found"; "not_clickable"; "click_intercepted";
          "stale_element"; "timeout"; "error"] ->
      res_url_after result = "").

(** A session on which the direct click is intercepted and the script click
    fails too. *)
Definition intercepted_env : ClickEnv :=
  {| env_url_before := Ok "https://example.test/";
     env_title_before := Ok "Home";
     env_find_elements := fun _ _ => Ok [about_link];
     env_carousel_containers := Ok [];
     env_scroll_into_view := fun _ => Ok tt;
     env_is_displayed := fun _ => Ok true;
     env_is_enabled := fun _ => Ok true;
     env_click := fun _ =>
       Raise (Exn ElementClickInterceptedException "element click intercepted");
     env_script_click := fun _ => Raise (Exn OtherException "javascript error");
     env_url_after := Ok "https://example.test/";
     env_title_after := Ok "Home";
     env_modals := Ok [];
     env_dropdowns := Ok [] |}.

(** A dialog that is open on the page. *)
Definition dialog : WebElement :=
  node "div" "Subscribe" (Some "modal") None None.

(** A session on which the click changes neither URL nor title, the modal
    query finds the dialog, and the dropdown query raises. *)
Definition dropdown_failure_env : ClickEnv :=
  {| env_url_before := Ok "https://example.test/";
     env_title_before := Ok "Home";
     env_find_elements := fun _ _ => Ok [about_link];
     env_carousel_containers := Ok [];
     env_scroll_into_view := fun _ => Ok tt;
     env_is_displayed := fun _ => Ok true;
     env_is_enabled := fun _ => Ok true;
     env_click := fun _ => Ok tt;
     env_script_click := fun _ => Ok tt;
     env_url_after := Ok "https://example.test/";
     env_title_after := Ok "Home";
     env_modals := Ok [dialog];
     env_dropdowns := Raise (Exn OtherException "chrome not reachable") |}.

(* ===================================================================== *)
(** ** Further vocabulary: runs *)
(* ===================================================================== *)

(** The navigation that precedes one test of the sequential run: [get],
    then [get] once more if the session is not on the target. *)
Definition seq_navigation (url : string) (step : SeqStep) : Res unit :=
  _ ← seq_get step;
  current ← seq_current_url step;
  if negb (String.eqb current url) then seq_get_again step else Ok tt.

(** The navigation that precedes one test of a batch: [get] only if the
    session is not on the target. *)
Definition batch_navigation (url : string) (step : BatchStep) : Res unit :=
  current ← step_current_url step;
  if negb (String.eqb current url) then step_get step else Ok tt.

(** The result lists of the futures, in the order of completion. *)
Definition in_completion_order (futures : list (list ClickResult))
    (completion : list nat) : list (list ClickResult) :=
  map (fun i => default [] (futures !! i)) completion.

(* ===================================================================== *)
(** ** Further vocabulary: the locator *)
(* ===================================================================== *)

(** A candidate the in-container locator accepts: tag name and truncated
    text of the descriptor, displayed or not. *)
Definition accepts_hidden (element_info : ElementInfo) (element : WebElement)
    : bool :=
  String.eqb (el_tag_name element) (info_tag_name element_info)
  && String.eqb (displayed_text element) (info_text element_info).

(** The element was returned by the query of one of the strategies of the
    descriptor. *)
Definition among_candidates
    (find_elements : By -> string -> Res (list WebElement))
    (element_info : ElementInfo) (element : WebElement) : Prop :=
  exists by_ value candidates,
    In (Some (by_, value)) (strategies element_info)
    /\ find_elements by_ value = Ok candidates
    /\ In element candidates.

(** The descriptor of a bare [span] found by its pointer cursor, for which
    the path script failed: it has no identifier, no path and no class. *)
Definition bare_descriptor : ElementInfo :=
  {| info_tag_name := "span";
     info_text := "More";
     info_class_names := "";
     info_id := "";
     info_href := Some "";
     info_onclick := "";
     info_xpath := "xpath_unavailable";
     info_location := (0, 0)%Z;
     info_is_displayed := true;
     info_is_enabled := true;
     info_unique_id := Md5Hex "span|More|||";
     info_is_carousel_element := None;
     info_detection_method := Some "pointer_cursor" |}.

(* ===================================================================== *)
(** ** Further vocabulary: discovery *)
(* ===================================================================== *)

(** The page with every failing query answered by the empty list. *)
Definition quiet (page : Page) : Page :=
  {| page_load := page_load page;
     page_find_carousels := fun selector =>
       Ok (or_nothing (page_find_carousels page selector));
     page_find_elements := fun selector =>
       Ok (or_nothing (page_find_elements page selector));
     page_pointer_elements := Ok (or_nothing (page_pointer_elements page));
     page_listener_elements := Ok (or_nothing (page_listener_elements page)) |}.

(** A page on which the anchor query fails and the cursor script finds the
    link. *)
Definition flaky_page : Page :=
  {| page_load := Ok tt;
     page_find_carousels := fun _ =>
       Raise (Exn OtherException "invalid selector");
     page_find_elements := fun selector =>
       if String.eqb selector "a"
       then Raise (Exn OtherException "invalid selector")
       else Ok [];
     page_pointer_elements := Ok [about_link];
     page_listener_elements := Raise (Exn OtherException "javascript error") |}.

Section DiscoveryOrigins.
Context `{Digests}.

(** A regular descriptor and the element of the page it was extracted
    from: an element that one of the three sweeps met and let through its
    guard -- live, displayed, enabled, outside header and footer -- and
    whose extraction ran to its end. *)
Definition extracted_from (_is_carousel_element : WebElement -> bool)
    (catalogue : Catalogue) (page : Page) (element_info : ElementInfo)
    (element : WebElement) : Prop :=
  exists method,
    element_info = set_detection_method method (regular_info element)
    /\ In (element, method) (encounters _is_carousel_element catalogue page)
    /\ el_stale element = false
    /\ el_is_displayed element = true
    /\ el_is_enabled element = true
    /\ el_in_header_or_footer element = false
    /\ el_late_reads element = Ok tt.

End DiscoveryOrigins.

(* ===================================================================== *)
(** ** Summaries: [_get_click_status_breakdown], [_get_most_common_classes]

    A counting dictionary is modelled as the list of its items in insertion
    order, which is the order [dict.items()] yields. *)
(* ===================================================================== *)

(** [d.get(key, default)]. *)
Fixpoint dict_get (d : list (string * nat)) (key : string) (default : nat) : nat :=
  match d with
  | [] => default
  | (k, v) :: rest => if String.eqb k key then v else dict_get rest key default
  end.

(** [d[key] = value]: an existing key keeps its place. *)
Fixpoint dict_set (d : list (string * nat)) (key : string) (value : nat)
    : list (string * nat) :=
  match d with
  | [] => [(key, value)]
  | (k, v) :: rest =>
      if String.eqb k key then (k, value) :: rest
      else (k, v) :: dict_set rest key value
  end.

(** [d[key] = d.get(key, 0) + 1]. *)
Definition count_key (d : list (string * nat)) (key : string)
    : list (string * nat) :=
  dict_set d key (dict_get d key 0 + 1).

(** [_get_click_status_breakdown]. *)
Definition _get_click_status_breakdown (results : list ClickResult)
    : list (string * nat) :=
  fold_left (fun status_counts result =>
               count_key status_counts (res_click_status result))
    results [].

(** [str.split()] without arguments: the maximal runs of non-whitespace
    characters; [word] is the run being read. *)
Fixpoint split_from (s : string) (word : string) : list string :=
  match s with
  | EmptyString => if PyStr.truthy word then [word] else []
  | String c s' =>
      if PyStr.is_space c
      then (if PyStr.truthy word then [word] else []) ++ split_from s' ""
      else split_from s' (word +:+ String c "")
  end.

Definition split_whitespace (s : string) : list string := split_from s "".

(** [sorted(items, key=lambda x: x[1], reverse=True)]: a sort by falling
    count that keeps items of equal count in their order. *)
Fixpoint insert_by_count (item : string * nat) (sorted : list (string * nat))
    : list (string * nat) :=
  match sorted with
  | [] => [item]
  | other :: rest =>
      if (snd other <=? snd item)%nat then item :: other :: rest
      else other :: insert_by_count item rest
  end.

Definition sorted_by_count (items : list (string * nat)) : list (string * nat) :=
  foldr insert_by_count [] items.

(** The dictionary [class_counts] after the loop over the results. *)
Definition class_counts (results : list ClickResult) : list (string * nat) :=
  fold_left
    (fun counts result =>
       let classes := info_class_names (res_element_info result) in
       if PyStr.truthy classes
       then fold_left count_key (split_whitespace classes) counts
       else counts)
    results [].

(** [_get_most_common_classes]. *)
Definition _get_most_common_classes (results : list ClickResult)
    : list (string * nat) :=
  take 10 (sorted_by_count (class_counts results)).

(** How many results carry a status. *)
Definition status_count (status : string) (results : list ClickResult) : nat :=
  length (List.filter (fun result => String.eqb (res_click_status result) status)
            results).

(** The class names of all results, one entry per mention. *)
Definition class_mentions (results : list ClickResult) : list string :=
  flat_map (fun result =>
              split_whitespace (info_class_names (res_element_info result)))
    results.

(** How often a key occurs in a list of keys. *)
Definition mentions (key : string) (keys : list string) : nat :=
  length (List.filter (String.eqb key) keys).

(** The sum of the counts of the items whose key satisfies [p]. *)
Definition count_where (p : string -> bool) (d : list (string * nat)) : nat :=
  list_sum (map snd (List.filter (fun item => p (fst item)) d)).

(** Results whose descriptors carry the given class lists. *)
Definition result_with_classes (classes : string) : ClickResult :=
  initial_result
    {| info_tag_name := "a";
       info_text := "";
       info_class_names := classes;
       info_id := "";
       info_href := Some "";
       info_onclick := "";
       info_xpath := "xpath_unavailable";
       info_location := (0, 0)%Z;
       info_is_displayed := true;
       info_is_enabled := true;
       info_unique_id := Md5Hex classes;
       info_is_carousel_element := None;
       info_detection_method := None |}.

(* ===================================================================== *)
(** ** Carousel slides: [_looks_like_slide], [_get_all_carousel_slides]

    What the two functions ask of an element, each question with its
    outcome.  The children counts are [len(element.find_elements(By.TAG_NAME,
    ..))]; the computed style is the dictionary the script returns. *)
(* ===================================================================== *)

Record ComputedStyle : Type := {
  style_display : string;
  style_position : string;
  style_float : string
}.

Record SlideCandidate : Type := {
  probe_images : Res nat;
  probe_text : Res string;
  probe_links : Res nat;
  probe_buttons : Res nat;
  probe_style : Res (option string);
  probe_class : Res (option string);
  probe_computed_style : Res ComputedStyle
}.

(** A DOM node as the slide search sees it: the answers to
    [_looks_like_slide], and its scoped CSS query. *)
#[local] Unset Elimination Schemes.
Inductive DomNode : Type :=
  Dom { node_candidate : SlideCandidate;
        node_find_elements : string -> Res (list DomNode) }.
#[local] Set Elimination Schemes.

(** [sub in s]. *)
Fixpoint str_contains (sub s : string) : bool :=
  String.prefix sub s
  || match s with
     | EmptyString => false
     | String _ s' => str_contains sub s'
     end.

(** [try: return <body> except: return default]. *)
Definition value_or {A : Type} (default : A) (body : Res A) : A :=
  match body with
  | Ok a => a
  | Raise _ => default
  end.

Definition has_slide_styling (style : string) (computed_style : ComputedStyle)
    : bool :=
  str_contains "width:" (PyStr.lower style)
  || PyStr.in_list (style_position computed_style) ["absolute"; "relative"]
  || PyStr.in_list (style_float computed_style) ["left"; "right"]
  || PyStr.in_list (style_display computed_style) ["flex"; "inline-block"].

Definition has_slide_class (class_names : string) : bool :=
  existsb (fun keyword => str_contains keyword (PyStr.lower class_names))
    ["slide"; "item"; "cell"; "panel"; "tab"].

(** [len(element.text.strip()) > 20]. *)
Definition has_text_content (text : string) : bool :=
  (20 <? String.length (PyStr.strip text))%nat.

(** The search for slides that the two files share: the walk over the slide
    selectors ([first_found]) and the two fall-backs, which differ in what an
    exception costs. *)
Definition potential_selector : string := "div, section, article, li".
Definition nested_selector : string :=
  ".swiper-wrapper, .slider-wrapper, .carousel-inner, .slides".
Definition nested_slide_selector : string := "div, li".

Module TesterCarousel.

(** Every question is asked, in this order, before the answer is formed; an
    exception anywhere gives [False]. *)
Definition _looks_like_slide (element : SlideCandidate) : bool :=
  value_or false
    (images ← probe_images element;
     text ← probe_text element;
     links ← probe_links element;
     buttons ← probe_buttons element;
     style ← probe_style element;
     computed_style ← probe_computed_style element;
     class_names ← probe_class element;
     mret ((0 <? images)%nat || has_text_content text
           || (0 <? links)%nat || (0 <? buttons)%nat
           || has_slide_styling (PyStr.or_empty style) computed_style
           || has_slide_class (PyStr.or_empty class_names))).

(** [for selector in slide_selectors: ...; if found_slides: ...; break]. *)
Fixpoint first_found (container : DomNode) (selectors : list string)
    : Res (list DomNode) :=
  match selectors with
  | [] => Ok []
  | selector :: rest =>
      found_slides ← node_find_elements container selector;
      if nonempty found_slides then Ok found_slides
      else first_found container rest
  end.

(** [for container in nested_containers: ...]. *)
Fixpoint nested_slides (nested_containers : list DomNode)
    (slides : list DomNode) : Res (list DomNode) :=
  match nested_containers with
  | [] => Ok slides
  | container :: rest =>
      found ← node_find_elements container nested_slide_selector;
      nested_slides rest
        (slides
         ++ List.filter (fun slide => _looks_like_slide (node_candidate slide))
              found)
  end.

(** One [try] around the whole search: any exception gives [[]]. *)
Definition _get_all_carousel_slides (slide_selectors : list string)
    (carousel_container : DomNode) : list DomNode :=
  value_or []
    (slides ← first_found carousel_container slide_selectors;
     slides ← (if nonempty slides then Ok slides
               else
                 potential_slides ←
                   node_find_elements carousel_container potential_selector;
                 Ok (List.filter
                       (fun slide => _looks_like_slide (node_candidate slide))
                       potential_slides));
     if nonempty slides then Ok slides
     else
       nested_containers ←
         node_find_elements carousel_container nested_selector;
       nested_slides nested_containers slides).

End TesterCarousel.

Module OptimizedCarousel.

(** The content questions short-circuit; styling and class are asked only of
    an element without content. *)
Definition _looks_like_slide (element : SlideCandidate) : bool :=
  value_or false
    (images ← probe_images element;
     if (0 <? images)%nat then Ok true
     else
       text ← probe_text element;
       if has_text_content text then Ok true
       else
         links ← probe_links element;
         if (0 <? links)%nat then Ok true
         else
           buttons ← probe_buttons element;
           if (0 <? buttons)%nat then Ok true
           else
             style ← probe_style element;
             class_names ← probe_class element;
             computed_style ← probe_computed_style element;
             Ok (has_slide_styling (PyStr.or_empty style) computed_style
                 || has_slide_class (PyStr.or_empty class_names))).

(** Each selector has its own [try]: [except Exception: continue]. *)
Fixpoint first_found (container : DomNode) (selectors : list string)
    : list DomNode :=
  match selectors with
  | [] => []
  | selector :: rest =>
      match node_find_elements container selector with
      | Ok found_slides =>
          if nonempty found_slides then found_slides
          else first_found container rest
      | Raise _ => first_found container rest
      end
  end.

(** The loop over the nested containers inside its [try]: an exception ends
    the loop and keeps what [slides] holds by then. *)
Fixpoint nested_slides (nested_containers : list DomNode)
    (slides : list DomNode) : list DomNode :=
  match nested_containers with
  | [] => slides
  | container :: rest =>
      match node_find_elements container nested_slide_selector with
      | Ok found =>
          nested_slides rest
            (slides
             ++ List.filter
                  (fun slide => _looks_like_slide (node_candidate slide))
                  found)
      | Raise _ => slides
      end
  end.

Definition _get_all_carousel_slides (slide_selectors : list string)
    (carousel_container : DomNode) : list DomNode :=
  let slides := first_found carousel_container slide_selectors in
  let slides :=
    if nonempty slides then slides
    else
      match node_find_elements carousel_container potential_selector with
      | Ok potential_slides =>
          List.filter (fun slide => _looks_like_slide (node_candidate slide))
            potential_slides
      | Raise _ => slides
      end in
  if nonempty slides then slides
  else
    match node_find_elements carousel_container nested_selector with
    | Ok nested_containers => nested_slides nested_containers slides
    | Raise _ => slides
    end.

End OptimizedCarousel.

(** A selector that finds nothing, or whose query raises. *)
Definition finds_nothing (container : DomNode) (selector : string) : Prop :=
  node_find_elements container selector = Ok []
  \/ exists e, node_find_elements container selector = Raise e.

(** An element whose questions are all answered. *)
Definition answers_all (element : SlideCandidate) : Prop :=
  (exists images, probe_images element = Ok images)
  /\ (exists text, probe_text element = Ok text)
  /\ (exists links, probe_links element = Ok links)
  /\ (exists buttons, probe_buttons element = Ok buttons)
  /\ (exists style, probe_style element = Ok style)
  /\ (exists class_names, probe_class element = Ok class_names)
  /\ (exists computed_style, probe_computed_style element = Ok computed_style).

(** Scenario: an element with one image whose computed style cannot be
    read, and a container in which only the generic query finds it. *)
Definition image_slide : SlideCandidate :=
  {| probe_images := Ok 1%nat;
     probe_text := Ok "";
     probe_links := Ok 0%nat;
     probe_buttons := Ok 0%nat;
     probe_style := Ok None;
     probe_class := Ok (Some "hero");
     probe_computed_style := Raise (Exn OtherException "javascript error") |}.

Definition plain_slide : SlideCandidate :=
  {| probe_images := Ok 0%nat;
     probe_text := Ok "Sale";
     probe_links := Ok 0%nat;
     probe_buttons := Ok 0%nat;
     probe_style := Ok (Some "WIDTH: 100%");
     probe_class := Ok None;
     probe_computed_style :=
       Ok {| style_display := "block"; style_position := "static";
             style_float := "none" |} |}.

Definition leaf (candidate : SlideCandidate) : DomNode :=
  Dom candidate (fun _ => Ok []).

Definition example_container : DomNode :=
  Dom plain_slide
    (fun selector =>
       if String.eqb selector ".slide"
       then Raise (Exn OtherException "invalid selector")
       else if String.eqb selector ".swiper-slide"
       then Ok [leaf plain_slide; leaf image_slide]
       else Ok []).

Definition generic_container : DomNode :=
  Dom plain_slide
    (fun selector =>
       if String.eqb selector potential_selector
       then Ok [leaf plain_slide]
       else Ok []).

(* ===================================================================== *)
(** ** [save_results_to_file]: the default file name *)
(* ===================================================================== *)

(** [s.split(sep)] for a one-character separator: the pieces between the
    separators. *)
Fixpoint split_on (sep : ascii) (s : string) : list string :=
  match s with
  | EmptyString => [EmptyString]
  | String c s' =>
      if Ascii.eqb c sep then EmptyString :: split_on sep s'
      else match split_on sep s' with
           | piece :: pieces => String c piece :: pieces
           | [] => [String c EmptyString]
           end
  end.

(** [name[-1]] is an [IndexError] on an empty list: [None]. *)
Definition default_filename (url : string) : option string :=
  match last (split_on "/"%char url) with
  | Some name => Some ("clickability_test_results_" +:+ name +:+ ".json")
  | None => None
  end.

(** The name the results are written to: [if not filename: ...]. *)
Definition results_filename (url : string) (filename : option string)
    : option string :=
  if PyStr.truthy (PyStr.or_empty filename) then filename
  else default_filename url.

(** [c in s] for one character. *)
Fixpoint has_char (c : ascii) (s : string) : bool :=
  match s with
  | EmptyString => false
  | String c' s' => Ascii.eqb c' c || has_char c s'
  end.


(* ===================================================================== *)
(** ** [get_status_code]

    [requests.head] is the outcome of the request to a URL; the function is
    given with the list of the URLs it requested. *)
(* ===================================================================== *)

Record Response : Type := {
  response_history : list nat;
  response_status_code : nat
}.

Definition get_status_code (urljoin : string -> string -> Res string)
    (head : string -> Res Response) (self_url : string)
    (href : option string) : option (list nat) * list string :=
  let href := PyStr.or_empty href in
  if negb (PyStr.truthy href) || PyStr.startswith "#" href
     || PyStr.startswith "javascript:" href
  then (None, [])
  else
    match (if PyStr.startswith "/" href then urljoin self_url href
           else Ok href) with
    | Raise _ => (None, [])
    | Ok target =>
        match head target with
        | Ok response =>
            (Some (response_history response
                   ++ [response_status_code response]), [target])
        | Raise _ => (None, [target])
        end
    end.

(** An href that [is_dead_click_by_href] reads unchanged: no space and no
    upper-case letter in it. *)
Definition href_normalized (element_info : ElementInfo) : Prop :=
  normalized_href element_info = PyStr.or_empty (info_href element_info).
(* ===================================================================== *)
(** * Properties *)
(* ===================================================================== *)

(** ** The dead-href test *)

Lemma lower_char_space (c : ascii) :
  PyStr.lower_char c = " "%char -> c = " "%char.
Proof.
  destruct c as [[] [] [] [] [] [] [] []]; vm_compute; congruence.
Qed.

(** After the spaces are removed and the case is folded, no space is left
    at the head of the string. *)
Lemma normalized_no_leading_space (s : string) (rest : string) :
  PyStr.lower (PyStr.replace " "%char "" s) <> String " "%char rest.
Proof.
  induction s as [|c s IH]; simpl; [discriminate|].
  destruct (Ascii.eqb_spec c " "%char) as [->|Hc]; simpl; [exact IH|].
  intros Heq. injection Heq as Hl _. apply lower_char_space in Hl. contradiction.
Qed.

(** The fourth marker of the list can never be hit: the test holds exactly
    for the three markers without a space. *)
Lemma is_dead_click_by_href_iff (element_info : ElementInfo) :
  is_dead_click_by_href element_info = true
  <-> In (normalized_href element_info)
         ["javascript:void(0)"; "javascript::void(0)"; "#"].
Proof.
  unfold is_dead_click_by_href, PyStr.in_list, dead_href_markers.
  rewrite existsb_exists. split.
  - intros (m & Hin & Heq). apply String.eqb_eq in Heq. subst m.
    simpl in Hin. destruct Hin as [Hm|[Hm|[Hm|[Hm|[]]]]]; simpl; auto.
    exfalso. unfold normalized_href in Hm. symmetry in Hm.
    exact (normalized_no_leading_space _ _ Hm).
  - intros Hin. exists (normalized_href element_info). split.
    + simpl in *. tauto.
    + apply String.eqb_refl.
Qed.

Example is_dead_click_by_href_examples :
  is_dead_click_by_href (link_info "javascript:void(0)") = true
  /\ is_dead_click_by_href (link_info "JavaScript:: Void(0)") = true
  /\ is_dead_click_by_href (link_info " # ") = true
  /\ is_dead_click_by_href (link_info "javascript:doSomething()") = false
  /\ is_dead_click_by_href (link_info "/about") = false.
Proof. repeat split; reflexivity. Qed.

(** C2: an href that is a single space is reported as not dead.  The space
    is removed before the comparison, so the marker [" "] of the list is
    compared with the empty string; the same happens for every href made of
    spaces only. *)
Theorem is_dead_click_by_href_single_space :
  is_dead_click_by_href (link_info " ") = false
  /\ normalized_href (link_info " ") = ""
  /\ In " " dead_href_markers.
Proof.
  split; [reflexivity|]. split; [reflexivity|]. simpl. tauto.
Qed.

(** ** Classification priority *)

Lemma click_test_body_observed env element_info element u0 t0 u1 t1 result :
  observed env element u0 t0 u1 t1 ->
  click_test_body env element_info (Some element) result
  = (Continue tt,
     determine_click_status element_info u0 u1 t0 t1 (overlay_present env)
       (set_url_after u1 (set_url_before u0 result))).
Proof.
  intros (Hu0 & Ht0 & Hscroll & Hclk & Hclick & Hu1 & Ht1).
  unfold click_test_body, call, update, attempt_click.
  unfold mbind, classify_bind.
  rewrite Hu0, Ht0, Hscroll, Hclk.
  destruct Hclick as [Hc | (e & Hc & Hcls & Hjs)].
  - rewrite Hc, Hu1, Ht1. reflexivity.
  - rewrite Hc, Hcls. rewrite bool_decide_eq_true_2 by reflexivity.
    rewrite Hjs, Hu1, Ht1. reflexivity.
Qed.

Lemma determine_click_status_priority env element_info u0 t0 u1 t1 result :
  strict_priority element_info u0 t0 u1 t1 (env_modals env) (env_dropdowns env)
    (res_click_status
       (determine_click_status element_info u0 u1 t0 t1 (overlay_present env)
          result)).
Proof.
  unfold strict_priority, determine_click_status.
  destruct (is_dead_click_by_href element_info).
  { repeat split; intros; (reflexivity || discriminate). }
  destruct (String.eqb_spec u1 u0) as [Hu|Hu]; simpl.
  2:{ repeat split; intros; (reflexivity || discriminate || contradiction). }
  destruct (String.eqb_spec t1 t0) as [Ht|Ht]; simpl.
  2:{ repeat split; intros; (reflexivity || discriminate || contradiction). }
  unfold overlay_present, mbind, res_bind.
  split; [discriminate|]. split; [contradiction|]. split; [contradiction|].
  split.
  - intros _ _ _ found_modals found_dropdowns -> ->. split.
    + intros [Hm|Hd].
      * destruct found_modals; [contradiction|reflexivity].
      * destruct found_modals; [|reflexivity].
        destruct found_dropdowns; [contradiction|reflexivity].
    + intros -> ->. reflexivity.
  - intros _ _ _ [[e ->]|[e ->]]; [reflexivity|].
    destruct (env_modals env); reflexivity.
Qed.

(** C1, as stated, fails: on a session whose modal query finds an open
    dialog and whose dropdown query raises, a click that changes neither
    URL nor title on a link with a live target is classified [dead_click]
    by both classifiers, although a modal is present. *)
Lemma modal_present_reported_dead :
  is_dead_click_by_href (descriptor about_link) = false
  /\ env_url_after dropdown_failure_env = env_url_before dropdown_failure_env
  /\ env_title_after dropdown_failure_env = env_title_before dropdown_failure_env
  /\ env_modals dropdown_failure_env = Ok [dialog]
  /\ res_click_status
       (test_element_click dropdown_failure_env (descriptor about_link))
     = "dead_click"
  /\ res_click_status
       (_test_element_click_with_driver dropdown_failure_env
          (descriptor about_link))
     = "dead_click".
Proof. repeat split; reflexivity. Qed.

(** C1 (amended): once a classification has reached the observation step,
    the status it reports follows the strict priority order -- inert href,
    then URL change, then title change, then the overlay queries -- in the
    sequential classifier and in the per-session classifier alike.  The
    overlay step reports [active_ui_change] when the modal query and the
    dropdown query both answer and one of them finds an element; it reports
    [dead_click] when both find nothing, and also when either query raises,
    whatever the other has found. *)
Theorem click_status_strict_priority
    (env : ClickEnv) (element_info : ElementInfo) (element : WebElement)
    (initial_url initial_title current_url current_title : string) :
  observed env element initial_url initial_title current_url current_title ->
  (locate_for_click env element_info = Some element ->
   strict_priority element_info initial_url initial_title current_url
     current_title (env_modals env) (env_dropdowns env)
     (res_click_status (test_element_click env element_info)))
  /\ (_find_element_by_info (env_find_elements env) element_info = Some element ->
      strict_priority element_info initial_url initial_title current_url
        current_title (env_modals env) (env_dropdowns env)
        (res_click_status (_test_element_click_with_driver env element_info))).
Proof.
  intros Hobs. split; intros Hloc.
  - unfold test_element_click, try_except. rewrite Hloc.
    rewrite (click_test_body_observed _ _ _ _ _ _ _ _ Hobs).
    apply determine_click_status_priority.
  - unfold _test_element_click_with_driver, try_except. rewrite Hloc.
    rewrite (click_test_body_observed _ _ _ _ _ _ _ _ Hobs).
    apply determine_click_status_priority.
Qed.

Lemma click_status_strict_priority_witness :
  res_click_status
    (test_element_click
       (click_env [hash_button] "https://example.test/menu" "Menu" [] [])
       (descriptor hash_button)) = "dead_click"
  /\ res_click_status
       (_test_element_click_with_driver
          (click_env [about_link] "https://example.test/about" "Home" [] [])
          (descriptor about_link)) = "active_navigation"
  /\ res_click_status
       (test_element_click
          (click_env [about_link] "https://example.test/" "Home" [] [dialog])
          (descriptor about_link)) = "active_ui_change"
  /\ res_click_status
       (_test_element_click_with_driver dropdown_failure_env
          (descriptor about_link)) = "dead_click".
Proof.
  split; [|split; [|split]].
  - refine (proj1 (proj1 (click_status_strict_priority
             (click_env [hash_button] "https://example.test/menu" "Menu" [] [])
             (descriptor hash_button) hash_button
             "https://example.test/" "Home" "https://example.test/menu" "Menu"
             _) _) _).
    + repeat split; try reflexivity. left; reflexivity.
    + reflexivity.
    + reflexivity.
  - refine (proj1 (proj2 (proj2 (click_status_strict_priority
             (click_env [about_link] "https://example.test/about" "Home" [] [])
             (descriptor about_link) about_link
             "https://example.test/" "Home" "https://example.test/about" "Home"
             _) _)) _ _).
    + repeat split; try reflexivity. left; reflexivity.
    + reflexivity.
    + reflexivity.
    + discriminate.
  - refine (proj1 (proj1 (proj2 (proj2 (proj2 (proj1 (click_status_strict_priority
             (click_env [about_link] "https://example.test/" "Home" [] [dialog])
             (descriptor about_link) about_link
             "https://example.test/" "Home" "https://example.test/" "Home"
             _) _)))) _ _ _ [] [dialog] _ _) _).
    + repeat split; try reflexivity. left; reflexivity.
    + reflexivity.
    + reflexivity.
    + reflexivity.
    + reflexivity.
    + reflexivity.
    + reflexivity.
    + right. discriminate.
  - refine (proj2 (proj2 (proj2 (proj2 (proj2 (click_status_strict_priority
             dropdown_failure_env
             (descriptor about_link) about_link
             "https://example.test/" "Home" "https://example.test/" "Home"
             _) _)))) _ _ _ _).
    + repeat split; try reflexivity. left; reflexivity.
    + reflexivity.
    + reflexivity.
    + reflexivity.
    + reflexivity.
    + right. eexists. reflexivity.
Defined.
(** ** The classifications a classifier can report *)

Lemma determine_click_status_in element_info u0 u1 t0 t1 overlay result :
  In (res_click_status (determine_click_status element_info u0 u1 t0 t1 overlay result))
     ["active_navigation"; "active_title_change"; "active_ui_change"; "dead_click"].
Proof.
  unfold determine_click_status.
  repeat case_match; simpl; tauto.
Qed.

Lemma click_test_body_status env element_info located result :
  match click_test_body env element_info located result with
  | (Continue _, result') =>
      In (res_click_status result')
         ["active_navigation"; "active_title_change"; "active_ui_change"; "dead_click"]
  | (ReturnResult, result') =>
      In (res_click_status result')
         ["not_clickable"; "element_not_found"; "click_intercepted"]
  | (Raised _, _) => True
  end.
Proof.
  unfold click_test_body, attempt_click, call, update, return_result.
  unfold mbind, classify_bind.
  destruct (env_url_before env); [|exact I].
  destruct (env_title_before env); [|exact I].
  destruct located as [element|]; [|simpl; tauto].
  destruct (env_scroll_into_view env element); [|exact I].
  destruct (still_clickable env element) as [[|]|]; [| simpl; tauto | exact I].
  destruct (env_click env element) as [|e].
  - destruct (env_url_after env); [|exact I].
    destruct (env_title_after env); [|exact I].
    apply determine_click_status_in.
  - destruct (bool_decide _); [|exact I].
    destruct (env_script_click env element); [|simpl; tauto].
    destruct (env_url_after env); [|exact I].
    destruct (env_title_after env); [|exact I].
    apply determine_click_status_in.
Qed.

Lemma test_element_click_classified env element_info :
  In (res_click_status (test_element_click env element_info)) classifications.
Proof.
  unfold test_element_click, try_except.
  pose proof (click_test_body_status env element_info
                (locate_for_click env element_info) (initial_result element_info)) as Hb.
  destruct (click_test_body _ _ _ _) as [[?| |e] result'].
  - unfold classifications. simpl in *. tauto.
  - unfold classifications. simpl in *. tauto.
  - unfold sequential_handler. destruct (exn_cls e); simpl; tauto.
Qed.

Lemma with_driver_classified env element_info :
  In (res_click_status (_test_element_click_with_driver env element_info))
     classifications.
Proof.
  unfold _test_element_click_with_driver, try_except.
  pose proof (click_test_body_status env element_info
                (_find_element_by_info (env_find_elements env) element_info)
                (initial_result element_info)) as Hb.
  destruct (click_test_body _ _ _ _) as [[?| |e] result'].
  - unfold classifications. simpl in *. tauto.
  - unfold classifications. simpl in *. tauto.
  - simpl; tauto.
Qed.

(** ** Exceptions during a classification *)

(** What the sequential classifier does with an exception that leaves the
    [try] block: the class decides the status; for the classes without a
    clause of their own the message is kept. *)
Lemma test_element_click_captures env element_info e result' :
  click_test_body env element_info (locate_for_click env element_info)
    (initial_result element_info) = (Raised e, result') ->
  let result := test_element_click env element_info in
  (exn_cls e = TimeoutException -> res_click_status result = "timeout")
  /\ (exn_cls e = StaleElementReferenceException ->
      res_click_status result = "stale_element")
  /\ (exn_cls e <> TimeoutException ->
      exn_cls e <> StaleElementReferenceException ->
      res_click_status result = "error"
      /\ res_error_message result = exn_str e).
Proof.
  intros Hbody. unfold test_element_click, try_except. rewrite Hbody.
  unfold sequential_handler.
  destruct (exn_cls e); simpl; repeat split; intros; congruence.
Qed.

(** The per-session classifier has a single clause: whatever the class, the
    status is [error] and the message is kept. *)
Lemma with_driver_captures env element_info e result' :
  click_test_body env element_info
    (_find_element_by_info (env_find_elements env) element_info)
    (initial_result element_info) = (Raised e, result') ->
  res_click_status (_test_element_click_with_driver env element_info) = "error"
  /\ res_error_message (_test_element_click_with_driver env element_info)
     = exn_str e.
Proof.
  intros Hbody. unfold _test_element_click_with_driver, try_except.
  rewrite Hbody. split; reflexivity.
Qed.

(** C7: on a session that answers with a timeout, and on one that answers
    with a staleness error, the sequential classifier reports [timeout] and
    [stale_element], while the per-session classifier of the concurrent path
    reports [error] for both. *)
Theorem with_driver_reports_error_on_timeout :
  res_click_status
    (test_element_click (raising_env timeout_exn) (descriptor about_link))
  = "timeout"
  /\ res_click_status
       (_test_element_click_with_driver (raising_env timeout_exn)
          (descriptor about_link))
     = "error"
  /\ res_click_status
       (test_element_click (raising_env stale_exn) (descriptor about_link))
     = "stale_element"
  /\ res_click_status
       (_test_element_click_with_driver (raising_env stale_exn)
          (descriptor about_link))
     = "error".
Proof. repeat split; reflexivity. Qed.

(** ** Results of a run *)

Lemma run_results_count_result result t :
  run_results (count_result result t) = run_results t.
Proof. unfold count_result. repeat case_match; reflexivity. Qed.

Lemma run_results_extend new t :
  run_results (extend_results new t) = run_results t ++ new.
Proof. reflexivity. Qed.

Lemma run_results_count_fold results t :
  run_results (fold_left (fun t result => count_result result t) results t)
  = run_results t.
Proof.
  revert t. induction results as [|r results IH]; intros t; simpl; [reflexivity|].
  rewrite IH. apply run_results_count_result.
Qed.

Section ResultInvariant.
Variable P : ClickResult -> Prop.

Lemma test_each_results url steps i elements t t' :
  (forall env element_info, P (test_element_click env element_info)) ->
  Forall P (run_results t) ->
  test_each url steps i elements t = Ok t' ->
  Forall P (run_results t').
Proof.
  intros HP. revert i t. induction elements as [|element_info rest IH];
    intros i t Ht Hrun; simpl in Hrun.
  - congruence.
  - unfold mbind, res_bind in Hrun.
    destruct (seq_get (steps i)); [|discriminate].
    destruct (seq_current_url (steps i)) as [current|]; [|discriminate].
    destruct (if negb (String.eqb current url) then seq_get_again (steps i)
              else Ok tt); [|discriminate].
    eapply IH; [|exact Hrun].
    rewrite run_results_count_result, run_results_extend.
    apply Forall_app. split; [exact Ht|]. constructor; [apply HP|constructor].
Qed.

Lemma test_in_batch_results url step element_info :
  (forall env element_info, P (_test_element_click_with_driver env element_info)) ->
  (forall element_info url e, P (batch_error_result element_info url e)) ->
  P (test_in_batch url step element_info).
Proof.
  intros HP HE. unfold test_in_batch.
  destruct (_ ← step_current_url step; _); [apply HP|apply HE].
Qed.

Lemma test_element_batch_results batch driver url :
  (forall env element_info, P (_test_element_click_with_driver env element_info)) ->
  (forall element_info url e, P (batch_error_result element_info url e)) ->
  Forall P (_test_element_batch batch driver url).
Proof.
  intros HP HE. unfold _test_element_batch.
  revert driver. induction batch as [|element_info batch IH]; intros driver; simpl.
  - constructor.
  - constructor; [apply test_in_batch_results; assumption|].
    apply (IH (fun i => driver (S i))).
Qed.

Lemma submit_batches_results url driver_pool i batches futures :
  (forall env element_info, P (_test_element_click_with_driver env element_info)) ->
  (forall element_info url e, P (batch_error_result element_info url e)) ->
  submit_batches url driver_pool i batches = Ok futures ->
  Forall (Forall P) futures.
Proof.
  intros HP HE. revert i futures.
  induction batches as [|batch rest IH]; intros i futures Hs; simpl in Hs.
  - injection Hs as <-. constructor.
  - destruct (driver_pool !! i) as [driver|]; [|discriminate].
    unfold mbind, res_bind in Hs.
    destruct (submit_batches url driver_pool (S i) rest) as [fs|] eqn:Hrest;
      [|discriminate].
    injection Hs as <-. constructor.
    + apply test_element_batch_results; assumption.
    + eapply IH. exact Hrest.
Qed.

Lemma collect_results_results futures completion t :
  Forall (Forall P) futures ->
  Forall P (run_results t) ->
  Forall P (run_results (collect_results futures completion t)).
Proof.
  intros Hf. unfold collect_results. revert t.
  induction completion as [|i completion IH]; intros t Ht; simpl; [exact Ht|].
  apply IH. destruct (futures !! i) as [batch_results|] eqn:Hi; [|exact Ht].
  rewrite run_results_extend. apply Forall_app. split; [exact Ht|].
  rewrite Forall_forall in Hf. apply Hf.
  eapply list_elem_of_lookup_2. exact Hi.
Qed.

End ResultInvariant.

(** C9, as stated, fails on the concurrent path: a pool session that cannot
    report its URL makes [_test_element_batch] record [batch_error], which
    is none of the ten classifications. *)
Lemma batch_error_outside_classifications :
  exists t result,
    run_comprehensive_test_concurrent "https://example.test/"
      (Ok [descriptor about_link]) [broken_session] [0] = Completed t
    /\ In result (run_results t)
    /\ res_click_status result = "batch_error"
    /\ ~ In (res_click_status result) classifications.
Proof.
  eexists. eexists. split; [vm_compute; reflexivity|].
  split; [left; reflexivity|]. split; [reflexivity|].
  unfold classifications. simpl. intuition discriminate.
Qed.

(** C9 (amended): every result of a completed sequential run carries one of
    the ten classifications; every result of a completed concurrent run
    carries one of the ten or [batch_error]. *)
Theorem run_results_classified :
  (forall url discovered steps t,
      run_comprehensive_test url discovered steps = Completed t ->
      Forall (fun result => In (res_click_status result) classifications)
        (run_results t))
  /\ (forall url discovered driver_pool completion t,
         run_comprehensive_test_concurrent url discovered driver_pool completion
         = Completed t ->
         Forall (fun result =>
                   In (res_click_status result) ("batch_error" :: classifications))
           (run_results t)).
Proof.
  split.
  - intros url discovered steps t Hrun. unfold run_comprehensive_test in Hrun.
    unfold mbind, res_bind in Hrun.
    destruct discovered as [clickable_elements|]; [|discriminate].
    destruct (test_each _ _ _ _ _) as [t'|] eqn:Hloop; [|discriminate].
    injection Hrun as <-.
    eapply test_each_results; [|  |exact Hloop].
    + apply test_element_click_classified.
    + constructor.
  - intros url discovered driver_pool completion t Hrun.
    unfold run_comprehensive_test_concurrent in Hrun.
    unfold mbind, res_bind in Hrun.
    destruct discovered as [clickable_elements|]; [|discriminate].
    destruct (nonempty driver_pool); [|discriminate].
    destruct (_divide_elements_into_batches _ _) as [batches|]; [|discriminate].
    destruct (submit_batches _ _ _ _) as [futures|] eqn:Hsub; [|discriminate].
    injection Hrun as <-.
    unfold count_results. rewrite run_results_count_fold.
    apply collect_results_results; [|constructor].
    eapply submit_batches_results; [| |exact Hsub].
    + intros env element_info. right. apply with_driver_classified.
    + intros element_info url' e. left. reflexivity.
Qed.

Lemma run_results_classified_witness :
  (exists t,
      run_comprehensive_test "https://example.test/"
        (Ok [descriptor about_link]) healthy_steps = Completed t
      /\ Forall (fun result => In (res_click_status result) classifications)
           (run_results t))
  /\ (exists t,
         run_comprehensive_test_concurrent "https://example.test/"
           (Ok [descriptor about_link; descriptor about_link])
           [healthy_session; broken_session] [1; 0] = Completed t
         /\ Forall (fun result =>
                      In (res_click_status result) ("batch_error" :: classifications))
              (run_results t)).
Proof.
  split.
  - eexists. split; [vm_compute; reflexivity|].
    apply (proj1 run_results_classified "https://example.test/"
             (Ok [descriptor about_link]) healthy_steps).
    vm_compute. reflexivity.
  - eexists. split; [vm_compute; reflexivity|].
    apply (proj2 run_results_classified "https://example.test/"
             (Ok [descriptor about_link; descriptor about_link])
             [healthy_session; broken_session] [1; 0]).
    vm_compute. reflexivity.
Defined.

(** ** Outcome accounting *)

(** Every result falls in exactly one bucket. *)
Lemma buckets_exclusive result :
  (is_active result = true /\ is_dead result = false /\ is_error result = false)
  \/ (is_active result = false /\ is_dead result = true /\ is_error result = false)
  \/ (is_active result = false /\ is_dead result = false /\ is_error result = true).
Proof.
  unfold is_dead, is_error. destruct (is_active result); simpl; [tauto|].
  destruct (String.eqb _ _); simpl; tauto.
Qed.

(** [count_result] increments the counter of the bucket of the result and
    nothing else. *)
Lemma count_result_counters result t :
  run_active_clicks (count_result result t)
  = run_active_clicks t + bump (is_active result)
  /\ run_dead_clicks (count_result result t)
     = run_dead_clicks t + bump (is_dead result)
  /\ run_errors (count_result result t)
     = run_errors t + bump (is_error result)
  /\ run_elements_tested (count_result result t) = run_elements_tested t.
Proof.
  unfold count_result, is_dead, is_error, is_active, bump.
  destruct (PyStr.startswith _ _); simpl; [lia|].
  destruct (String.eqb _ _); simpl; lia.
Qed.

Lemma filter_length_app {A} (f : A -> bool) (l1 l2 : list A) :
  length (List.filter f (l1 ++ l2))
  = length (List.filter f l1) + length (List.filter f l2).
Proof. rewrite List.filter_app, length_app. reflexivity. Qed.

Lemma filter_length_one {A} (f : A -> bool) (x : A) :
  length (List.filter f [x]) = bump (f x).
Proof. simpl. destruct (f x); reflexivity. Qed.

Lemma buckets_partition (results : list ClickResult) :
  length (List.filter is_active results)
  + length (List.filter is_dead results)
  + length (List.filter is_error results) = length results.
Proof.
  induction results as [|r results IH]; simpl; [reflexivity|].
  destruct (buckets_exclusive r) as [(-> & -> & ->)|[(-> & -> & ->)|(-> & -> & ->)]];
    simpl; lia.
Qed.

Lemma accounted_step result t :
  accounted t -> accounted (count_result result (extend_results [result] t)).
Proof.
  unfold accounted. intros (Ha & Hd & He & Hsum & Hlen).
  destruct (count_result_counters result (extend_results [result] t))
    as (Ha' & Hd' & He' & Ht').
  rewrite Ha', Hd', He', Ht', run_results_count_result, run_results_extend.
  rewrite !filter_length_app, !filter_length_one, length_app. simpl.
  destruct (buckets_exclusive result)
    as [(-> & -> & ->)|[(-> & -> & ->)|(-> & -> & ->)]]; simpl; lia.
Qed.

Lemma test_each_accounted url steps i elements t t' :
  accounted t -> test_each url steps i elements t = Ok t' -> accounted t'.
Proof.
  revert i t. induction elements as [|element_info rest IH];
    intros i t Ht Hrun; simpl in Hrun.
  - congruence.
  - unfold mbind, res_bind in Hrun.
    destruct (seq_get (steps i)); [|discriminate].
    destruct (seq_current_url (steps i)) as [current|]; [|discriminate].
    destruct (if negb (String.eqb current url) then seq_get_again (steps i)
              else Ok tt); [|discriminate].
    eapply IH; [|exact Hrun]. apply accounted_step. exact Ht.
Qed.

Lemma collect_results_tested futures completion t :
  run_elements_tested t = length (run_results t) ->
  let t' := collect_results futures completion t in
  run_elements_tested t' = length (run_results t')
  /\ run_active_clicks t' = run_active_clicks t
  /\ run_dead_clicks t' = run_dead_clicks t
  /\ run_errors t' = run_errors t.
Proof.
  unfold collect_results. revert t.
  induction completion as [|i completion IH]; intros t Ht; simpl; [tauto|].
  destruct (futures !! i) as [batch_results|]; [|apply IH; exact Ht].
  destruct (IH (extend_results batch_results t)) as (H1 & H2 & H3 & H4).
  - simpl. rewrite length_app. lia.
  - simpl in *. tauto.
Qed.

Lemma count_fold_counters results t :
  let t' := fold_left (fun t result => count_result result t) results t in
  run_active_clicks t' = run_active_clicks t + length (List.filter is_active results)
  /\ run_dead_clicks t' = run_dead_clicks t + length (List.filter is_dead results)
  /\ run_errors t' = run_errors t + length (List.filter is_error results)
  /\ run_elements_tested t' = run_elements_tested t.
Proof.
  revert t. induction results as [|r results IH]; intros t; simpl; [lia|].
  destruct (IH (count_result r t)) as (Ha & Hd & He & Ht).
  destruct (count_result_counters r t) as (Ha' & Hd' & He' & Ht').
  rewrite Ha, Hd, He, Ht, Ha', Hd', He', Ht'.
  destruct (buckets_exclusive r)
    as [(-> & -> & ->)|[(-> & -> & ->)|(-> & -> & ->)]]; simpl; lia.
Qed.

(** C10: after a completed run, sequential or concurrent, the three counters
    count the results of their bucket -- [active_clicks] those whose status
    starts with ['active'], [dead_clicks] those equal to ['dead_click'],
    [errors] the rest --, every result is in exactly one bucket, and so the
    counters add up to [elements_tested], the length of the result list. *)
Theorem outcome_accounting :
  (forall url discovered steps t,
      run_comprehensive_test url discovered steps = Completed t -> accounted t)
  /\ (forall url discovered driver_pool completion t,
         run_comprehensive_test_concurrent url discovered driver_pool completion
         = Completed t -> accounted t)
  /\ (forall result,
         bump (is_active result) + bump (is_dead result) + bump (is_error result) = 1).
Proof.
  split; [|split].
  - intros url discovered steps t Hrun. unfold run_comprehensive_test in Hrun.
    unfold mbind, res_bind in Hrun.
    destruct discovered as [clickable_elements|]; [|discriminate].
    destruct (test_each _ _ _ _ _) as [t'|] eqn:Hloop; [|discriminate].
    injection Hrun as <-.
    eapply test_each_accounted; [|exact Hloop].
    unfold accounted. simpl. lia.
  - intros url discovered driver_pool completion t Hrun.
    unfold run_comprehensive_test_concurrent in Hrun.
    unfold mbind, res_bind in Hrun.
    destruct discovered as [clickable_elements|]; [|discriminate].
    destruct (nonempty driver_pool); [|discriminate].
    destruct (_divide_elements_into_batches _ _) as [batches|]; [|discriminate].
    destruct (submit_batches _ _ _ _) as [futures|]; [|discriminate].
    injection Hrun as <-.
    set (t0 := initial_test_results url (length clickable_elements)).
    destruct (collect_results_tested futures completion t0 eq_refl)
      as (Hlen & Ha & Hd & He).
    set (t1 := collect_results futures completion t0) in *.
    unfold count_results.
    destruct (count_fold_counters (run_results t1) t1) as (Ha' & Hd' & He' & Ht').
    unfold accounted. rewrite run_results_count_fold, Ha', Hd', He', Ht'.
    rewrite Ha, Hd, He. simpl.
    pose proof (buckets_partition (run_results t1)). lia.
  - intros result.
    destruct (buckets_exclusive result)
      as [(-> & -> & ->)|[(-> & -> & ->)|(-> & -> & ->)]]; reflexivity.
Qed.

Lemma outcome_accounting_witness :
  (exists t,
      run_comprehensive_test "https://example.test/"
        (Ok [descriptor about_link; descriptor hash_button]) healthy_steps
      = Completed t /\ accounted t)
  /\ (exists t,
         run_comprehensive_test_concurrent "https://example.test/"
           (Ok [descriptor about_link; descriptor hash_button;
                descriptor about_link])
           [healthy_session; broken_session] [1; 0] = Completed t
         /\ accounted t).
Proof.
  split.
  - eexists. split; [vm_compute; reflexivity|].
    apply (proj1 outcome_accounting "https://example.test/"
             (Ok [descriptor about_link; descriptor hash_button]) healthy_steps).
    vm_compute. reflexivity.
  - eexists. split; [vm_compute; reflexivity|].
    apply (proj1 (proj2 outcome_accounting) "https://example.test/"
             (Ok [descriptor about_link; descriptor hash_button;
                  descriptor about_link])
             [healthy_session; broken_session] [1; 0]).
    vm_compute. reflexivity.
Defined.

(** ** Batches *)

Section Batches.
Context {A : Type}.
Implicit Types (elements : list A) (q r i todo start : nat).

Lemma batch_len_unfold q r i :
  (q + (if (i <? r)%nat then 1 else 0) = batch_len q r i)%nat.
Proof. reflexivity. Qed.

Lemma slice_from elements start len :
  slice elements start (start + len) = take len (drop start elements).
Proof. unfold slice. f_equal. lia. Qed.

Lemma nonempty_singleton (batch : list A) :
  concat (if nonempty batch then [batch] else []) = batch.
Proof. destruct batch; simpl; [reflexivity|]. rewrite app_nil_r. reflexivity. Qed.

(** The batches, laid end to end, are a run of the list. *)
Lemma concat_batches_from elements q r todo : forall i start,
  concat (batches_from elements q r i todo start)
  = take (span q r i todo) (drop start elements).
Proof.
  induction todo as [|todo IH]; intros i start; simpl; [reflexivity|].
  rewrite batch_len_unfold, slice_from, concat_app, nonempty_singleton, IH.
  rewrite <- (drop_drop elements (batch_len q r i) start).
  apply take_take_drop.
Qed.

Lemma span_closed q r todo : forall i,
  span q r i todo = todo * q + (Nat.min (i + todo) r - Nat.min i r).
Proof.
  induction todo as [|todo IH]; intros i; simpl; [lia|].
  rewrite IH. unfold batch_len, bump.
  destruct (Nat.ltb_spec i r); lia.
Qed.

(** Once a batch is empty, so are all later ones: nothing more is kept. *)
Lemma batches_from_exhausted elements q r todo : forall i start,
  batch_len q r i = 0 -> batches_from elements q r i todo start = [].
Proof.
  induction todo as [|todo IH]; intros i start Hlen; simpl; [reflexivity|].
  rewrite batch_len_unfold, slice_from, Hlen, take_0. simpl.
  apply IH. unfold batch_len, bump in *.
  destruct (Nat.ltb_spec i r); [lia|].
  destruct (Nat.ltb_spec (S i) r); lia.
Qed.

(** The [k]-th batch kept is batch [i + k] of the division, at full size. *)
Lemma batches_from_lookup elements q r todo : forall i start k batch,
  start + span q r i todo <= length elements ->
  batches_from elements q r i todo start !! k = Some batch ->
  length batch = batch_len q r (i + k).
Proof.
  induction todo as [|todo IH]; intros i start k batch Hfit Hk; simpl in *.
  - rewrite lookup_nil in Hk. discriminate.
  - rewrite batch_len_unfold, slice_from in Hk.
    destruct (Nat.eq_dec (batch_len q r i) 0) as [Hz|Hnz].
    + rewrite Hz, take_0 in Hk. simpl in Hk.
      rewrite batches_from_exhausted in Hk.
      * rewrite lookup_nil in Hk. discriminate.
      * unfold batch_len, bump in *.
        destruct (Nat.ltb_spec i r); [lia|].
        destruct (Nat.ltb_spec (S i) r); lia.
    + assert (Hlen : length (take (batch_len q r i) (drop start elements))
                     = batch_len q r i).
      { rewrite length_take, length_drop. lia. }
      destruct (take (batch_len q r i) (drop start elements)) as [|x b] eqn:Hb.
      { simpl in Hlen. lia. }
      simpl in Hk. destruct k as [|k]; simpl in Hk.
      * injection Hk as <-. rewrite Nat.add_0_r. exact Hlen.
      * replace (i + S k) with (S i + k) by lia.
        eapply IH; [|exact Hk]. lia.
Qed.

End Batches.

Lemma ceil_div_spec n k :
  0 < k -> ceil_div n k = n / k + bump (negb (n mod k =? 0))%nat.
Proof.
  intros Hk. unfold ceil_div, bump.
  pose proof (Nat.div_mod n k ltac:(lia)) as Hdm.
  pose proof (Nat.mod_upper_bound n k ltac:(lia)) as Hr.
  destruct (Nat.eqb_spec (n mod k) 0) as [Hz|Hnz]; simpl.
  - symmetry. apply (Nat.div_unique _ _ _ (k - 1)); lia.
  - symmetry. apply (Nat.div_unique _ _ _ (n mod k - 1)); lia.
Qed.

Lemma list_sum_lengths {A} (batches : list (list A)) :
  list_sum (map length batches) = length (concat batches).
Proof.
  induction batches as [|b batches IH]; simpl; [reflexivity|].
  rewrite length_app, IH. reflexivity.
Qed.

Lemma NoDup_concat_disjoint {A} (batches : list (list A)) :
  NoDup (concat batches) ->
  forall i j bi bj x,
    i <> j -> batches !! i = Some bi -> batches !! j = Some bj ->
    x ∈ bi -> x ∉ bj.
Proof.
  induction batches as [|b batches IH]; intros Hnd i j bi bj x Hij Hi Hj Hx.
  - rewrite lookup_nil in Hi. discriminate.
  - simpl in Hnd. apply NoDup_app in Hnd as (Hb & Hdisj & Hrest).
    destruct i as [|i], j as [|j]; simpl in Hi, Hj.
    + lia.
    + injection Hi as <-. intros Hxj. apply (Hdisj x Hx).
      apply list_elem_of_In, in_concat. exists bj. split.
      * apply list_elem_of_In. eapply list_elem_of_lookup_2. exact Hj.
      * apply list_elem_of_In. exact Hxj.
    + injection Hj as <-. intros Hxj. apply (Hdisj x Hxj).
      apply list_elem_of_In, in_concat. exists bi. split.
      * apply list_elem_of_In. eapply list_elem_of_lookup_2. exact Hi.
      * apply list_elem_of_In. exact Hx.
    + eapply (IH Hrest i j); eauto.
Qed.

(** C3: dividing [N] elements into [K > 0] batches succeeds; every batch
    produced has [N / K] or the ceiling of [N / K] elements; batch [i] has
    [N / K] elements plus one if [i < N mod K]; the sizes add up to [N]; the
    batches laid end to end are the input list, so every position of the input
    lies in exactly one batch, and batches of a duplicate-free input are
    pairwise disjoint. *)
Theorem divide_elements_into_batches_balanced {A : Type}
    (elements : list A) (num_batches : nat) :
  0 < num_batches ->
  exists batches,
    _divide_elements_into_batches elements num_batches = Ok batches
    /\ (forall batch, In batch batches ->
          length batch = length elements / num_batches
          \/ length batch = ceil_div (length elements) num_batches)
    /\ (forall i batch, batches !! i = Some batch ->
          length batch
          = length elements / num_batches
            + (if (i <? length elements mod num_batches)%nat then 1 else 0))
    /\ list_sum (map length batches) = length elements
    /\ concat batches = elements
    /\ (NoDup elements ->
        forall i j bi bj x,
          i <> j -> batches !! i = Some bi -> batches !! j = Some bj ->
          In x bi -> ~ In x bj).
Proof.
  intros HK. unfold _divide_elements_into_batches.
  destruct num_batches as [|n]; [lia|].
  set (K := S n) in *. set (N := length elements).
  set (q := N / K). set (r := N mod K).
  pose proof (Nat.div_mod N K ltac:(lia)) as Hdm. fold q r in Hdm.
  pose proof (Nat.mod_upper_bound N K ltac:(lia)) as Hr. fold r in Hr.
  assert (Hspan : span q r 0 K = N).
  { rewrite span_closed. lia. }
  assert (Hcat : concat (batches_from elements q r 0 K 0) = elements).
  { rewrite concat_batches_from, Hspan, drop_0. apply take_ge. reflexivity. }
  assert (Hlook : forall i batch,
             batches_from elements q r 0 K 0 !! i = Some batch ->
             length batch = q + (if (i <? r)%nat then 1 else 0)).
  { intros i batch Hi.
    apply (batches_from_lookup elements q r K 0 0 i batch) in Hi; [exact Hi|].
    rewrite Hspan. simpl. reflexivity. }
  eexists. split; [reflexivity|]. split; [|split; [|split; [|split]]].
  - intros batch Hin. apply list_elem_of_In, list_elem_of_lookup_1 in Hin as [i Hi].
    rewrite (Hlook i batch Hi).
    rewrite (ceil_div_spec N K HK). fold q r. unfold bump.
    destruct (Nat.ltb_spec i r); [right|left; lia].
    destruct (Nat.eqb_spec r 0); simpl; lia.
  - exact Hlook.
  - unfold N. rewrite <- Hcat at 2. apply list_sum_lengths.
  - exact Hcat.
  - intros Hnd i j bi bj x Hij Hi Hj Hx Hxj.
    rewrite <- Hcat in Hnd.
    eapply (NoDup_concat_disjoint _ Hnd i j bi bj x Hij Hi Hj);
      apply list_elem_of_In; assumption.
Qed.

Lemma divide_elements_into_batches_balanced_witness :
  _divide_elements_into_batches [1; 2; 3; 4; 5; 6; 7] 3
  = Ok [[1; 2; 3]; [4; 5]; [6; 7]]
  /\ exists batches,
       _divide_elements_into_batches [1; 2] 3 = Ok batches
       /\ concat batches = [1; 2].
Proof.
  split; [reflexivity|].
  destruct (divide_elements_into_batches_balanced [1; 2] 3 ltac:(lia))
    as (batches & Hb & _ & _ & _ & Hcat & _).
  exists batches. split; assumption.
Defined.

(** ** The locator *)

Lemma candidate_matches_live element_info element :
  el_stale element = false ->
  candidate_matches true element_info element = Ok (accepts element_info element).
Proof. intros Hs. unfold candidate_matches, command, accepts. rewrite Hs. reflexivity. Qed.

Lemma first_matching_passed_over element_info before rest :
  Forall (passed_over element_info) before ->
  first_matching true element_info (before ++ rest)
  = first_matching true element_info rest.
Proof.
  induction 1 as [|c before [Hs Ha] _ IH]; simpl; [reflexivity|].
  rewrite (candidate_matches_live _ _ Hs), Ha. simpl. exact IH.
Qed.

(** C8, as stated, fails: when the first candidate with the tag and text of
    the descriptor is not displayed, the locator passes over it and returns
    a later candidate. *)
Lemma locator_passes_over_hidden_match :
  let candidates := [hidden about_link; about_link_twin] in
  first_tag_text_match (descriptor about_link) candidates
  = Some (hidden about_link)
  /\ _find_element_by_info (fun _ _ => Ok candidates) (descriptor about_link)
     = Some about_link_twin
  /\ about_link_twin <> hidden about_link.
Proof.
  split; [reflexivity|]. split; [reflexivity|]. discriminate.
Qed.

(** C8 (amended): the locator tries the identifier, then the structural
    path, then the class-derived selector (class names joined with [.]),
    skipping a strategy whose key is missing; within a candidate set it
    returns the first candidate that is displayed and has the tag name and
    truncated text of the descriptor; a strategy that raises -- in the query
    or on a stale candidate -- or that has no such candidate is abandoned
    for the next; when none is left the result is [None], which both
    classifiers report as [element_not_found]. *)
Theorem locator_first_displayed_match
    (find_elements : By -> string -> Res (list WebElement))
    (element_info : ElementInfo) :
  let try_ := try_strategies true find_elements element_info in
  _find_element_by_info find_elements element_info
  = try_
      [ if PyStr.truthy (info_id element_info)
        then Some (By_ID, info_id element_info) else None;
        if negb (String.eqb (info_xpath element_info) "xpath_unavailable")
        then Some (By_XPATH, info_xpath element_info) else None;
        if PyStr.truthy (info_class_names element_info)
        then Some (By_CSS_SELECTOR,
                   "." +:+ PyStr.replace " "%char "." (info_class_names element_info))
        else None ]
  /\ (forall rest, try_ (None :: rest) = try_ rest)
  /\ (forall by_ value rest before element after,
        find_elements by_ value = Ok (before ++ element :: after) ->
        Forall (passed_over element_info) before ->
        el_stale element = false ->
        accepts element_info element = true ->
        try_ (Some (by_, value) :: rest) = Some element)
  /\ (forall by_ value rest e,
        find_elements by_ value = Raise e ->
        try_ (Some (by_, value) :: rest) = try_ rest)
  /\ (forall by_ value rest before element after,
        find_elements by_ value = Ok (before ++ element :: after) ->
        Forall (passed_over element_info) before ->
        el_stale element = true ->
        try_ (Some (by_, value) :: rest) = try_ rest)
  /\ (forall by_ value rest candidates,
        find_elements by_ value = Ok candidates ->
        Forall (passed_over element_info) candidates ->
        try_ (Some (by_, value) :: rest) = try_ rest)
  /\ try_ [] = None
  /\ (forall env initial_url initial_title,
        env_url_before env = Ok initial_url ->
        env_title_before env = Ok initial_title ->
        (locate_for_click env element_info = None ->
         res_click_status (test_element_click env element_info)
         = "element_not_found")
        /\ (_find_element_by_info (env_find_elements env) element_info = None ->
            res_click_status (_test_element_click_with_driver env element_info)
            = "element_not_found")).
Proof.
  cbv zeta. split; [reflexivity|]. split; [reflexivity|].
  split; [|split; [|split; [|split; [|split]]]].
  - intros by_ value rest before element after Hfind Hbefore Hlive Hacc.
    simpl. rewrite Hfind. unfold mbind at 1, res_bind.
    rewrite (first_matching_passed_over _ _ _ Hbefore). simpl.
    rewrite (candidate_matches_live _ _ Hlive), Hacc. reflexivity.
  - intros by_ value rest e Hfind. simpl. rewrite Hfind. reflexivity.
  - intros by_ value rest before element after Hfind Hbefore Hstale.
    simpl. rewrite Hfind. unfold mbind at 1, res_bind.
    rewrite (first_matching_passed_over _ _ _ Hbefore). simpl.
    unfold candidate_matches, command. rewrite Hstale. reflexivity.
  - intros by_ value rest candidates Hfind Hall.
    simpl. rewrite Hfind. unfold mbind at 1, res_bind.
    rewrite <- (app_nil_r candidates).
    rewrite (first_matching_passed_over _ _ _ Hall). reflexivity.
  - reflexivity.
  - intros env initial_url initial_title Hu Ht. split; intros Hloc.
    + unfold test_element_click, try_except, click_test_body, call, update.
      rewrite Hloc. unfold mbind, classify_bind. rewrite Hu, Ht. reflexivity.
    + unfold _test_element_click_with_driver, try_except, click_test_body,
        call, update.
      rewrite Hloc. unfold mbind, classify_bind. rewrite Hu, Ht. reflexivity.
Qed.

Lemma locator_first_displayed_match_witness :
  _find_element_by_info
    (fun _ _ => Ok [hidden about_link; promo_link; about_link_twin; about_link])
    (descriptor about_link)
  = Some about_link_twin
  /\ res_click_status
       (test_element_click (click_env [promo_link] "" "" [] [])
          (descriptor about_link))
     = "element_not_found".
Proof.
  pose proof (locator_first_displayed_match
                (fun _ _ => Ok [hidden about_link; promo_link; about_link_twin;
                                about_link])
                (descriptor about_link)) as (Hdef & Hskip & Hacc & _).
  pose proof (locator_first_displayed_match
                (env_find_elements (click_env [promo_link] "" "" [] []))
                (descriptor about_link)) as (_ & _ & _ & _ & _ & _ & _ & Hnone).
  split.
  - refine (eq_trans Hdef _).
    refine (eq_trans (Hskip [_; _]) _).
    refine (Hacc By_XPATH "//a" [_] [hidden about_link; promo_link]
              about_link_twin [about_link] eq_refl _ eq_refl eq_refl).
    repeat constructor.
  - apply (Hnone (click_env [promo_link] "" "" [] [])
             "https://example.test/" "Home"); reflexivity.
Defined.

(** ** Discovery *)

Section DiscoveryProperties.
Context `{Digests}.
Implicit Types (st : Sweep) (seen : gset string).

Lemma first_seen_wins_app seen met1 met2 :
  first_seen_wins seen (met1 ++ met2)
  = first_seen_wins seen met1 ++ first_seen_wins (seen_after seen met1) met2.
Proof.
  revert seen. induction met1 as [|[e m] met1 IH]; intros seen; simpl.
  - reflexivity.
  - rewrite IH, <- app_assoc. reflexivity.
Qed.

Lemma seen_after_app seen met1 met2 :
  seen_after seen (met1 ++ met2) = seen_after (seen_after seen met1) met2.
Proof. unfold seen_after. apply fold_left_app. Qed.

Lemma seen_with_mono seen element digest :
  digest ∈ seen -> digest ∈ seen_with seen element.
Proof. unfold seen_with. case_bool_decide; set_solver. Qed.

Lemma seen_with_fingerprint seen element :
  fingerprint element ∈ seen_with seen element.
Proof. unfold seen_with. case_bool_decide; set_solver. Qed.

Lemma seen_after_mono seen met digest :
  digest ∈ seen -> digest ∈ seen_after seen met.
Proof.
  unfold seen_after. revert seen.
  induction met as [|[e m] met IH]; intros seen Hin; simpl; [exact Hin|].
  apply IH, seen_with_mono, Hin.
Qed.

Lemma seen_after_fingerprint seen met element method :
  In (element, method) met -> fingerprint element ∈ seen_after seen met.
Proof.
  unfold seen_after. revert seen.
  induction met as [|[e m] met IH]; intros seen Hin; simpl; [destruct Hin|].
  destruct Hin as [Heq|Hin].
  - injection Heq as -> ->. apply (seen_after_mono _ met), seen_with_fingerprint.
  - apply IH, Hin.
Qed.

(** A sequence whose fingerprints are all known yields nothing and leaves
    the set as it is. *)
Lemma first_seen_wins_all_seen seen met :
  (forall element method, In (element, method) met -> fingerprint element ∈ seen) ->
  first_seen_wins seen met = [] /\ seen_after seen met = seen.
Proof.
  unfold seen_after. induction met as [|[e m] met IH]; intros Hall; simpl.
  - split; reflexivity.
  - assert (He : fingerprint e ∈ seen) by (apply (Hall e m); left; reflexivity).
    unfold seen_with. rewrite bool_decide_eq_true_2 by exact He. simpl.
    apply IH. intros element method Hin. apply (Hall element method). right. exact Hin.
Qed.

(** One iteration of a sweep, against the deduplication it implements. *)
Lemma sweep_element_spec ic use_unique_ids method st element :
  unique_ids_seen st ->
  let st' := sweep_element ic use_unique_ids method st element in
  let met := tagged method (eligible ic [element]) in
  unique_ids_seen st'
  /\ sw_clickable_elements st'
     = sw_clickable_elements st ++ first_seen_wins (sw_seen_elements st) met
  /\ sw_seen_elements st' = seen_after (sw_seen_elements st) met.
Proof.
  intros Hinv. unfold sweep_element, eligible, tagged, seen_after. simpl.
  unfold passes_filters, command.
  destruct (el_stale element) eqn:Hstale; simpl.
  { rewrite app_nil_r. auto. }
  destruct (el_is_displayed element && el_is_enabled element
            && negb (el_in_header_or_footer element) && negb (ic element));
    simpl.
  2:{ rewrite app_nil_r. auto. }
  unfold _extract_element_info, command, seen_with. rewrite Hstale.
  destruct (bool_decide (fingerprint element ∈ sw_seen_elements st)) eqn:Hseen;
    simpl.
  { rewrite app_nil_r. auto. }
  apply bool_decide_eq_false in Hseen.
  unfold extraction_completes.
  destruct (el_late_reads element) as [[]|late]; simpl.
  2:{ rewrite app_nil_r. split; [|split; reflexivity].
      intros digest Hin. simpl in *. apply elem_of_union_r, Hinv, Hin. }
  assert (Hfresh : bool_decide (Md5Hex (fingerprint element) ∈ sw_unique_ids st)
                   = false).
  { apply bool_decide_eq_false. intros Hin. apply Hseen, Hinv, Hin. }
  rewrite Hfresh, andb_false_r. simpl. split; [|split; reflexivity].
  intros digest Hin. simpl in *.
  destruct use_unique_ids.
  - apply elem_of_union in Hin as [Hin|Hin].
    + apply elem_of_singleton in Hin. injection Hin as ->. set_solver.
    + apply elem_of_union_r, Hinv, Hin.
  - apply elem_of_union_r, Hinv, Hin.
Qed.

Lemma eligible_app ic l1 l2 :
  eligible ic (l1 ++ l2) = eligible ic l1 ++ eligible ic l2.
Proof. apply List.filter_app. Qed.

Lemma tagged_app method l1 l2 :
  tagged method (l1 ++ l2) = tagged method l1 ++ tagged method l2.
Proof. apply map_app. Qed.

Lemma sweep_elements_spec ic use_unique_ids method elements : forall st,
  unique_ids_seen st ->
  let st' := sweep_elements ic use_unique_ids method st elements in
  let met := tagged method (eligible ic elements) in
  unique_ids_seen st'
  /\ sw_clickable_elements st'
     = sw_clickable_elements st ++ first_seen_wins (sw_seen_elements st) met
  /\ sw_seen_elements st' = seen_after (sw_seen_elements st) met.
Proof.
  induction elements as [|element elements IH]; intros st Hinv; cbv zeta.
  - cbn. rewrite app_nil_r. auto.
  - destruct (sweep_element_spec ic use_unique_ids method st element Hinv)
      as (Hinv1 & Hc1 & Hs1).
    destruct (IH _ Hinv1) as (Hinv2 & Hc2 & Hs2).
    change (sweep_elements ic use_unique_ids method st (element :: elements))
      with (sweep_elements ic use_unique_ids method
              (sweep_element ic use_unique_ids method st element) elements).
    split; [exact Hinv2|].
    change (element :: elements) with ([element] ++ elements).
    rewrite eligible_app, tagged_app, first_seen_wins_app, seen_after_app.
    rewrite Hc2, Hs2, Hc1, Hs1, <- app_assoc. split; reflexivity.
Qed.

Lemma structural_sweep_spec ic page selectors : forall st,
  unique_ids_seen st ->
  let st' := structural_sweep ic selectors page st in
  let met := tagged None
               (concat (map (fun selector =>
                               eligible ic (or_nothing (page_find_elements page selector)))
                          selectors)) in
  unique_ids_seen st'
  /\ sw_clickable_elements st'
     = sw_clickable_elements st ++ first_seen_wins (sw_seen_elements st) met
  /\ sw_seen_elements st' = seen_after (sw_seen_elements st) met.
Proof.
  induction selectors as [|selector selectors IH]; intros st Hinv; cbv zeta.
  - cbn. rewrite app_nil_r. auto.
  - destruct (sweep_elements_spec ic true None
                (or_nothing (page_find_elements page selector)) st Hinv)
      as (Hinv1 & Hc1 & Hs1).
    destruct (IH _ Hinv1) as (Hinv2 & Hc2 & Hs2).
    change (structural_sweep ic (selector :: selectors) page st)
      with (structural_sweep ic selectors page
              (sweep_elements ic true None st
                 (or_nothing (page_find_elements page selector)))).
    split; [exact Hinv2|].
    cbn [map concat].
    rewrite tagged_app, first_seen_wins_app, seen_after_app.
    rewrite Hc2, Hs2, Hc1, Hs1, <- app_assoc. split; reflexivity.
Qed.

(** The three regular sweeps implement first-seen-wins deduplication of the
    encounters, whether or not the auxiliary sweeps consult [unique_ids]. *)
Lemma regular_sweeps_spec ic aux_unique_ids catalogue page seen :
  let st := regular_sweeps ic aux_unique_ids catalogue page seen in
  sw_clickable_elements st = first_seen_wins seen (encounters ic catalogue page)
  /\ sw_seen_elements st = seen_after seen (encounters ic catalogue page).
Proof.
  unfold regular_sweeps, encounters.
  set (st0 := {| sw_seen_elements := seen; sw_unique_ids := ∅;
                 sw_clickable_elements := [] |}).
  assert (Hinv0 : unique_ids_seen st0) by (intros d Hd; simpl in Hd; set_solver).
  destruct (structural_sweep_spec ic page (clickable_selectors catalogue) st0 Hinv0)
    as (Hinv1 & Hc1 & Hs1).
  destruct (sweep_elements_spec ic aux_unique_ids (Some "pointer_cursor")
              (or_nothing (page_pointer_elements page)) _ Hinv1)
    as (Hinv2 & Hc2 & Hs2).
  destruct (sweep_elements_spec ic aux_unique_ids (Some "event_listener")
              (or_nothing (page_listener_elements page)) _ Hinv2)
    as (Hinv3 & Hc3 & Hs3).
  cbv zeta in *.
  rewrite !first_seen_wins_app, !seen_after_app.
  rewrite Hc3, Hs3, Hc2, Hs2, Hc1, Hs1. simpl.
  rewrite <- !app_assoc. split; reflexivity.
Qed.

End DiscoveryProperties.


Section DiscoveryClaims.
Context `{Digests}.


Lemma find_clickable_elements_with_spec ic extract_hidden aux catalogue page seen :
  page_load page = Ok tt ->
  find_clickable_elements_with ic extract_hidden aux catalogue page seen
  = Ok (first_seen_wins seen (encounters ic catalogue page)
        ++ carousel_sweep extract_hidden catalogue page,
        seen_after seen (encounters ic catalogue page)).
Proof.
  intros Hload. unfold find_clickable_elements_with. rewrite Hload.
  unfold mbind, res_bind.
  destruct (regular_sweeps_spec ic aux catalogue page seen) as [-> ->].
  reflexivity.
Qed.


Lemma set_detection_method_unique_id method element_info :
  info_unique_id (set_detection_method method element_info)
  = info_unique_id element_info.
Proof. destruct method; reflexivity. Qed.

(** Where a descriptor of the deduplication comes from. *)
Lemma first_seen_wins_origin seen met element_info :
  In element_info (first_seen_wins seen met) ->
  exists element method,
    In (element, method) met
    /\ element_info = set_detection_method method (regular_info element)
    /\ (fingerprint element ∉ seen)
    /\ extraction_completes element = true.
Proof.
  revert seen. induction met as [|[e m] met IH]; intros seen; simpl; [intros []|].
  intros Hin. apply in_app_iff in Hin as [Hin|Hin].
  - destruct (bool_decide (fingerprint e ∈ seen)) eqn:Hs; [destruct Hin|].
    apply bool_decide_eq_false in Hs.
    destruct (extraction_completes e) eqn:Hc; [|destruct Hin].
    destruct Hin as [<-|[]]. exists e, m. auto.
  - destruct (IH _ Hin) as (e' & m' & Hin' & Heq & Hnew & Hc).
    exists e', m'. split; [right; exact Hin'|]. split; [exact Heq|].
    split; [|exact Hc].
    intros Hseen. apply Hnew. apply seen_with_mono. exact Hseen.
Qed.

(** No descriptor of the deduplication carries a fingerprint that was in the
    set at the start. *)
Lemma first_seen_wins_fresh seen met element_info digest :
  In element_info (first_seen_wins seen met) ->
  info_unique_id element_info = Md5Hex digest ->
  digest ∉ seen.
Proof.
  intros Hin Hid.
  apply first_seen_wins_origin in Hin as (e & m & _ & -> & Hnew & _).
  rewrite set_detection_method_unique_id in Hid. simpl in Hid.
  injection Hid as <-. exact Hnew.
Qed.






(** A second pass of the same tester over the same page: every element the
    regular sweeps meet is already in [seen_elements], so only the carousel
    descriptors are returned. *)
Lemma second_pass_regular_empty ic extract_hidden aux catalogue page seen found seen' :
  find_clickable_elements_with ic extract_hidden aux catalogue page seen
  = Ok (found, seen') ->
  find_clickable_elements_with ic extract_hidden aux catalogue page seen'
  = Ok (carousel_sweep extract_hidden catalogue page, seen').
Proof.
  intros Hfirst.
  assert (Hload : page_load page = Ok tt).
  { unfold find_clickable_elements_with in Hfirst.
    destruct (page_load page) as [[]|]; [reflexivity|discriminate]. }
  rewrite (find_clickable_elements_with_spec _ _ _ _ _ _ Hload) in Hfirst.
  injection Hfirst as _ Hseen.
  rewrite (find_clickable_elements_with_spec _ _ _ _ _ _ Hload).
  destruct (first_seen_wins_all_seen seen' (encounters ic catalogue page))
    as [-> ->]; [|reflexivity].
  intros element method Hin. rewrite <- Hseen.
  eapply seen_after_fingerprint. exact Hin.
Qed.

(** In the first file the carousel path yields no descriptor at all. *)
Lemma tester_extract_hidden_none element :
  Tester._extract_element_info_for_hidden element = None.
Proof.
  unfold Tester._extract_element_info_for_hidden, command.
  destruct (el_stale element); reflexivity.
Qed.

Lemma collect_enabled_none elements :
  collect_enabled Tester._extract_element_info_for_hidden elements = [].
Proof.
  induction elements as [|element elements IH]; simpl; [reflexivity|].
  destruct (command element (el_is_enabled element)) as [[|]|]; simpl;
    rewrite ?tester_extract_hidden_none; auto.
Qed.

Lemma concat_map_nil {A B} (f : A -> list B) (l : list A) :
  (forall a, f a = []) -> concat (map f l) = [].
Proof.
  intros Hf. induction l as [|a l IH]; simpl; [reflexivity|].
  rewrite Hf, IH. reflexivity.
Qed.

Lemma tester_carousel_sweep_empty catalogue page :
  carousel_sweep Tester._extract_element_info_for_hidden catalogue page = [].
Proof.
  unfold carousel_sweep. apply concat_map_nil. intros selector.
  apply concat_map_nil. intros carousel.
  destruct (_ && _); [|reflexivity].
  unfold _handle_carousel_banner.
  destruct (car_slides carousel) as [[slides|]|]; try reflexivity.
  apply concat_map_nil. intros slide.
  unfold _extract_clickables_from_slide.
  destruct (slide_make_visible slide); [|reflexivity].
  rewrite !concat_map_nil; auto using collect_enabled_none.
Qed.

(** In the second file the carousel descriptors are computed without the
    fingerprint set and follow the regular ones, so an element of a slide
    is returned whatever the regular sweeps found. *)
Lemma optimized_keeps_carousel_descriptors catalogue page seen element_info :
  page_load page = Ok tt ->
  In element_info
     (carousel_sweep Optimized._extract_element_info_for_hidden catalogue page) ->
  exists regular seen',
    Optimized.find_clickable_elements catalogue page seen
    = Ok (regular
          ++ carousel_sweep Optimized._extract_element_info_for_hidden
               catalogue page, seen')
    /\ Forall (fun d => info_is_carousel_element d = None) regular
    /\ info_is_carousel_element element_info = Some true.
Proof.
  intros Hload Hin.
  exists (first_seen_wins seen
            (encounters Optimized._is_carousel_element catalogue page)).
  eexists. split; [apply find_clickable_elements_with_spec, Hload|]. split.
  - generalize (encounters Optimized._is_carousel_element catalogue page).
    intros met. revert seen.
    induction met as [|[e m] met IH]; intros seen; simpl; [constructor|].
    apply Forall_app. split; [|apply IH].
    destruct (bool_decide _); [constructor|].
    destruct (extraction_completes e); [|constructor].
    constructor; [|constructor]. destruct m; reflexivity.
  - unfold carousel_sweep in Hin.
    apply in_concat in Hin as (l1 & Hl1 & Hin).
    apply in_map_iff in Hl1 as (selector & <- & _).
    apply in_concat in Hin as (l2 & Hl2 & Hin).
    apply in_map_iff in Hl2 as (carousel & <- & _).
    destruct (_ && _); [|destruct Hin].
    unfold _handle_carousel_banner in Hin.
    destruct (car_slides carousel) as [[slides|]|]; try destruct Hin.
    apply in_concat in Hin as (l3 & Hl3 & Hin).
    apply in_map_iff in Hl3 as (slide & <- & _).
    unfold _extract_clickables_from_slide in Hin.
    destruct (slide_make_visible slide); [|destruct Hin].
    assert (Hce : forall elements,
               In element_info
                  (collect_enabled Optimized._extract_element_info_for_hidden elements) ->
               info_is_carousel_element element_info = Some true).
    { induction elements as [|x xs IHx]; simpl; [intros []|].
      destruct (command x (el_is_enabled x)) as [enabled|]; [|intros []].
      intros Hx. apply in_app_iff in Hx as [Hx|Hx]; [|exact (IHx Hx)].
      destruct enabled; [|destruct Hx].
      unfold Optimized._extract_element_info_for_hidden, command in Hx.
      destruct (el_stale x); [destruct Hx|].
      destruct Hx as [<-|[]]. reflexivity. }
    apply in_app_iff in Hin as [Hin|Hin];
      apply in_concat in Hin as (l4 & Hl4 & Hin);
      apply in_map_iff in Hl4 as (arg & <- & _);
      exact (Hce _ Hin).
Qed.

End DiscoveryClaims.


(** C4: a tester that has discovered a static page once finds nothing on it
    the second time: the first pass leaves the fingerprints of the link and
    the button in [seen_elements], and the second pass, on the unchanged
    page, drops both -- in either file. *)
Theorem second_discovery_pass_finds_nothing :
  discover_twice
    (@Optimized.find_clickable_elements example_digests example_catalogue)
    static_page
  = Ok ([descriptor about_link; descriptor hash_button], [])
  /\ discover_twice
       (@Tester.find_clickable_elements example_digests example_catalogue)
       static_page
     = Ok ([descriptor about_link; descriptor hash_button], []).
Proof. split; vm_compute; reflexivity. Qed.

(** C6: on a page whose promo link occurs in a carousel slide and once more
    in the page body, the first file returns a single record, the one of the
    regular sweep: building the carousel descriptor raises [NameError] and
    the descriptor is lost.  The second file returns the two records, the
    carousel one last. *)
Theorem tester_loses_carousel_descriptor :
  descriptors_of
    (@Tester.find_clickable_elements example_digests example_catalogue
       banner_page ∅)
  = Ok [descriptor promo_link]
  /\ @Tester._extract_element_info_for_hidden example_digests promo_in_banner
     = None
  /\ descriptors_of
       (@Optimized.find_clickable_elements example_digests example_catalogue
          banner_page ∅)
     = Ok [descriptor promo_link;
           @hidden_info example_digests promo_in_banner].
Proof. repeat split; vm_compute; reflexivity. Qed.

(* ===================================================================== *)
(** * Further properties of the code *)
(* ===================================================================== *)

(** ** Click results *)

Lemma determine_click_status_flags element_info u0 u1 t0 t1 overlay result :
  res_page_changed result = false ->
  res_new_elements_appeared result = false ->
  let result' := determine_click_status element_info u0 u1 t0 t1 overlay result in
  res_element_info result' = res_element_info result
  /\ (res_page_changed result' = true
      <-> In (res_click_status result')
             ["active_navigation"; "active_title_change"])
  /\ (res_new_elements_appeared result' = true
      <-> res_click_status result' = "active_ui_change").
Proof.
  intros Hp Hn. unfold determine_click_status.
  repeat case_match; simpl; rewrite ?Hp, ?Hn;
    (split; [reflexivity|]); split; split; intros Hx;
    try discriminate; try reflexivity; try tauto;
    try (exfalso; simpl in Hx; intuition discriminate).
Qed.

Lemma handler_flags (handler : exn -> ClickResult -> ClickResult) e result :
  (handler = sequential_handler \/ handler = with_driver_handler) ->
  res_page_changed result = false ->
  res_new_elements_appeared result = false ->
  res_element_info (handler e result) = res_element_info result
  /\ (res_page_changed (handler e result) = true
      <-> In (res_click_status (handler e result))
             ["active_navigation"; "active_title_change"])
  /\ (res_new_elements_appeared (handler e result) = true
      <-> res_click_status (handler e result) = "active_ui_change").
Proof.
  intros [-> | ->] Hp Hn.
  - unfold sequential_handler. destruct (exn_cls e); simpl; rewrite Hp, Hn;
      (split; [reflexivity|]); split; split; intros Hx;
      try discriminate; exfalso; simpl in Hx; intuition discriminate.
  - unfold with_driver_handler. simpl. rewrite Hp, Hn.
    (split; [reflexivity|]); split; split; intros Hx;
      try discriminate; exfalso; simpl in Hx; intuition discriminate.
Qed.

(** Every run of the [try] block takes one of the paths. *)
Lemma click_test_body_path env element_info located :
  ClickPath env element_info located
    (click_test_body env element_info located (initial_result element_info)).
Proof.
  unfold click_test_body, attempt_click, call, update, return_result.
  unfold mbind, classify_bind.
  destruct (env_url_before env) as [u0|e] eqn:Hu0;
    [|apply path_url_before_raises; assumption].
  destruct (env_title_before env) as [t0|e] eqn:Ht0;
    [|eapply path_title_before_raises; eassumption].
  destruct located as [element|];
    [|eapply path_not_found; eauto].
  destruct (env_scroll_into_view env element) as [[]|e] eqn:Hs;
    [|eapply path_scroll_raises; eauto].
  destruct (still_clickable env element) as [[|]|e] eqn:Hc;
    [|eapply path_not_clickable; eauto|eapply path_check_raises; eauto].
  destruct (env_click env element) as [[]|e] eqn:Hk.
  - assert (Hok : click_succeeds env element) by (left; exact Hk).
    destruct (env_url_after env) as [u1|e] eqn:Hu1;
      [|eapply path_url_after_raises; eauto].
    destruct (env_title_after env) as [t1|e] eqn:Ht1;
      [|eapply path_title_after_raises; eauto].
    eapply path_observed; [reflexivity|]. repeat split; assumption.
  - destruct (bool_decide (exn_cls e = ElementClickInterceptedException)) eqn:Hi.
    + apply bool_decide_eq_true in Hi.
      destruct (env_script_click env element) as [[]|js_error] eqn:Hj;
        [|eapply path_click_intercepted; eauto].
      assert (Hok : click_succeeds env element) by (right; eauto).
      destruct (env_url_after env) as [u1|e'] eqn:Hu1;
        [|eapply path_url_after_raises; eauto].
      destruct (env_title_after env) as [t1|e'] eqn:Ht1;
        [|eapply path_title_after_raises; eauto].
      eapply path_observed; [reflexivity|]. repeat split; assumption.
    + apply bool_decide_eq_false in Hi. eapply path_click_raises; eauto.
Qed.

Lemma try_except_flags env element_info located handler :
  (handler = sequential_handler \/ handler = with_driver_handler) ->
  flags_consistent element_info
    (try_except (click_test_body env element_info located) handler
       (initial_result element_info)).
Proof.
  intros Hh. unfold flags_consistent, try_except.
  destruct (click_test_body_path env element_info located);
    try match goal with
        | |- context [handler ?e ?r] =>
            destruct (handler_flags handler e r Hh eq_refl eq_refl)
              as (Hf1 & Hf2 & Hf3); simpl in Hf1; tauto
        | |- context [determine_click_status ?i ?a ?b ?c ?d ?o ?r] =>
            destruct (determine_click_status_flags i a b c d o r eq_refl eq_refl)
              as (Hf1 & Hf2 & Hf3); simpl in Hf1; tauto
        end;
    simpl; (split; [reflexivity|]); split; split; intros Hx;
    try discriminate; exfalso; simpl in Hx; intuition discriminate.
Qed.

(** X1.  Both classifiers, and the batch loop around the second, return a result
    for the descriptor they were given, with [page_changed] set exactly for
    the statuses [active_navigation] and [active_title_change] and
    [new_elements_appeared] set exactly for [active_ui_change]. *)
Theorem click_result_flags (env : ClickEnv) (element_info : ElementInfo)
    (url : string) (step : BatchStep) :
  flags_consistent element_info (test_element_click env element_info)
  /\ flags_consistent element_info
       (_test_element_click_with_driver env element_info)
  /\ flags_consistent element_info (test_in_batch url step element_info).
Proof.
  split; [|split].
  - apply try_except_flags. left. reflexivity.
  - apply try_except_flags. right. reflexivity.
  - unfold test_in_batch.
    destruct (_ ← step_current_url step; _).
    + apply try_except_flags. right. reflexivity.
    + unfold flags_consistent. simpl. split; [reflexivity|].
      split; split; intros Hx; try discriminate;
        exfalso; simpl in Hx; intuition discriminate.
Qed.

Lemma determine_click_status_urls element_info u0 u1 t0 t1 overlay result :
  res_url_before result = u0 ->
  res_url_after result = u1 ->
  urls_consistent (determine_click_status element_info u0 u1 t0 t1 overlay result).
Proof.
  intros Hb Ha. unfold urls_consistent, determine_click_status.
  destruct (is_dead_click_by_href element_info); simpl.
  { repeat split; intros Hx; exfalso; simpl in Hx; intuition discriminate. }
  destruct (String.eqb_spec u1 u0) as [Heq|Hne]; simpl.
  2:{ rewrite Ha, Hb. repeat split; intros Hx; try assumption;
        exfalso; simpl in Hx; intuition discriminate. }
  destruct (String.eqb t1 t0); simpl.
  2:{ rewrite Ha, Hb. repeat split; intros Hx; try assumption;
        exfalso; simpl in Hx; intuition discriminate. }
  destruct overlay as [[|]|e]; simpl; rewrite ?Ha, ?Hb;
    repeat split; intros Hx; try assumption;
    exfalso; simpl in Hx; intuition discriminate.
Qed.

Lemma handler_urls (handler : exn -> ClickResult -> ClickResult) e result :
  (handler = sequential_handler \/ handler = with_driver_handler) ->
  res_url_after result = "" ->
  urls_consistent (handler e result).
Proof.
  intros [-> | ->] Ha; unfold urls_consistent.
  - unfold sequential_handler. destruct (exn_cls e); simpl;
      repeat split; intros Hx; try assumption;
      exfalso; simpl in Hx; intuition discriminate.
  - unfold with_driver_handler. simpl.
    repeat split; intros Hx; try assumption;
      exfalso; simpl in Hx; intuition discriminate.
Qed.

Lemma try_except_urls env element_info located handler :
  (handler = sequential_handler \/ handler = with_driver_handler) ->
  urls_consistent
    (try_except (click_test_body env element_info located) handler
       (initial_result element_info)).
Proof.
  intros Hh. unfold try_except.
  destruct (click_test_body_path env element_info located);
    try (apply (handler_urls handler _ _ Hh); reflexivity);
    try (apply determine_click_status_urls; reflexivity);
    unfold urls_consistent; simpl; repeat split; intros Hx;
    try reflexivity; exfalso; simpl in Hx; intuition discriminate.
Qed.

(** X2.  In a result of either classifier, the status [active_navigation] comes
    with a [url_after] that differs from [url_before]; the statuses
    [active_title_change] and [active_ui_change] come with equal URLs; and
    under every status that ends the test before the observation
    [url_after] is still empty. *)
Theorem click_result_urls (env : ClickEnv) (element_info : ElementInfo) :
  urls_consistent (test_element_click env element_info)
  /\ urls_consistent (_test_element_click_with_driver env element_info).
Proof.
  split; apply try_except_urls; [left|right]; reflexivity.
Qed.

Lemma click_result_urls_witness :
  res_url_after
    (test_element_click
       (click_env [about_link] "https://example.test/about" "Home" [] [])
       (descriptor about_link))
  <> res_url_before
       (test_element_click
          (click_env [about_link] "https://example.test/about" "Home" [] [])
          (descriptor about_link)).
Proof.
  apply (proj1 (proj1 (click_result_urls
           (click_env [about_link] "https://example.test/about" "Home" [] [])
           (descriptor about_link)))).
  reflexivity.
Defined.

(** X3.  For a descriptor without the carousel mark the two classifiers run the
    same [try] block; their results are equal unless a timeout or a
    staleness error leaves the block, in which case the sequential
    classifier reports [timeout] or [stale_element] and the per-session one
    [error], with every other field but the message equal. *)
Theorem classifiers_agree_off_carousel (env : ClickEnv) (element_info : ElementInfo) :
  is_carousel_element element_info = false ->
  let a := test_element_click env element_info in
  let b := _test_element_click_with_driver env element_info in
  a = b
  \/ (In (res_click_status a) ["timeout"; "stale_element"]
      /\ res_click_status b = "error"
      /\ res_element_info a = res_element_info b
      /\ res_page_changed a = res_page_changed b
      /\ res_url_before a = res_url_before b
      /\ res_url_after a = res_url_after b
      /\ res_new_elements_appeared a = res_new_elements_appeared b).
Proof.
  intros Hc. cbv zeta.
  unfold test_element_click, _test_element_click_with_driver, locate_for_click.
  rewrite Hc. unfold try_except.
  destruct (click_test_body env element_info
              (_find_element_by_info (env_find_elements env) element_info)
              (initial_result element_info)) as [[[]| |e] result'];
    [left; reflexivity|left; reflexivity|].
  unfold sequential_handler, with_driver_handler.
  destruct (exn_cls e); simpl; try (left; reflexivity);
    right; repeat split; tauto.
Qed.

Lemma classifiers_agree_off_carousel_witness :
  res_click_status
    (test_element_click (raising_env timeout_exn) (descriptor about_link))
  <> res_click_status
       (_test_element_click_with_driver (raising_env timeout_exn)
          (descriptor about_link))
  /\ test_element_click
       (click_env [about_link] "https://example.test/about" "Home" [] [])
       (descriptor about_link)
     = _test_element_click_with_driver
         (click_env [about_link] "https://example.test/about" "Home" [] [])
         (descriptor about_link).
Proof.
  split.
  - destruct (classifiers_agree_off_carousel (raising_env timeout_exn)
                (descriptor about_link) eq_refl) as [Heq|(_ & Hb & _)].
    + rewrite Heq. discriminate.
    + rewrite Hb. discriminate.
  - destruct (classifiers_agree_off_carousel
                (click_env [about_link] "https://example.test/about" "Home" [] [])
                (descriptor about_link) eq_refl) as [Heq|(Ha & _)].
    + exact Heq.
    + exfalso. vm_compute in Ha. intuition discriminate.
Defined.

Lemma try_except_click_intercepted env element_info located handler :
  (handler = sequential_handler \/ handler = with_driver_handler) ->
  let result := try_except (click_test_body env element_info located) handler
                  (initial_result element_info) in
  res_click_status result = "click_intercepted" ->
  exists element e js_error,
    located = Some element
    /\ env_click env element = Raise e
    /\ exn_cls e = ElementClickInterceptedException
    /\ env_script_click env element = Raise js_error
    /\ res_error_message result = "Click intercepted: " +:+ exn_str js_error.
Proof.
  intros Hh. cbv zeta. unfold try_except.
  destruct (click_test_body_path env element_info located); intros Hs;
    try (exfalso;
         destruct Hh as [-> | ->];
         [unfold sequential_handler in Hs; destruct (exn_cls e) in Hs
         |unfold with_driver_handler in Hs];
         simpl in Hs; discriminate);
    try (simpl in Hs; discriminate).
  - eauto 10.
  - exfalso.
    pose proof (determine_click_status_in element_info initial_url current_url
                  initial_title current_title (overlay_present env)
                  (set_url_after current_url
                     (set_url_before initial_url (initial_result element_info))))
      as Hin.
    rewrite Hs in Hin. simpl in Hin. intuition discriminate.
Qed.

(** X4.  The status [click_intercepted] is reported only when the direct click
    raised [ElementClickInterceptedException] and the script click raised as
    well; the message then carries the text of the second exception.  An
    exception of the script click never surfaces in any other way. *)
Theorem click_intercepted_provenance (env : ClickEnv) (element_info : ElementInfo) :
  (res_click_status (test_element_click env element_info) = "click_intercepted" ->
   exists element e js_error,
     locate_for_click env element_info = Some element
     /\ env_click env element = Raise e
     /\ exn_cls e = ElementClickInterceptedException
     /\ env_script_click env element = Raise js_error
     /\ res_error_message (test_element_click env element_info)
        = "Click intercepted: " +:+ exn_str js_error)
  /\ (res_click_status (_test_element_click_with_driver env element_info)
      = "click_intercepted" ->
      exists element e js_error,
        _find_element_by_info (env_find_elements env) element_info = Some element
        /\ env_click env element = Raise e
        /\ exn_cls e = ElementClickInterceptedException
        /\ env_script_click env element = Raise js_error
        /\ res_error_message (_test_element_click_with_driver env element_info)
           = "Click intercepted: " +:+ exn_str js_error).
Proof.
  split.
  - apply (try_except_click_intercepted env element_info
             (locate_for_click env element_info) sequential_handler).
    left. reflexivity.
  - apply (try_except_click_intercepted env element_info
             (_find_element_by_info (env_find_elements env) element_info)
             with_driver_handler).
    right. reflexivity.
Qed.

Lemma click_intercepted_provenance_witness :
  res_error_message (test_element_click intercepted_env (descriptor about_link))
  = "Click intercepted: javascript error".
Proof.
  destruct (proj1 (click_intercepted_provenance intercepted_env
                     (descriptor about_link)) eq_refl)
    as (element & e & js_error & _ & _ & _ & Hjs & Hmsg).
  rewrite Hmsg. injection Hjs as <-. reflexivity.
Defined.

(** ** Runs *)

Lemma test_element_click_info env element_info :
  res_element_info (test_element_click env element_info) = element_info.
Proof. apply try_except_flags. left. reflexivity. Qed.

Lemma test_in_batch_info url step element_info :
  res_element_info (test_in_batch url step element_info) = element_info.
Proof.
  unfold test_in_batch. destruct (_ ← step_current_url step; _); [|reflexivity].
  apply try_except_flags. right. reflexivity.
Qed.

Lemma test_each_unfold url steps i element_info rest t :
  test_each url steps i (element_info :: rest) t
  = (_ ← seq_navigation url (steps i);
     test_each url steps (S i) rest
       (count_result (test_element_click (seq_click_env (steps i)) element_info)
          (extend_results
             [test_element_click (seq_click_env (steps i)) element_info] t))).
Proof.
  simpl. unfold seq_navigation, mbind, res_bind.
  destruct (seq_get (steps i)); [|reflexivity].
  destruct (seq_current_url (steps i)) as [current|]; [|reflexivity].
  destruct (if negb (String.eqb current url) then seq_get_again (steps i)
            else Ok tt); reflexivity.
Qed.

Lemma test_each_infos url steps elements : forall i t t',
  test_each url steps i elements t = Ok t' ->
  map res_element_info (run_results t')
  = map res_element_info (run_results t) ++ elements
  /\ run_url t' = run_url t
  /\ run_total_elements_found t' = run_total_elements_found t.
Proof.
  induction elements as [|element_info rest IH]; intros i t t' Hrun.
  - simpl in Hrun. injection Hrun as <-. rewrite app_nil_r. auto.
  - rewrite test_each_unfold in Hrun. unfold mbind, res_bind in Hrun.
    destruct (seq_navigation url (steps i)); [|discriminate].
    apply IH in Hrun as (Hinfos & Hurl & Hfound).
    rewrite Hinfos, Hurl, Hfound, run_results_count_result, run_results_extend.
    rewrite map_app. simpl. rewrite test_element_click_info, <- app_assoc.
    split; [reflexivity|]. split.
    + unfold count_result. repeat case_match; reflexivity.
    + unfold count_result. repeat case_match; reflexivity.
Qed.

(** X5.  A completed sequential run has tested every discovered element exactly
    once and in discovery order: the descriptors of its results are the
    discovered list, and both [total_elements_found] and [elements_tested]
    are its length. *)
Theorem sequential_run_tests_each_once
    (url : string) (clickable_elements : list ElementInfo)
    (steps : nat -> SeqStep) (t : TestRun) :
  run_comprehensive_test url (Ok clickable_elements) steps = Completed t ->
  map res_element_info (run_results t) = clickable_elements
  /\ run_total_elements_found t = length clickable_elements
  /\ run_elements_tested t = length clickable_elements
  /\ run_url t = url.
Proof.
  intros Hrun. unfold run_comprehensive_test in Hrun.
  unfold mbind at 1, res_bind in Hrun.
  destruct (test_each _ _ _ _ _) as [t'|] eqn:Hloop; [|discriminate].
  injection Hrun as <-.
  assert (Hacc0 : accounted (initial_test_results url (length clickable_elements)))
    by (unfold accounted; simpl; lia).
  pose proof (test_each_accounted _ _ _ _ _ _ Hacc0 Hloop)
    as (_ & _ & _ & _ & Hlen).
  apply test_each_infos in Hloop as (Hinfos & Hurl & Hfound).
  simpl in Hinfos, Hurl, Hfound.
  split; [exact Hinfos|]. split; [exact Hfound|]. split; [|exact Hurl].
  rewrite Hlen, <- (length_map res_element_info), Hinfos. reflexivity.
Qed.

Lemma sequential_run_tests_each_once_witness :
  exists t,
    run_comprehensive_test "https://example.test/"
      (Ok [descriptor about_link; descriptor hash_button]) healthy_steps
    = Completed t
    /\ map res_element_info (run_results t)
       = [descriptor about_link; descriptor hash_button].
Proof.
  eexists. split; [vm_compute; reflexivity|].
  apply (sequential_run_tests_each_once "https://example.test/"
           [descriptor about_link; descriptor hash_button] healthy_steps).
  vm_compute. reflexivity.
Defined.

Lemma test_each_completes url steps elements : forall i t,
  (exists t', test_each url steps i elements t = Ok t')
  <-> (forall k, k < length elements ->
         seq_navigation url (steps (i + k)) = Ok tt).
Proof.
  induction elements as [|element_info rest IH]; intros i t.
  - simpl. split; [intros _ k Hk; lia|eauto].
  - rewrite test_each_unfold. unfold mbind at 1, res_bind. split.
    + intros [t' Hrun] k Hk.
      destruct (seq_navigation url (steps i)) as [[]|] eqn:Hnav; [|discriminate].
      destruct k as [|k]; [rewrite Nat.add_0_r; exact Hnav|].
      replace (i + S k) with (S i + k) by lia.
      eapply (proj1 (IH (S i) _)); [eauto|simpl in Hk; lia].
    + intros Hall.
      pose proof (Hall 0 ltac:(simpl; lia)) as Hnav.
      rewrite Nat.add_0_r in Hnav. rewrite Hnav.
      apply IH. intros k Hk.
      replace (S i + k) with (i + S k) by lia. apply Hall. simpl. lia.
Qed.

Lemma test_each_fails url steps elements : forall i t k e,
  k < length elements ->
  (forall j, j < k -> seq_navigation url (steps (i + j)) = Ok tt) ->
  seq_navigation url (steps (i + k)) = Raise e ->
  test_each url steps i elements t = Raise e.
Proof.
  induction elements as [|element_info rest IH]; intros i t k e Hk Hbefore Hnav.
  - simpl in Hk. lia.
  - rewrite test_each_unfold. unfold mbind at 1, res_bind.
    destruct k as [|k].
    + rewrite Nat.add_0_r in Hnav. rewrite Hnav. reflexivity.
    + pose proof (Hbefore 0 ltac:(lia)) as Hfirst.
      rewrite Nat.add_0_r in Hfirst. rewrite Hfirst.
      apply (IH (S i) _ k e).
      * simpl in Hk. lia.
      * intros j Hj. replace (S i + j) with (i + S j) by lia.
        apply Hbefore. lia.
      * replace (S i + k) with (i + S k) by lia. exact Hnav.
Qed.

(** X6.  A sequential run over a discovered list completes exactly when the
    navigation before each test succeeds.  A discovery that raises ends the
    run with [{'error': str(e)}]; so does the first navigation that raises,
    at whatever element of the list it occurs: the results gathered until
    then are not returned. *)
Theorem sequential_run_completes_iff
    (url : string) (clickable_elements : list ElementInfo) (steps : nat -> SeqStep) :
  ((exists t, run_comprehensive_test url (Ok clickable_elements) steps = Completed t)
   <-> (forall k, k < length clickable_elements ->
          seq_navigation url (steps k) = Ok tt))
  /\ (forall e, run_comprehensive_test url (Raise e) steps = Failed (exn_str e))
  /\ (forall k e,
        k < length clickable_elements ->
        (forall j, j < k -> seq_navigation url (steps j) = Ok tt) ->
        seq_navigation url (steps k) = Raise e ->
        run_comprehensive_test url (Ok clickable_elements) steps
        = Failed (exn_str e)).
Proof.
  split; [|split].
  - unfold run_comprehensive_test. unfold mbind at 1, res_bind.
    rewrite <- (test_each_completes url steps clickable_elements 0
                  (initial_test_results url (length clickable_elements))).
    split.
    + intros [t Hrun].
      destruct (test_each _ _ _ _ _) as [t'|]; [eauto|discriminate].
    + intros [t' ->]. eauto.
  - reflexivity.
  - intros k e Hk Hbefore Hnav. unfold run_comprehensive_test.
    unfold mbind at 1, res_bind.
    rewrite (test_each_fails url steps clickable_elements 0 _ k e Hk);
      [reflexivity | exact Hbefore | exact Hnav].
Qed.

Lemma sequential_run_completes_iff_witness :
  (exists t,
     run_comprehensive_test "https://example.test/"
       (Ok [descriptor about_link]) healthy_steps = Completed t)
  /\ run_comprehensive_test "https://example.test/"
       (Ok [descriptor about_link; descriptor hash_button; descriptor about_link])
       (steps_failing_at 1)
     = Failed "page load timed out".
Proof.
  split.
  - apply (proj1 (sequential_run_completes_iff "https://example.test/"
                    [descriptor about_link] healthy_steps)).
    intros k Hk. reflexivity.
  - apply (proj2 (proj2 (sequential_run_completes_iff "https://example.test/"
                           [descriptor about_link; descriptor hash_button;
                            descriptor about_link]
                           (steps_failing_at 1)))
             1 (Exn TimeoutException "page load timed out")).
    + simpl. lia.
    + intros j Hj. destruct j as [|j]; [reflexivity | lia].
    + reflexivity.
Defined.

(** ** Batches, continued *)

Section BatchCount.
Context {A : Type}.
Implicit Types (elements : list A).

Lemma batches_from_nonempty elements q r todo : forall i start,
  Forall (fun batch => batch <> []) (batches_from elements q r i todo start).
Proof.
  induction todo as [|todo IH]; intros i start; simpl; [constructor|].
  apply Forall_app. split; [|apply IH].
  destruct (slice elements start _) eqn:Hb; simpl; constructor;
    [discriminate|constructor].
Qed.

Lemma batches_from_length_le elements q r todo : forall i start,
  length (batches_from elements q r i todo start) <= todo.
Proof.
  induction todo as [|todo IH]; intros i start; simpl; [lia|].
  rewrite length_app. specialize (IH (S i) (start + (q + (if (i <? r)%nat then 1 else 0)))).
  destruct (nonempty _); simpl; lia.
Qed.

Lemma batches_from_length elements q r todo : forall i start,
  start + span q r i todo <= length elements ->
  length (batches_from elements q r i todo start)
  = if (q =? 0)%nat then Nat.min (i + todo) r - Nat.min i r else todo.
Proof.
  induction todo as [|todo IH]; intros i start Hfit; simpl.
  - destruct (q =? 0)%nat; lia.
  - cbn [span] in Hfit. rewrite batch_len_unfold, slice_from, length_app.
    rewrite IH by lia.
    assert (Hlen : length (take (batch_len q r i) (drop start elements))
                   = batch_len q r i).
    { rewrite length_take, length_drop. lia. }
    unfold batch_len, bump in *.
    destruct (take _ (drop start elements)) as [|x b];
      cbn [length nonempty app] in *;
      destruct (Nat.eqb_spec q 0); destruct (Nat.ltb_spec i r); lia.
Qed.

End BatchCount.

Lemma divide_elements_into_batches_shape {A : Type}
    (elements : list A) (num_batches : nat) :
  0 < num_batches ->
  exists batches,
    _divide_elements_into_batches elements num_batches = Ok batches
    /\ length batches = Nat.min (length elements) num_batches
    /\ Forall (fun batch => batch <> []) batches
    /\ concat batches = elements.
Proof.
  intros HK. unfold _divide_elements_into_batches.
  destruct num_batches as [|n]; [lia|].
  set (K := S n) in *. set (N := length elements).
  set (q := N / K). set (r := N mod K).
  pose proof (Nat.div_mod N K ltac:(lia)) as Hdm. fold q r in Hdm.
  pose proof (Nat.mod_upper_bound N K ltac:(lia)) as Hr. fold r in Hr.
  eexists. split; [reflexivity|].
  split; [|split; [apply batches_from_nonempty|]].
  - rewrite batches_from_length.
    + destruct (Nat.eqb_spec q 0) as [Hq|Hq]; [lia|].
      assert (K <= N); [|lia].
      destruct q; [lia|]. nia.
    + rewrite span_closed. lia.
  - rewrite concat_batches_from, span_closed, drop_0.
    apply take_ge. fold N. lia.
Qed.

(** X7.  For [K > 0] workers the division yields [min N K] batches, none of them
    empty: never more batches than workers or than elements, and no batch at
    all for an empty list. *)
Theorem divide_elements_into_batches_count {A : Type}
    (elements : list A) (num_batches : nat) :
  0 < num_batches ->
  exists batches,
    _divide_elements_into_batches elements num_batches = Ok batches
    /\ length batches = Nat.min (length elements) num_batches
    /\ Forall (fun batch => batch <> []) batches.
Proof.
  intros HK.
  destruct (divide_elements_into_batches_shape elements num_batches HK)
    as (batches & Hdiv & Hlen & Hne & _).
  exists batches. auto.
Qed.

Lemma divide_elements_into_batches_count_witness :
  exists batches,
    _divide_elements_into_batches [1; 2] 3 = Ok batches /\ length batches = 2.
Proof.
  destruct (divide_elements_into_batches_count [1; 2] 3 ltac:(lia))
    as (batches & Hb & Hlen & _).
  exists batches. split; assumption.
Defined.

(** ** The concurrent run *)

Lemma imap_lookup_test_in_batch url batch : forall (driver : Session) k,
  _test_element_batch batch driver url !! k
  = (fun element_info => test_in_batch url (driver k) element_info) <$> batch !! k.
Proof.
  unfold _test_element_batch. intros driver k. rewrite list_lookup_imap. reflexivity.
Qed.

Lemma test_element_batch_infos url batch : forall (driver : Session),
  map res_element_info (_test_element_batch batch driver url) = batch.
Proof.
  unfold _test_element_batch.
  induction batch as [|element_info batch IH]; intros driver; simpl; [reflexivity|].
  rewrite test_in_batch_info. f_equal. apply (IH (fun i => driver (S i))).
Qed.

Lemma test_in_batch_error url step element_info :
  (res_click_status (test_in_batch url step element_info) = "batch_error"
   <-> exists e, batch_navigation url step = Raise e)
  /\ (forall e, batch_navigation url step = Raise e ->
        test_in_batch url step element_info
        = batch_error_result element_info url e)
  /\ (batch_navigation url step = Ok tt ->
      test_in_batch url step element_info
      = _test_element_click_with_driver (step_click_env step) element_info).
Proof.
  unfold test_in_batch, batch_navigation.
  destruct (_ ← step_current_url step; _) as [[]|e]; split.
  - split; [|intros [e He]; discriminate].
    intros Hs. pose proof (with_driver_classified (step_click_env step) element_info)
      as Hin. rewrite Hs in Hin. exfalso. simpl in Hin. intuition discriminate.
  - split; [intros e He; discriminate|reflexivity].
  - split; [eauto|reflexivity].
  - split; [intros e' He; injection He as <-; reflexivity|discriminate].
Qed.

(** X8.  [_test_element_batch] returns one result per element of the batch, in
    batch order and for that element.  The result is a [batch_error] exactly
    when reading the session URL or the re-navigation raised; it then
    carries the target URL as [url_before] and [url_after] and the text of
    the exception.  Otherwise it is the result of the per-session
    classifier. *)
Theorem test_element_batch_one_result_each
    (batch : list ElementInfo) (driver : Session) (url : string) :
  length (_test_element_batch batch driver url) = length batch
  /\ map res_element_info (_test_element_batch batch driver url) = batch
  /\ (forall k element_info,
        batch !! k = Some element_info ->
        exists result,
          _test_element_batch batch driver url !! k = Some result
          /\ (res_click_status result = "batch_error"
              <-> exists e, batch_navigation url (driver k) = Raise e)
          /\ (forall e, batch_navigation url (driver k) = Raise e ->
                result = batch_error_result element_info url e)
          /\ (batch_navigation url (driver k) = Ok tt ->
              result = _test_element_click_with_driver
                         (step_click_env (driver k)) element_info)).
Proof.
  split; [|split].
  - rewrite <- (length_map res_element_info), test_element_batch_infos.
    reflexivity.
  - apply test_element_batch_infos.
  - intros k element_info Hk. eexists. split.
    + rewrite imap_lookup_test_in_batch, Hk. reflexivity.
    + apply test_in_batch_error.
Qed.

Lemma test_element_batch_one_result_each_witness :
  _test_element_batch [descriptor about_link] broken_session "https://example.test/"
  = [batch_error_result (descriptor about_link) "https://example.test/"
       (Exn OtherException "chrome not reachable")].
Proof.
  destruct (test_element_batch_one_result_each [descriptor about_link]
              broken_session "https://example.test/") as (Hlen & _ & Hk).
  destruct (Hk 0 (descriptor about_link) eq_refl) as (result & Hr & _ & Herr & _).
  rewrite (Herr _ eq_refl) in Hr.
  destruct (_test_element_batch _ _ _) as [|r [|]]; try discriminate.
  simpl in Hr. injection Hr as ->. reflexivity.
Defined.

Lemma submit_batches_ok url driver_pool batches : forall i,
  i + length batches <= length driver_pool ->
  exists futures,
    submit_batches url driver_pool i batches = Ok futures
    /\ map (map res_element_info) futures = batches.
Proof.
  induction batches as [|batch rest IH]; intros i Hfit; simpl.
  - exists []. split; reflexivity.
  - simpl in Hfit.
    destruct (driver_pool !! i) as [driver|] eqn:Hd.
    2:{ apply lookup_ge_None in Hd. lia. }
    destruct (IH (S i) ltac:(lia)) as (futures & -> & Hinfos).
    eexists. split; [reflexivity|]. simpl.
    rewrite test_element_batch_infos, Hinfos. reflexivity.
Qed.

Lemma collect_results_in_order futures completion : forall t,
  run_results (collect_results futures completion t)
  = run_results t ++ concat (in_completion_order futures completion)
  /\ run_elements_tested (collect_results futures completion t)
     = run_elements_tested t
       + length (concat (in_completion_order futures completion))
  /\ run_url (collect_results futures completion t) = run_url t
  /\ run_total_elements_found (collect_results futures completion t)
     = run_total_elements_found t.
Proof.
  unfold collect_results, in_completion_order.
  induction completion as [|i completion IH]; intros t; simpl.
  - rewrite app_nil_r. auto with arith.
  - destruct (IH (match futures !! i with
                  | Some batch_results => extend_results batch_results t
                  | None => t
                  end)) as (-> & -> & -> & ->).
    destruct (futures !! i) as [batch_results|]; simpl;
      rewrite ?length_app, <- ?app_assoc; repeat split; lia.
Qed.

Lemma in_submission_order (futures : list (list ClickResult)) :
  in_completion_order futures (seq 0 (length futures)) = futures.
Proof.
  unfold in_completion_order.
  apply list_eq. intros k. rewrite list_lookup_fmap.
  destruct (futures !! k) as [f|] eqn:Hk.
  - rewrite (lookup_seq_lt _ _ k)
      by (apply lookup_lt_Some in Hk; exact Hk).
    simpl. rewrite Hk. reflexivity.
  - rewrite lookup_seq_ge by (apply lookup_ge_None in Hk; exact Hk).
    reflexivity.
Qed.

Lemma Permutation_concat_lists {A} (l1 l2 : list (list A)) :
  Permutation l1 l2 -> Permutation (concat l1) (concat l2).
Proof.
  induction 1 as [|x l1 l2 _ IH|x y l|l1 l2 l3 _ IH1 _ IH2]; simpl.
  - constructor.
  - apply Permutation_app_head, IH.
  - rewrite !app_assoc. apply Permutation_app_tail, Permutation_app_comm.
  - etransitivity; eassumption.
Qed.

Lemma count_fold_fields results : forall t,
  run_url (fold_left (fun t result => count_result result t) results t) = run_url t
  /\ run_total_elements_found
       (fold_left (fun t result => count_result result t) results t)
     = run_total_elements_found t.
Proof.
  induction results as [|r results IH]; intros t; simpl; [auto|].
  destruct (IH (count_result r t)) as (-> & ->).
  unfold count_result. repeat case_match; auto.
Qed.

Lemma count_results_fields t :
  run_results (count_results t) = run_results t
  /\ run_elements_tested (count_results t) = run_elements_tested t
  /\ run_url (count_results t) = run_url t
  /\ run_total_elements_found (count_results t) = run_total_elements_found t.
Proof.
  unfold count_results. split; [apply run_results_count_fold|].
  split; [apply count_fold_counters|]. apply count_fold_fields.
Qed.

(** What a concurrent run returns, given what discovery returned and the
    sessions that could be started. *)
Lemma concurrent_run_unfold url clickable_elements driver_pool completion :
  driver_pool <> [] ->
  exists batches futures,
    _divide_elements_into_batches clickable_elements (length driver_pool)
    = Ok batches
    /\ length batches = Nat.min (length clickable_elements) (length driver_pool)
    /\ map (map res_element_info) futures = batches
    /\ concat batches = clickable_elements
    /\ run_comprehensive_test_concurrent url (Ok clickable_elements)
         driver_pool completion
       = Completed
           (count_results
              (collect_results futures completion
                 (initial_test_results url (length clickable_elements)))).
Proof.
  intros Hpool.
  assert (HK : 0 < length driver_pool) by (destruct driver_pool; simpl; [congruence|lia]).
  destruct (divide_elements_into_batches_shape clickable_elements _ HK)
    as (batches & Hdiv & Hlen & _ & Hcat).
  destruct (submit_batches_ok url driver_pool batches 0 ltac:(lia))
    as (futures & Hsub & Hinfos).
  exists batches, futures. split; [exact Hdiv|]. split; [exact Hlen|].
  split; [exact Hinfos|]. split; [exact Hcat|].
  unfold run_comprehensive_test_concurrent. unfold mbind, res_bind.
  destruct driver_pool as [|d pool]; [congruence|]. cbn [nonempty].
  rewrite Hdiv, Hsub. reflexivity.
Qed.

(** X9.  Once discovery has returned and at least one session has started, the
    concurrent run completes: the division cannot divide by zero and no
    batch is left without a session.  Without a session the run fails with
    the pool message, and a discovery that raises fails the run with its
    message. *)
Theorem concurrent_run_completes
    (url : string) (clickable_elements : list ElementInfo)
    (driver_pool : list Session) (completion : list nat) :
  (driver_pool <> [] ->
   exists t,
     run_comprehensive_test_concurrent url (Ok clickable_elements) driver_pool
       completion = Completed t
     /\ run_url t = url
     /\ run_total_elements_found t = length clickable_elements)
  /\ run_comprehensive_test_concurrent url (Ok clickable_elements) [] completion
     = Failed "Failed to initialize driver pool"
  /\ (forall e,
        run_comprehensive_test_concurrent url (Raise e) driver_pool completion
        = Failed (exn_str e)).
Proof.
  split; [|split; [reflexivity|reflexivity]].
  intros Hpool.
  destruct (concurrent_run_unfold url clickable_elements driver_pool completion
              Hpool) as (batches & futures & _ & _ & _ & _ & ->).
  eexists. split; [reflexivity|].
  destruct (count_results_fields
              (collect_results futures completion
                 (initial_test_results url (length clickable_elements))))
    as (_ & _ & -> & ->).
  destruct (collect_results_in_order futures completion
              (initial_test_results url (length clickable_elements)))
    as (_ & _ & -> & ->).
  split; reflexivity.
Qed.

Lemma concurrent_run_completes_witness :
  exists t,
    run_comprehensive_test_concurrent "https://example.test/"
      (Ok [descriptor about_link]) [healthy_session; broken_session] []
    = Completed t
    /\ run_total_elements_found t = 1.
Proof.
  destruct (proj1 (concurrent_run_completes "https://example.test/"
                     [descriptor about_link] [healthy_session; broken_session] [])
              ltac:(discriminate)) as (t & Hrun & _ & Hfound).
  exists t. split; assumption.
Defined.

(** X10.  When every batch completes, in whatever order, the concurrent run has
    tested every discovered element exactly once: the descriptors of its
    results are a permutation of the discovered list, and in discovery order
    if the batches complete in submission order; [elements_tested] equals
    [total_elements_found]. *)
Theorem concurrent_run_tests_each_once
    (url : string) (clickable_elements : list ElementInfo)
    (driver_pool : list Session) (completion : list nat) :
  driver_pool <> [] ->
  Permutation completion
    (seq 0 (Nat.min (length clickable_elements) (length driver_pool))) ->
  exists t,
    run_comprehensive_test_concurrent url (Ok clickable_elements) driver_pool
      completion = Completed t
    /\ Permutation (map res_element_info (run_results t)) clickable_elements
    /\ run_elements_tested t = length clickable_elements
    /\ run_total_elements_found t = length clickable_elements
    /\ (completion
        = seq 0 (Nat.min (length clickable_elements) (length driver_pool)) ->
        map res_element_info (run_results t) = clickable_elements).
Proof.
  intros Hpool Hperm.
  destruct (concurrent_run_unfold url clickable_elements driver_pool completion
              Hpool) as (batches & futures & _ & Hlen & Hinfos & Hcat & ->).
  eexists. split; [reflexivity|].
  set (t0 := initial_test_results url (length clickable_elements)).
  destruct (count_results_fields (collect_results futures completion t0))
    as (-> & -> & _ & ->).
  destruct (collect_results_in_order futures completion t0)
    as (-> & -> & _ & ->).
  assert (Hn : length futures
               = Nat.min (length clickable_elements) (length driver_pool)).
  { rewrite <- Hlen, <- Hinfos, length_map. reflexivity. }
  rewrite <- Hn in *.
  assert (Hall : map res_element_info (concat futures) = clickable_elements).
  { rewrite <- Hcat, <- Hinfos. clear.
    induction futures as [|f futures IH]; simpl; [reflexivity|].
    rewrite map_app, IH. reflexivity. }
  assert (Hp : Permutation (concat (in_completion_order futures completion))
                 (concat futures)).
  { apply Permutation_concat_lists.
    rewrite <- (in_submission_order futures) at 2.
    unfold in_completion_order. apply Permutation_map. exact Hperm. }
  simpl. split; [|split; [|split]].
  - rewrite <- Hall. apply Permutation_map. exact Hp.
  - rewrite (Permutation_length Hp), <- (length_map res_element_info), Hall.
    reflexivity.
  - reflexivity.
  - intros ->. rewrite in_submission_order. exact Hall.
Qed.

Lemma concurrent_run_tests_each_once_witness :
  exists t,
    run_comprehensive_test_concurrent "https://example.test/"
      (Ok [descriptor about_link; descriptor hash_button; descriptor promo_link])
      [healthy_session; broken_session] [1; 0] = Completed t
    /\ run_elements_tested t = 3.
Proof.
  destruct (concurrent_run_tests_each_once "https://example.test/"
              [descriptor about_link; descriptor hash_button;
               descriptor promo_link]
              [healthy_session; broken_session] [1; 0]
              ltac:(discriminate) (perm_swap 0 1 []))
    as (t & Hrun & _ & Htested & _).
  exists t. split; assumption.
Defined.

(** ** The locator, continued *)

Lemma first_matching_sound check_displayed element_info candidates element :
  first_matching check_displayed element_info candidates = Ok (Some element) ->
  In element candidates
  /\ el_stale element = false
  /\ accepts_hidden element_info element = true
  /\ (check_displayed = true -> el_is_displayed element = true).
Proof.
  induction candidates as [|c candidates IH]; simpl; [discriminate|].
  unfold candidate_matches, command, mbind, res_bind, accepts_hidden.
  destruct (el_stale c) eqn:Hs; [discriminate|].
  destruct ((if check_displayed then el_is_displayed c else true)
            && String.eqb (el_tag_name c) (info_tag_name element_info)
            && String.eqb (displayed_text c) (info_text element_info)) eqn:Hm.
  - intros Heq. injection Heq as <-.
    apply andb_prop in Hm as [Hm Htext]. apply andb_prop in Hm as [Hd Htag].
    rewrite Htag, Htext. repeat split; auto.
    intros ->. exact Hd.
  - intros Hrest. destruct (IH Hrest) as (Hin & H1 & H2 & H3). auto.
Qed.

Lemma try_strategies_sound check_displayed find_elements element_info element :
  forall strats,
  try_strategies check_displayed find_elements element_info strats = Some element ->
  el_stale element = false
  /\ accepts_hidden element_info element = true
  /\ (check_displayed = true -> el_is_displayed element = true)
  /\ exists by_ value candidates,
       In (Some (by_, value)) strats
       /\ find_elements by_ value = Ok candidates
       /\ In element candidates.
Proof.
  induction strats as [|[[by_ value]|] strats IH]; simpl; [discriminate| |].
  - unfold mbind, res_bind.
    destruct (find_elements by_ value) as [candidates|] eqn:Hfind.
    + destruct (first_matching check_displayed element_info candidates)
        as [[found|]|] eqn:Hfm.
      * intros Heq. injection Heq as ->.
        apply first_matching_sound in Hfm as (Hin & H1 & H2 & H3).
        repeat split; auto. exists by_, value, candidates. auto.
      * intros Hrest. destruct (IH Hrest) as (H1 & H2 & H3 & b & v & c & Hb & Hc).
        repeat split; auto. exists b, v, c. split; [right|]; tauto.
      * intros Hrest. destruct (IH Hrest) as (H1 & H2 & H3 & b & v & c & Hb & Hc).
        repeat split; auto. exists b, v, c. split; [right|]; tauto.
    + intros Hrest. destruct (IH Hrest) as (H1 & H2 & H3 & b & v & c & Hb & Hc).
      repeat split; auto. exists b, v, c. split; [right|]; tauto.
  - intros Hrest. destruct (IH Hrest) as (H1 & H2 & H3 & b & v & c & Hb & Hc).
    repeat split; auto. exists b, v, c. split; [right|]; tauto.
Qed.

(** X11.  Whatever the locators return was among the candidates of one of the
    strategies of the descriptor, is a live handle, and has the tag name and
    truncated text of the descriptor; the document-wide locator returns
    displayed elements only. *)
Theorem locator_sound
    (find_elements : By -> string -> Res (list WebElement))
    (element_info : ElementInfo) (element : WebElement) :
  (_find_element_by_info find_elements element_info = Some element ->
   el_stale element = false
   /\ el_is_displayed element = true
   /\ el_tag_name element = info_tag_name element_info
   /\ displayed_text element = info_text element_info
   /\ among_candidates find_elements element_info element)
  /\ (_find_element_by_info_in_container element_info find_elements = Some element ->
      el_stale element = false
      /\ el_tag_name element = info_tag_name element_info
      /\ displayed_text element = info_text element_info
      /\ among_candidates find_elements element_info element).
Proof.
  split; intros Hloc; apply try_strategies_sound in Hloc
    as (Hlive & Hacc & Hdisp & Hamong);
    apply andb_prop in Hacc as [Htag Htext];
    apply String.eqb_eq in Htag; apply String.eqb_eq in Htext;
    repeat split; auto.
Qed.

Lemma locator_sound_witness :
  el_is_displayed about_link_twin = true
  /\ displayed_text about_link_twin = info_text (descriptor about_link).
Proof.
  destruct (proj1 (locator_sound
                     (fun _ _ => Ok [hidden about_link; about_link_twin])
                     (descriptor about_link) about_link_twin) eq_refl)
    as (_ & Hd & _ & Ht & _).
  split; assumption.
Defined.

Lemma try_strategies_none check_displayed find_elements element_info strats :
  Forall (fun s => s = None) strats ->
  try_strategies check_displayed find_elements element_info strats = None.
Proof. induction 1 as [|s strats -> _ IH]; simpl; auto. Qed.

(** X12.  A descriptor with an empty identifier, no class and the path marker
    ['xpath_unavailable'] leaves the locators without a strategy: whatever
    the page holds, nothing is found, and a classification whose first two
    reads succeed ends in [element_not_found]. *)
Theorem locator_without_strategy
    (find_elements : By -> string -> Res (list WebElement))
    (element_info : ElementInfo) :
  info_id element_info = "" ->
  info_xpath element_info = "xpath_unavailable" ->
  info_class_names element_info = "" ->
  _find_element_by_info find_elements element_info = None
  /\ _find_element_by_info_in_container element_info find_elements = None
  /\ (forall env initial_url initial_title,
        env_url_before env = Ok initial_url ->
        env_title_before env = Ok initial_title ->
        res_click_status (_test_element_click_with_driver env element_info)
        = "element_not_found"
        /\ res_click_status (test_element_click env element_info)
           = "element_not_found").
Proof.
  intros Hid Hxpath Hclass.
  assert (Hs : strategies element_info = [None; None; None]).
  { unfold strategies. rewrite Hid, Hxpath, Hclass. reflexivity. }
  assert (Hdoc : forall find, _find_element_by_info find element_info = None).
  { intros find. unfold _find_element_by_info. rewrite Hs. reflexivity. }
  assert (Hcont : forall find,
             _find_element_by_info_in_container element_info find = None).
  { intros find. unfold _find_element_by_info_in_container. rewrite Hs.
    reflexivity. }
  split; [apply Hdoc|]. split; [apply Hcont|].
  intros env u0 t0 Hu Ht.
  assert (Hloc : locate_for_click env element_info = None).
  { unfold locate_for_click, _find_and_prepare_carousel_element.
    destruct (is_carousel_element element_info); [|apply Hdoc].
    destruct (env_carousel_containers env) as [containers|]; [|reflexivity].
    induction containers as [|c containers IH]; simpl; [reflexivity|].
    rewrite Hcont. exact IH. }
  split.
  - unfold _test_element_click_with_driver, try_except, click_test_body,
      call, update.
    rewrite Hdoc. unfold mbind, classify_bind. rewrite Hu, Ht. reflexivity.
  - unfold test_element_click, try_except, click_test_body, call, update.
    rewrite Hloc. unfold mbind, classify_bind. rewrite Hu, Ht. reflexivity.
Qed.

Lemma locator_without_strategy_witness :
  res_click_status
    (test_element_click (click_env [about_link] "" "" [] []) bare_descriptor)
  = "element_not_found".
Proof.
  destruct (locator_without_strategy (fun _ _ => Ok [about_link])
              bare_descriptor eq_refl eq_refl eq_refl) as (_ & _ & Hcls).
  apply (Hcls (click_env [about_link] "" "" [] [])
           "https://example.test/" "Home" eq_refl eq_refl).
Defined.

Lemma extracted_text_displayed element :
  extracted_text element = displayed_text element.
Proof.
  unfold extracted_text, displayed_text.
  destruct (el_text element); reflexivity.
Qed.

Lemma try_strategies_finds find_elements element_info element : forall strats,
  el_stale element = false ->
  accepts element_info element = true ->
  (exists s, In (Some s) strats) ->
  (forall by_ value, In (Some (by_, value)) strats ->
     exists before after,
       find_elements by_ value = Ok (before ++ element :: after)
       /\ Forall (passed_over element_info) before) ->
  try_strategies true find_elements element_info strats = Some element.
Proof.
  intros strats Hlive Hacc.
  induction strats as [|[[by_ value]|] strats IH]; intros [s Hs] Hall.
  - destruct Hs.
  - destruct (Hall by_ value ltac:(left; reflexivity))
      as (before & after & Hfind & Hbefore).
    simpl. rewrite Hfind. unfold mbind at 1, res_bind.
    rewrite (first_matching_passed_over _ _ _ Hbefore). simpl.
    rewrite (candidate_matches_live _ _ Hlive), Hacc. reflexivity.
  - simpl. apply IH.
    + destruct Hs as [Hs|Hs]; [discriminate|eauto].
    + intros b v Hin. apply Hall. right. exact Hin.
Qed.

Section LocateExtracted.
Context `{Digests}.

(** X13.  Round trip of a descriptor: the descriptor extracted from a live,
    displayed element that has an identifier, a path or a class leads the
    locator back to that element, provided each query of the descriptor still
    returns the element and no accepted candidate or stale handle precedes
    it. *)
Theorem locate_extracted_element
    (find_elements : By -> string -> Res (list WebElement))
    (element : WebElement) :
  el_stale element = false ->
  el_is_displayed element = true ->
  (exists s, In (Some s) (strategies (regular_info element))) ->
  (forall by_ value,
     In (Some (by_, value)) (strategies (regular_info element)) ->
     exists before after,
       find_elements by_ value = Ok (before ++ element :: after)
       /\ Forall (passed_over (regular_info element)) before) ->
  _find_element_by_info find_elements (regular_info element) = Some element.
Proof.
  intros Hlive Hdisp Hsome Hall.
  apply try_strategies_finds; auto.
  unfold accepts. simpl. rewrite Hdisp, extracted_text_displayed.
  rewrite !String.eqb_refl. reflexivity.
Qed.

End LocateExtracted.

Lemma locate_extracted_element_witness :
  _find_element_by_info (fun _ _ => Ok [promo_link; about_link])
    (descriptor about_link) = Some about_link.
Proof.
  apply (@locate_extracted_element example_digests
           (fun _ _ => Ok [promo_link; about_link]) about_link eq_refl eq_refl).
  - exists (By_XPATH, "//a"). right. left. reflexivity.
  - intros by_ value _. exists [promo_link], []. split; [reflexivity|].
    repeat constructor.
Defined.

Lemma first_matching_without_display element_info candidates element :
  first_matching true element_info candidates = Ok (Some element) ->
  exists element',
    first_matching false element_info candidates = Ok (Some element').
Proof.
  induction candidates as [|c candidates IH]; simpl; [discriminate|].
  unfold candidate_matches, command, mbind, res_bind.
  destruct (el_stale c); [discriminate|].
  destruct (el_is_displayed c); simpl.
  - destruct (_ && _); [eauto|exact IH].
  - destruct (_ && _); [eauto|exact IH].
Qed.

Lemma first_matching_true_none element_info candidates :
  first_matching true element_info candidates = Ok None ->
  exists found, first_matching false element_info candidates = Ok found.
Proof.
  induction candidates as [|c candidates IH]; simpl; [eauto|].
  unfold candidate_matches, command, mbind, res_bind.
  destruct (el_stale c); [discriminate|].
  destruct (el_is_displayed c); simpl.
  - destruct (_ && _); [discriminate|exact IH].
  - destruct (_ && _); [eauto|exact IH].
Qed.

(** X14.  The in-container locator, which does not ask whether a candidate is
    displayed, finds an element whenever the document-wide locator finds one
    with the same queries. *)
Theorem container_locator_finds_more
    (find_elements : By -> string -> Res (list WebElement))
    (element_info : ElementInfo) (element : WebElement) :
  _find_element_by_info find_elements element_info = Some element ->
  exists element',
    _find_element_by_info_in_container element_info find_elements = Some element'.
Proof.
  unfold _find_element_by_info, _find_element_by_info_in_container.
  generalize (strategies element_info). intros strats.
  induction strats as [|[[by_ value]|] strats IH]; simpl; [discriminate| |exact IH].
  unfold mbind, res_bind.
  destruct (find_elements by_ value) as [candidates|]; [|exact IH].
  destruct (first_matching true element_info candidates) as [[found|]|] eqn:Ht.
  - intros _. apply first_matching_without_display in Ht as [element' ->]. eauto.
  - intros Hrest. apply first_matching_true_none in Ht as [[found|] ->];
      [eauto|exact (IH Hrest)].
  - intros Hrest.
    destruct (first_matching false element_info candidates) as [[found|]|];
      [eauto|exact (IH Hrest)|exact (IH Hrest)].
Qed.

Lemma container_locator_finds_more_witness :
  exists element',
    _find_element_by_info_in_container (descriptor about_link)
      (fun _ _ => Ok [hidden about_link; about_link_twin]) = Some element'.
Proof.
  apply (container_locator_finds_more
           (fun _ _ => Ok [hidden about_link; about_link_twin])
           (descriptor about_link) about_link_twin).
  reflexivity.
Defined.

(** ** Discovery, continued *)

Section DiscoveryInvariants.
Context `{Digests}.
Implicit Types (seen : gset string).

Lemma first_seen_wins_NoDup seen met :
  NoDup (map info_unique_id (first_seen_wins seen met)).
Proof.
  revert seen. induction met as [|[e m] met IH]; intros seen; simpl.
  - constructor.
  - destruct (bool_decide (fingerprint e ∈ seen)) eqn:Hs; simpl; [apply IH|].
    destruct (extraction_completes e); simpl; [|apply IH].
    apply NoDup_cons. split; [|apply IH].
    rewrite set_detection_method_unique_id. simpl.
    intros Hin. apply list_elem_of_In, in_map_iff in Hin as (d & Hid & Hin).
    apply (first_seen_wins_fresh _ _ _ _ Hin Hid). apply seen_with_fingerprint.
Qed.

Lemma eligible_In ic elements element :
  In element (eligible ic elements) ->
  In element elements
  /\ el_stale element = false
  /\ el_is_displayed element = true
  /\ el_is_enabled element = true
  /\ el_in_header_or_footer element = false
  /\ ic element = false.
Proof.
  unfold eligible. rewrite filter_In. intros [Hin Hf].
  split; [exact Hin|]. unfold passes_filters, command in Hf.
  destruct (el_stale element); [discriminate|].
  apply andb_prop in Hf as [Hf Hc]. apply andb_prop in Hf as [Hf Hh].
  apply andb_prop in Hf as [Hd He].
  apply negb_true_iff in Hc. apply negb_true_iff in Hh. auto.
Qed.

Lemma encounters_eligible ic catalogue page element method :
  In (element, method) (encounters ic catalogue page) ->
  el_stale element = false
  /\ el_is_displayed element = true
  /\ el_is_enabled element = true
  /\ el_in_header_or_footer element = false
  /\ ic element = false.
Proof.
  unfold encounters, tagged. rewrite !in_app_iff, !in_map_iff.
  intros [(e & Heq & Hin)|[(e & Heq & Hin)|(e & Heq & Hin)]];
    injection Heq as -> _.
  - apply in_concat in Hin as (l & Hl & Hin).
    apply in_map_iff in Hl as (selector & <- & _).
    apply eligible_In in Hin. tauto.
  - apply eligible_In in Hin. tauto.
  - apply eligible_In in Hin. tauto.
Qed.

(** What every descriptor of a carousel sweep satisfies, given what the
    extractor guarantees for a live, enabled element. *)
Lemma carousel_sweep_Forall (P : ElementInfo -> Prop)
    (extract_hidden : WebElement -> option ElementInfo) catalogue page :
  (forall element element_info,
     el_stale element = false -> el_is_enabled element = true ->
     extract_hidden element = Some element_info -> P element_info) ->
  Forall P (carousel_sweep extract_hidden catalogue page).
Proof.
  intros HP. apply Forall_forall. intros d Hin. apply list_elem_of_In in Hin.
  unfold carousel_sweep in Hin.
  apply in_concat in Hin as (l1 & Hl1 & Hin).
  apply in_map_iff in Hl1 as (selector & <- & _).
  apply in_concat in Hin as (l2 & Hl2 & Hin).
  apply in_map_iff in Hl2 as (carousel & <- & _).
  destruct (_ && _); [|destruct Hin].
  unfold _handle_carousel_banner in Hin.
  destruct (car_slides carousel) as [[slides|]|]; try destruct Hin.
  apply in_concat in Hin as (l3 & Hl3 & Hin).
  apply in_map_iff in Hl3 as (slide & <- & _).
  unfold _extract_clickables_from_slide in Hin.
  destruct (slide_make_visible slide); [|destruct Hin].
  assert (Hce : forall elements,
             In d (collect_enabled extract_hidden elements) -> P d).
  { induction elements as [|x xs IHx]; simpl; [intros []|].
    unfold command. destruct (el_stale x) eqn:Hs; [intros []|].
    intros Hx. apply in_app_iff in Hx as [Hx|Hx]; [|exact (IHx Hx)].
    destruct (el_is_enabled x) eqn:He; [|destruct Hx].
    destruct (extract_hidden x) as [d'|] eqn:Hd; [|destruct Hx].
    destruct Hx as [<-|[]]. eapply HP; eauto. }
  apply in_app_iff in Hin as [Hin|Hin];
    apply in_concat in Hin as (l4 & Hl4 & Hin);
    apply in_map_iff in Hl4 as (arg & <- & _);
    exact (Hce _ Hin).
Qed.

Lemma optimized_hidden_flags element element_info :
  el_stale element = false -> el_is_enabled element = true ->
  Optimized._extract_element_info_for_hidden element = Some element_info ->
  info_is_carousel_element element_info = Some true
  /\ info_is_displayed element_info = true
  /\ info_is_enabled element_info = true.
Proof.
  intros Hs He. unfold Optimized._extract_element_info_for_hidden, command.
  rewrite Hs. intros Heq. injection Heq as <-. simpl. auto.
Qed.

(** The shape of what a discovery pass returns. *)
Lemma discovery_shape ic extract_hidden aux catalogue page seen found seen' :
  find_clickable_elements_with ic extract_hidden aux catalogue page seen
  = Ok (found, seen') ->
  found = first_seen_wins seen (encounters ic catalogue page)
          ++ carousel_sweep extract_hidden catalogue page
  /\ seen' = seen_after seen (encounters ic catalogue page).
Proof.
  intros Hfind.
  assert (Hload : page_load page = Ok tt).
  { unfold find_clickable_elements_with in Hfind.
    destruct (page_load page) as [[]|]; [reflexivity|discriminate]. }
  rewrite (find_clickable_elements_with_spec _ _ _ _ _ _ Hload) in Hfind.
  injection Hfind as <- <-. auto.
Qed.

Lemma discovery_fingerprints ic extract_hidden aux catalogue page seen found seen' :
  (forall element element_info,
     el_stale element = false -> el_is_enabled element = true ->
     extract_hidden element = Some element_info ->
     info_is_carousel_element element_info = Some true) ->
  find_clickable_elements_with ic extract_hidden aux catalogue page seen
  = Ok (found, seen') ->
  exists regular carousel,
    found = regular ++ carousel
    /\ NoDup (map info_unique_id regular)
    /\ Forall (fun d => exists digest,
                 info_unique_id d = Md5Hex digest
                 /\ (digest ∉ seen) /\ (digest ∈ seen')) regular
    /\ Forall (fun d => info_is_carousel_element d = Some true) carousel
    /\ seen ⊆ seen'.
Proof.
  intros Hextract Hfind. apply discovery_shape in Hfind as [-> ->].
  eexists. eexists. split; [reflexivity|].
  split; [apply first_seen_wins_NoDup|]. split; [|split].
  - apply Forall_forall. intros d Hin. apply list_elem_of_In in Hin.
    apply first_seen_wins_origin in Hin as (e & m & Hin & -> & Hnew & _).
    exists (fingerprint e). rewrite set_detection_method_unique_id.
    split; [reflexivity|]. split; [exact Hnew|].
    eapply seen_after_fingerprint. exact Hin.
  - apply carousel_sweep_Forall. exact Hextract.
  - intros digest Hin. apply seen_after_mono. exact Hin.
Qed.

(** X15.  In either file, what a discovery pass returns splits into the regular
    descriptors and, after them, the carousel descriptors.  No two regular
    descriptors share a [unique_id]; each regular [unique_id] is a
    fingerprint that was not in [seen_elements] before the pass and is in it
    afterwards; [seen_elements] only grows. *)
Theorem discovery_fingerprints_distinct
    (catalogue : Catalogue) (page : Page) (seen : gset string)
    (found : list ElementInfo) (seen' : gset string) :
  Tester.find_clickable_elements catalogue page seen = Ok (found, seen')
  \/ Optimized.find_clickable_elements catalogue page seen = Ok (found, seen') ->
  exists regular carousel,
    found = regular ++ carousel
    /\ NoDup (map info_unique_id regular)
    /\ Forall (fun d => exists digest,
                 info_unique_id d = Md5Hex digest
                 /\ (digest ∉ seen) /\ (digest ∈ seen')) regular
    /\ Forall (fun d => info_is_carousel_element d = Some true) carousel
    /\ seen ⊆ seen'.
Proof.
  intros [Hfind|Hfind]; eapply discovery_fingerprints; try exact Hfind.
  - intros element element_info _ _ Hx.
    rewrite tester_extract_hidden_none in Hx. discriminate.
  - intros element element_info Hs He Hx.
    apply (optimized_hidden_flags element element_info Hs He Hx).
Qed.

Lemma extraction_completes_late_reads element :
  extraction_completes element = true -> el_late_reads element = Ok tt.
Proof.
  unfold extraction_completes.
  destruct (el_late_reads element) as [[]|]; [reflexivity|discriminate].
Qed.

Lemma first_seen_wins_extracted_from ic catalogue page seen element_info :
  In element_info (first_seen_wins seen (encounters ic catalogue page)) ->
  info_is_carousel_element element_info = None
  /\ exists element,
       extracted_from ic catalogue page element_info element
       /\ ic element = false.
Proof.
  intros Hin.
  apply first_seen_wins_origin in Hin as (e & m & Hin & -> & _ & Hc).
  split; [destruct m; reflexivity|].
  pose proof (encounters_eligible _ _ _ _ _ Hin) as (Hs & Hd & He & Hh & Hic).
  exists e. split; [|exact Hic].
  exists m. split; [reflexivity|]. split; [exact Hin|].
  repeat split; try assumption.
  apply extraction_completes_late_reads, Hc.
Qed.

Lemma discovery_origins ic extract_hidden aux catalogue page seen found seen' :
  (forall element element_info,
     el_stale element = false -> el_is_enabled element = true ->
     extract_hidden element = Some element_info ->
     info_is_carousel_element element_info = Some true) ->
  find_clickable_elements_with ic extract_hidden aux catalogue page seen
  = Ok (found, seen') ->
  Forall (fun d =>
            (info_is_carousel_element d = None
             /\ exists element, extracted_from ic catalogue page d element)
            \/ info_is_carousel_element d = Some true)
    found.
Proof.
  intros Hextract Hfind. apply discovery_shape in Hfind as [-> _].
  apply Forall_app; split.
  - apply Forall_forall. intros d Hin. apply list_elem_of_In in Hin.
    apply first_seen_wins_extracted_from in Hin as (Hnone & e & Hfrom & _).
    left. split; [exact Hnone|]. exists e. exact Hfrom.
  - apply (carousel_sweep_Forall
             (fun d => (info_is_carousel_element d = None
                        /\ exists element, extracted_from ic catalogue page d element)
                       \/ info_is_carousel_element d = Some true)).
    intros element element_info Hs He Hx. right.
    apply (Hextract element element_info Hs He Hx).
Qed.

(** X16.  In either file, every descriptor a discovery pass returns either
    carries the carousel mark or was extracted from an element of the page:
    one that a structural, cursor or listener sweep met and let through its
    guard (live, displayed, enabled, outside header and footer), whose
    extraction ran to its end, and whose descriptor carries the tag of that
    sweep. *)
Theorem discovery_descriptors_origin
    (catalogue : Catalogue) (page : Page) (seen : gset string)
    (found : list ElementInfo) (seen' : gset string) :
  (Tester.find_clickable_elements catalogue page seen = Ok (found, seen') ->
   Forall (fun d =>
             (info_is_carousel_element d = None
              /\ exists element,
                   extracted_from Tester._is_carousel_element catalogue page
                     d element)
             \/ info_is_carousel_element d = Some true) found)
  /\ (Optimized.find_clickable_elements catalogue page seen = Ok (found, seen') ->
      Forall (fun d =>
                (info_is_carousel_element d = None
                 /\ exists element,
                      extracted_from Optimized._is_carousel_element catalogue
                        page d element)
                \/ info_is_carousel_element d = Some true) found).
Proof.
  split; intros Hfind; eapply discovery_origins; try exact Hfind.
  - intros element element_info _ _ Hx.
    rewrite tester_extract_hidden_none in Hx. discriminate.
  - intros element element_info Hs He Hx.
    apply (optimized_hidden_flags element element_info Hs He Hx).
Qed.

(** X17.  In the first file a discovery pass returns regular descriptors
    only: what it returns is exactly the first-seen-wins deduplication of
    the elements its three sweeps let through on the page, the carousel path
    adding nothing; no descriptor carries the carousel mark; and every
    descriptor was extracted from an element of the page for which the
    script of [_is_carousel_element] answered no. *)
Theorem tester_returns_regular_descriptors_only
    (catalogue : Catalogue) (page : Page) (seen : gset string)
    (found : list ElementInfo) (seen' : gset string) :
  Tester.find_clickable_elements catalogue page seen = Ok (found, seen') ->
  found = first_seen_wins seen
            (encounters Tester._is_carousel_element catalogue page)
  /\ Forall (fun d =>
               info_is_carousel_element d = None
               /\ exists element,
                    extracted_from Tester._is_carousel_element catalogue page
                      d element
                    /\ el_has_carousel_ancestor element = false)
       found.
Proof.
  intros Hfind. apply discovery_shape in Hfind as [-> _].
  rewrite tester_carousel_sweep_empty, app_nil_r.
  split; [reflexivity|].
  apply Forall_forall. intros d Hin. apply list_elem_of_In in Hin.
  apply first_seen_wins_extracted_from in Hin as (Hnone & e & Hfrom & Hic).
  split; [exact Hnone|]. exists e. split; [exact Hfrom|].
  destruct Hfrom as (m & _ & _ & Hs & _).
  unfold Tester._is_carousel_element, command in Hic. rewrite Hs in Hic.
  exact Hic.
Qed.

(** X18.  A query that raises during discovery counts as one that finds nothing:
    the pass returns what it returns on the page whose failing queries answer
    the empty list.  The pass itself raises only if loading the page does. *)
Theorem discovery_survives_failing_queries
    (catalogue : Catalogue) (page : Page) (seen : gset string) :
  Tester.find_clickable_elements catalogue page seen
  = Tester.find_clickable_elements catalogue (quiet page) seen
  /\ Optimized.find_clickable_elements catalogue page seen
     = Optimized.find_clickable_elements catalogue (quiet page) seen
  /\ (page_load page = Ok tt ->
      exists found seen',
        Tester.find_clickable_elements catalogue page seen = Ok (found, seen'))
  /\ (page_load page = Ok tt ->
      exists found seen',
        Optimized.find_clickable_elements catalogue page seen = Ok (found, seen'))
  /\ (forall e, page_load page = Raise e ->
        Tester.find_clickable_elements catalogue page seen = Raise e
        /\ Optimized.find_clickable_elements catalogue page seen = Raise e).
Proof.
  split; [reflexivity|]. split; [reflexivity|].
  split; [|split].
  - intros Hload. eexists. eexists.
    apply find_clickable_elements_with_spec, Hload.
  - intros Hload. eexists. eexists.
    apply find_clickable_elements_with_spec, Hload.
  - intros e Hload.
    unfold Tester.find_clickable_elements, Optimized.find_clickable_elements,
      find_clickable_elements_with.
    rewrite Hload. split; reflexivity.
Qed.

End DiscoveryInvariants.

Lemma discovery_fingerprints_distinct_witness :
  exists regular carousel,
    descriptors_of
      (@Optimized.find_clickable_elements example_digests example_catalogue
         banner_page ∅) = Ok (regular ++ carousel)
    /\ NoDup (map info_unique_id regular).
Proof.
  pose proof (@find_clickable_elements_with_spec example_digests
                Optimized._is_carousel_element
                (@Optimized._extract_element_info_for_hidden example_digests)
                false
                example_catalogue banner_page ∅ eq_refl) as Hfind.
  destruct (@discovery_fingerprints_distinct example_digests example_catalogue
              banner_page ∅ _ _ (or_intror Hfind))
    as (regular & carousel & Heq & Hnd & _).
  exists regular, carousel. split; [|exact Hnd].
  unfold Optimized.find_clickable_elements, descriptors_of. rewrite Hfind.
  unfold mbind, res_bind. cbn [fst]. rewrite Heq. reflexivity.
Defined.

Lemma discovery_descriptors_origin_witness :
  exists found,
    descriptors_of
      (@Optimized.find_clickable_elements example_digests example_catalogue
         banner_page ∅) = Ok found
    /\ Forall (fun d =>
                 (info_is_carousel_element d = None
                  /\ exists element,
                       @extracted_from example_digests
                         Optimized._is_carousel_element example_catalogue
                         banner_page d element)
                 \/ info_is_carousel_element d = Some true) found.
Proof.
  pose proof (@find_clickable_elements_with_spec example_digests
                Optimized._is_carousel_element
                (@Optimized._extract_element_info_for_hidden example_digests)
                false
                example_catalogue banner_page ∅ eq_refl) as Hfind.
  pose proof (proj2 (@discovery_descriptors_origin example_digests
                       example_catalogue banner_page ∅ _ _) Hfind) as Horigin.
  eexists. split; [|exact Horigin].
  unfold Optimized.find_clickable_elements. rewrite Hfind. reflexivity.
Defined.

Lemma tester_returns_regular_descriptors_only_witness :
  exists found,
    descriptors_of
      (@Tester.find_clickable_elements example_digests example_catalogue
         banner_page ∅) = Ok found
    /\ Forall (fun d => info_is_carousel_element d = None) found.
Proof.
  pose proof (@find_clickable_elements_with_spec example_digests
                Tester._is_carousel_element
                (@Tester._extract_element_info_for_hidden example_digests)
                true
                example_catalogue banner_page ∅ eq_refl) as Hfind.
  destruct (@tester_returns_regular_descriptors_only example_digests
              example_catalogue banner_page ∅ _ _ Hfind) as [_ Hall].
  eexists. split.
  - unfold Tester.find_clickable_elements. rewrite Hfind. reflexivity.
  - eapply Forall_impl; [exact Hall|]. intros d [Hd _]. exact Hd.
Defined.

Lemma discovery_survives_failing_queries_witness :
  exists found seen',
    @Optimized.find_clickable_elements example_digests example_catalogue
      flaky_page ∅ = Ok (found, seen').
Proof.
  apply (@discovery_survives_failing_queries example_digests example_catalogue
           flaky_page ∅).
  reflexivity.
Defined.

(** ** Summaries *)

Lemma count_key_cons k v d key :
  count_key ((k, v) :: d) key
  = if String.eqb k key then (k, v + 1) :: d else (k, v) :: count_key d key.
Proof. unfold count_key. simpl. destruct (String.eqb k key); reflexivity. Qed.

Lemma count_key_nil key : count_key [] key = [(key, 1)].
Proof. reflexivity. Qed.

Lemma count_where_count_key p d key :
  count_where p (count_key d key) = count_where p d + bump (p key).
Proof.
  induction d as [|[k v] d IH].
  - rewrite count_key_nil. unfold count_where. simpl.
    destruct (p key); simpl; lia.
  - rewrite count_key_cons. destruct (String.eqb_spec k key) as [->|Hne].
    + unfold count_where. simpl. destruct (p key); simpl; lia.
    + unfold count_where in *. simpl. destruct (p k); simpl; rewrite IH; lia.
Qed.

Lemma dict_get_count_key d key key' :
  dict_get (count_key d key) key' 0
  = dict_get d key' 0 + bump (String.eqb key key').
Proof.
  induction d as [|[k v] d IH].
  - simpl. destruct (String.eqb key key'); simpl; lia.
  - rewrite count_key_cons. destruct (String.eqb_spec k key) as [->|Hne]; simpl.
    + destruct (String.eqb key key'); simpl; lia.
    + destruct (String.eqb_spec k key') as [->|Hne'].
      * destruct (String.eqb_spec key key'); [congruence|]. simpl. lia.
      * exact IH.
Qed.

Lemma keys_count_key d key :
  map fst (count_key d key)
  = if bool_decide (key ∈ map fst d) then map fst d else map fst d ++ [key].
Proof.
  induction d as [|[k v] d IH].
  - rewrite bool_decide_eq_false_2 by (simpl; apply not_elem_of_nil).
    reflexivity.
  - rewrite count_key_cons. destruct (String.eqb_spec k key) as [->|Hne]; simpl.
    + rewrite bool_decide_eq_true_2 by (apply elem_of_cons; left; reflexivity). reflexivity.
    + rewrite IH. destruct (bool_decide (key ∈ map fst d)) eqn:Hin.
      * apply bool_decide_eq_true in Hin.
        rewrite bool_decide_eq_true_2 by (apply elem_of_cons; right; exact Hin).
        reflexivity.
      * apply bool_decide_eq_false in Hin.
        rewrite bool_decide_eq_false_2; [reflexivity|].
        intros Hx. apply elem_of_cons in Hx as [Hx|Hx]; [congruence|tauto].
Qed.

Lemma positive_count_key d key :
  Forall (fun item => 0 < snd item) d ->
  Forall (fun item => 0 < snd item) (count_key d key).
Proof.
  induction 1 as [|[k v] d Hv Hd IH]; [repeat constructor|].
  rewrite count_key_cons. destruct (String.eqb k key); constructor; simpl in *;
    auto; lia.
Qed.

Lemma NoDup_keys_count_key d key :
  NoDup (map fst d) -> NoDup (map fst (count_key d key)).
Proof.
  intros Hnd. rewrite keys_count_key. case_bool_decide as Hin; [exact Hnd|].
  apply NoDup_app. split; [exact Hnd|]. split; [|apply NoDup_singleton].
  intros x Hx Hk. apply list_elem_of_singleton in Hk. subst x.
  apply Hin. exact Hx.
Qed.

(** What counting a list of keys into a dictionary preserves and adds. *)
Lemma count_keys_spec keys : forall d,
  let d' := fold_left count_key keys d in
  (forall p, count_where p d' = count_where p d + length (List.filter p keys))
  /\ (forall key, dict_get d' key 0 = dict_get d key 0 + mentions key keys)
  /\ (NoDup (map fst d) -> NoDup (map fst d'))
  /\ (Forall (fun item => 0 < snd item) d ->
      Forall (fun item => 0 < snd item) d').
Proof.
  induction keys as [|k keys IH]; intros d; simpl.
  - repeat split; auto; intros; unfold mentions; simpl; lia.
  - destruct (IH (count_key d k)) as (Hw & Hg & Hn & Hp).
    split; [|split; [|split]].
    + intros p. rewrite Hw, count_where_count_key.
      destruct (p k); simpl; lia.
    + intros key. rewrite Hg, dict_get_count_key. unfold mentions. simpl.
      rewrite (String.eqb_sym key k).
      destruct (String.eqb k key); simpl; lia.
    + intros Hnd. apply Hn, NoDup_keys_count_key, Hnd.
    + intros Hpos. apply Hp, positive_count_key, Hpos.
Qed.

Lemma breakdown_as_count_keys results :
  _get_click_status_breakdown results
  = fold_left count_key (map res_click_status results) [].
Proof.
  unfold _get_click_status_breakdown. generalize (@nil (string * nat)).
  induction results as [|r results IH]; intros d; simpl; [reflexivity|apply IH].
Qed.

Lemma filter_map_length {A B} (f : A -> B) (p : B -> bool) (l : list A) :
  length (List.filter p (map f l)) = length (List.filter (fun a => p (f a)) l).
Proof.
  induction l as [|a l IH]; simpl; [reflexivity|].
  destruct (p (f a)); simpl; rewrite IH; reflexivity.
Qed.

Lemma filter_always {A} (l : list A) : List.filter (fun _ => true) l = l.
Proof. induction l as [|a l IH]; simpl; [|rewrite IH]; reflexivity. Qed.

(** X19.  The status breakdown lists every status that occurs once, with the
    number of results that carry it; a status that does not occur is
    absent; the counts add up to the number of results, and the counts of
    the statuses of a bucket add up to the counter of that bucket. *)
Theorem click_status_breakdown_counts (results : list ClickResult) :
  let breakdown := _get_click_status_breakdown results in
  (forall status, dict_get breakdown status 0 = status_count status results)
  /\ NoDup (map fst breakdown)
  /\ Forall (fun item => 0 < snd item) breakdown
  /\ list_sum (map snd breakdown) = length results
  /\ count_where (PyStr.startswith "active") breakdown
     = length (List.filter is_active results)
  /\ count_where (fun status => String.eqb status "dead_click") breakdown
     = length (List.filter is_dead results).
Proof.
  cbv zeta. rewrite breakdown_as_count_keys.
  destruct (count_keys_spec (map res_click_status results) [])
    as (Hw & Hg & Hn & Hp).
  split; [|split; [|split; [|split; [|split]]]].
  - intros status. rewrite Hg. unfold mentions, status_count. simpl.
    rewrite filter_map_length. f_equal.
    apply List.filter_ext. intros r. apply String.eqb_sym.
  - apply Hn. constructor.
  - apply Hp. constructor.
  - pose proof (Hw (fun _ => true)) as H1. unfold count_where in H1.
    simpl in H1.
    rewrite !filter_always in H1. rewrite H1, length_map. reflexivity.
  - rewrite Hw, filter_map_length. reflexivity.
  - rewrite Hw, filter_map_length. simpl. f_equal.
    apply List.filter_ext. intros r. unfold is_dead, is_active.
    destruct (String.eqb_spec (res_click_status r) "dead_click") as [->|];
      [reflexivity|]. rewrite andb_false_r. reflexivity.
Qed.

Lemma class_counts_as_count_keys results :
  class_counts results = fold_left count_key (class_mentions results) [].
Proof.
  unfold class_counts, class_mentions. generalize (@nil (string * nat)).
  induction results as [|r results IH]; intros d; simpl; [reflexivity|].
  rewrite fold_left_app, IH.
  destruct (info_class_names (res_element_info r)); reflexivity.
Qed.

Lemma insert_by_count_perm item sorted :
  Permutation (insert_by_count item sorted) (item :: sorted).
Proof.
  induction sorted as [|other rest IH]; simpl; [reflexivity|].
  destruct (snd other <=? snd item)%nat; [reflexivity|].
  rewrite IH. apply perm_swap.
Qed.

Lemma sorted_by_count_perm items : Permutation (sorted_by_count items) items.
Proof.
  induction items as [|item items IH]; simpl; [reflexivity|].
  rewrite insert_by_count_perm. constructor. exact IH.
Qed.

Lemma insert_by_count_sorted item sorted :
  StronglySorted (fun a b => snd b <= snd a) sorted ->
  StronglySorted (fun a b => snd b <= snd a) (insert_by_count item sorted).
Proof.
  induction 1 as [|other rest Hs IH Hall]; simpl; [repeat constructor|].
  destruct (Nat.leb_spec (snd other) (snd item)) as [Hle|Hgt].
  - constructor; [constructor; assumption|].
    constructor; [exact Hle|].
    eapply Forall_impl; [exact Hall|]. simpl. intros b Hb. lia.
  - constructor; [exact IH|].
    rewrite Forall_forall. intros b Hb.
    rewrite (insert_by_count_perm item rest) in Hb.
    apply elem_of_cons in Hb as [->|Hb]; [lia|].
    rewrite Forall_forall in Hall. exact (Hall b Hb).
Qed.

Lemma sorted_by_count_sorted items :
  StronglySorted (fun a b => snd b <= snd a) (sorted_by_count items).
Proof.
  induction items as [|item items IH]; simpl; [constructor|].
  apply insert_by_count_sorted, IH.
Qed.

Lemma StronglySorted_app_between {A} (R : A -> A -> Prop) (l1 l2 : list A) :
  StronglySorted R (l1 ++ l2) ->
  StronglySorted R l1
  /\ forall x y, In x l1 -> In y l2 -> R x y.
Proof.
  induction l1 as [|a l1 IH]; simpl; intros Hs.
  - split; [constructor|intros x y []].
  - apply StronglySorted_inv in Hs as [Hs Hall].
    destruct (IH Hs) as [Hs1 Hbetween]. split.
    + constructor; [exact Hs1|].
      rewrite Forall_forall in *. intros x Hx. apply Hall.
      apply elem_of_app. left. exact Hx.
    + intros x y [<-|Hx] Hy; [|exact (Hbetween x y Hx Hy)].
      rewrite Forall_forall in Hall. apply Hall.
      apply elem_of_app. right. apply list_elem_of_In. exact Hy.
Qed.

Lemma dict_get_In d key value :
  NoDup (map fst d) -> In (key, value) d -> dict_get d key 0 = value.
Proof.
  induction d as [|[k v] d IH]; simpl; [intros _ []|].
  intros Hnd. apply NoDup_cons in Hnd as [Hk Hnd].
  intros [Heq|Hin].
  - injection Heq as -> ->. rewrite String.eqb_refl. reflexivity.
  - destruct (String.eqb_spec k key) as [->|Hne]; [|exact (IH Hnd Hin)].
    exfalso. apply Hk. apply list_elem_of_In, in_map_iff.
    exists (key, value). auto.
Qed.

Lemma dict_get_positive_In d key :
  0 < dict_get d key 0 -> In (key, dict_get d key 0) d.
Proof.
  induction d as [|[k v] d IH]; simpl; [lia|].
  destruct (String.eqb_spec k key) as [->|Hne]; [left; reflexivity|].
  intros Hpos. right. exact (IH Hpos).
Qed.

(** X20.  [_get_most_common_classes] returns at most ten items, by falling count
    and with no class twice; the count of a class is the number of times the
    results mention it; and a mentioned class that is missing from the list
    is mentioned no more often than any class in the list, which then has
    ten items. *)
Theorem most_common_classes_top_ten (results : list ClickResult) :
  let top := _get_most_common_classes results in
  length top <= 10
  /\ StronglySorted (fun a b => snd b <= snd a) top
  /\ NoDup (map fst top)
  /\ (forall class_name n,
        In (class_name, n) top ->
        n = mentions class_name (class_mentions results) /\ 0 < n)
  /\ (forall class_name,
        0 < mentions class_name (class_mentions results) ->
        ~ In class_name (map fst top) ->
        length top = 10
        /\ forall class_name' n',
             In (class_name', n') top ->
             mentions class_name (class_mentions results) <= n').
Proof.
  cbv zeta. unfold _get_most_common_classes.
  set (counts := class_counts results).
  set (sorted := sorted_by_count counts).
  destruct (count_keys_spec (class_mentions results) [])
    as (_ & Hg & Hn & Hp).
  rewrite <- class_counts_as_count_keys in Hg, Hn, Hp. fold counts in Hg, Hn, Hp.
  specialize (Hn ltac:(constructor)). specialize (Hp ltac:(constructor)).
  assert (Hget : forall key,
             dict_get counts key 0 = mentions key (class_mentions results))
    by (intros key; apply (Hg key)).
  assert (Hperm : Permutation sorted counts) by apply sorted_by_count_perm.
  assert (Hsorted : StronglySorted (fun a b => snd b <= snd a)
                      (take 10 sorted ++ drop 10 sorted)).
  { rewrite take_drop. apply sorted_by_count_sorted. }
  apply StronglySorted_app_between in Hsorted as [Htop Hbetween].
  assert (Hnd : NoDup (map fst sorted)).
  { rewrite Hperm. exact Hn. }
  assert (Hin_counts : forall item, In item (take 10 sorted) -> In item counts).
  { intros item Hin. apply list_elem_of_In. rewrite <- Hperm.
    apply list_elem_of_In. rewrite <- (take_drop 10 sorted).
    apply in_app_iff. left. exact Hin. }
  split; [rewrite length_take; lia|]. split; [exact Htop|].
  split; [|split].
  - rewrite <- (take_drop 10 sorted), map_app in Hnd.
    apply NoDup_app in Hnd. tauto.
  - intros class_name n Hin. apply Hin_counts in Hin.
    rewrite <- (Hget class_name).
    rewrite (dict_get_In counts class_name n Hn Hin). split; [lia|].
    rewrite Forall_forall in Hp. apply (Hp (class_name, n)).
    apply list_elem_of_In. exact Hin.
  - intros class_name Hpos Hout.
    assert (Hitem : In (class_name, mentions class_name (class_mentions results))
                       counts).
    { rewrite <- Hget. apply dict_get_positive_In. rewrite Hget. exact Hpos. }
    assert (Hdrop : In (class_name, mentions class_name (class_mentions results))
                       (drop 10 sorted)).
    { apply list_elem_of_In in Hitem. rewrite <- Hperm in Hitem.
      apply list_elem_of_In in Hitem.
      rewrite <- (take_drop 10 sorted) in Hitem.
      apply in_app_iff in Hitem as [Hitem|Hitem]; [|exact Hitem].
      exfalso. apply Hout. apply in_map_iff.
      exists (class_name, mentions class_name (class_mentions results)). auto. }
    split.
    + rewrite length_take.
      assert (10 < length sorted); [|lia].
      destruct (Nat.lt_ge_cases 10 (length sorted)) as [Hlt|Hge]; [exact Hlt|].
      assert (length (drop 10 sorted) = 0 \/ length sorted = 10) as [Hz|Hz]
        by (rewrite length_drop; lia).
      * destruct (drop 10 sorted); [destruct Hdrop|discriminate].
      * rewrite drop_ge in Hdrop by lia. destruct Hdrop.
    + intros class_name' n' Hin.
      exact (Hbetween _ _ Hin Hdrop).
Qed.

Lemma most_common_classes_top_ten_witness :
  _get_most_common_classes
    [result_with_classes "btn primary"; result_with_classes " btn  cta ";
     result_with_classes ""; result_with_classes "cta btn"]
  = [("btn", 3); ("cta", 2); ("primary", 1)]
  /\ mentions "btn"
       (class_mentions
          [result_with_classes "btn primary"; result_with_classes " btn  cta ";
           result_with_classes ""; result_with_classes "cta btn"]) = 3.
Proof.
  split; [reflexivity|].
  symmetry.
  apply (proj1 (proj2 (proj2 (proj2 (most_common_classes_top_ten
           [result_with_classes "btn primary"; result_with_classes " btn  cta ";
            result_with_classes ""; result_with_classes "cta btn"]))))
           "btn" 3).
  left. reflexivity.
Defined.

(* ===================================================================== *)
(** ** Carousel slides *)
(* ===================================================================== *)

Lemma tester_slide_is_optimized_slide (element : SlideCandidate) :
  TesterCarousel._looks_like_slide element = true ->
  OptimizedCarousel._looks_like_slide element = true.
Proof.
  unfold TesterCarousel._looks_like_slide, OptimizedCarousel._looks_like_slide.
  unfold mbind, res_bind, mret, res_ret, value_or.
  destruct (probe_images element) as [images|]; [|discriminate].
  destruct (probe_text element) as [text|]; [|discriminate].
  destruct (probe_links element) as [links|]; [|discriminate].
  destruct (probe_buttons element) as [buttons|]; [|discriminate].
  destruct (probe_style element) as [style|]; [|discriminate].
  destruct (probe_computed_style element) as [computed_style|]; [|discriminate].
  destruct (probe_class element) as [class_names|]; [|discriminate].
  destruct (0 <? images)%nat; [reflexivity|].
  destruct (has_text_content text); [reflexivity|].
  destruct (0 <? links)%nat; [reflexivity|].
  destruct (0 <? buttons)%nat; [reflexivity|].
  simpl. auto.
Qed.

Lemma looks_like_slide_agree (element : SlideCandidate) :
  answers_all element ->
  TesterCarousel._looks_like_slide element
  = OptimizedCarousel._looks_like_slide element.
Proof.
  intros ([images Hi] & [text Ht] & [links Hl] & [buttons Hb] & [style Hs]
          & [class_names Hc] & [computed_style Hcs]).
  unfold TesterCarousel._looks_like_slide, OptimizedCarousel._looks_like_slide.
  rewrite Hi, Ht, Hl, Hb, Hs, Hc, Hcs.
  unfold mbind, res_bind, mret, res_ret, value_or.
  destruct (0 <? images)%nat; [reflexivity|].
  destruct (has_text_content text); [reflexivity|].
  destruct (0 <? links)%nat; [reflexivity|].
  destruct (0 <? buttons)%nat; reflexivity.
Qed.

(** X21 ([_looks_like_slide], both files).  Every element the first file
    takes for a slide is taken for a slide by the optimized file, and the
    two agree on an element that answers every question.  (They differ when a
    question raises: the first file then says no, the optimized file may
    have said yes already on the content found before.) *)
Theorem looks_like_slide_optimized_accepts_more (element : SlideCandidate) :
  (TesterCarousel._looks_like_slide element = true ->
   OptimizedCarousel._looks_like_slide element = true)
  /\ (answers_all element ->
      TesterCarousel._looks_like_slide element
      = OptimizedCarousel._looks_like_slide element).
Proof.
  split.
  - apply tester_slide_is_optimized_slide.
  - apply looks_like_slide_agree.
Qed.

Lemma looks_like_slide_optimized_accepts_more_witness :
  TesterCarousel._looks_like_slide plain_slide = true
  /\ OptimizedCarousel._looks_like_slide plain_slide = true
  /\ answers_all plain_slide
  /\ TesterCarousel._looks_like_slide image_slide = false
  /\ OptimizedCarousel._looks_like_slide image_slide = true.
Proof.
  assert (Hall : answers_all plain_slide).
  { unfold answers_all, plain_slide; simpl. repeat split; eexists; reflexivity. }
  assert (Ht : TesterCarousel._looks_like_slide plain_slide = true)
    by reflexivity.
  split; [exact Ht|].
  split; [exact (proj1 (looks_like_slide_optimized_accepts_more plain_slide) Ht)|].
  split; [exact Hall|].
  split; reflexivity.
Defined.

Lemma filter_incl_impl {A : Type} (p q : A -> bool) (l : list A) :
  (forall a, p a = true -> q a = true) ->
  incl (List.filter p l) (List.filter q l).
Proof.
  intros Hpq a Ha. apply filter_In in Ha as [Hin Hp].
  apply filter_In. split; [exact Hin | exact (Hpq a Hp)].
Qed.

Lemma incl_nonempty {A : Type} (l l' : list A) :
  incl l l' -> nonempty l = true -> nonempty l' = true.
Proof.
  destruct l as [|a l]; [discriminate|]. intros Hincl _.
  destruct l' as [|a' l']; [|reflexivity].
  exfalso. exact (Hincl a (or_introl eq_refl)).
Qed.

Lemma nonempty_false {A : Type} (l : list A) : nonempty l = false -> l = [].
Proof. destruct l; [reflexivity | discriminate]. Qed.

Lemma first_found_agree (container : DomNode) (selectors : list string)
    (slides : list DomNode) :
  TesterCarousel.first_found container selectors = Ok slides ->
  OptimizedCarousel.first_found container selectors = slides.
Proof.
  induction selectors as [|selector rest IH]; simpl.
  - intros [= <-]. reflexivity.
  - unfold mbind, res_bind.
    destruct (node_find_elements container selector) as [found|]; [|discriminate].
    destruct (nonempty found); [intros [= <-]; reflexivity | exact IH].
Qed.

Lemma nested_slides_incl (nested_containers : list DomNode) :
  forall slides slides' found,
    incl slides slides' ->
    TesterCarousel.nested_slides nested_containers slides = Ok found ->
    incl found (OptimizedCarousel.nested_slides nested_containers slides').
Proof.
  induction nested_containers as [|container rest IH];
    intros slides slides' found Hincl; simpl.
  - intros [= <-]. exact Hincl.
  - unfold mbind, res_bind.
    destruct (node_find_elements container nested_slide_selector) as [inner|];
      [|discriminate].
    apply IH. apply incl_app.
    + apply incl_appl. exact Hincl.
    + apply incl_appr. apply filter_incl_impl.
      intros slide. apply tester_slide_is_optimized_slide.
Qed.

(** X22 ([_get_all_carousel_slides], both files).  Whenever the first file
    finds slides in a container, the optimized file finds slides there too.
    (The first file gives up on the first exception; the optimized file
    moves on to the next selector or keeps what it has.) *)
Theorem carousel_slides_optimized_finds_some
    (slide_selectors : list string) (carousel_container : DomNode) :
  TesterCarousel._get_all_carousel_slides slide_selectors carousel_container
  <> [] ->
  OptimizedCarousel._get_all_carousel_slides slide_selectors carousel_container
  <> [].
Proof.
  unfold TesterCarousel._get_all_carousel_slides,
    OptimizedCarousel._get_all_carousel_slides.
  unfold mbind, res_bind, value_or. cbv zeta.
  destruct (TesterCarousel.first_found carousel_container slide_selectors)
    as [slides|] eqn:Hfirst; [|congruence].
  rewrite (first_found_agree _ _ _ Hfirst).
  destruct (nonempty slides) eqn:Hslides.
  - rewrite Hslides. auto.
  - destruct (node_find_elements carousel_container potential_selector)
      as [potential_slides|]; [|congruence].
    pose proof (filter_incl_impl
                  (fun slide =>
                     TesterCarousel._looks_like_slide (node_candidate slide))
                  (fun slide =>
                     OptimizedCarousel._looks_like_slide (node_candidate slide))
                  potential_slides
                  (fun slide => tester_slide_is_optimized_slide _)) as Hincl.
    destruct (nonempty (List.filter _ potential_slides)) eqn:Hpot at 1.
    + rewrite (incl_nonempty _ _ Hincl Hpot).
      intros _ Hnil. rewrite Hnil in Hincl.
      apply (incl_nonempty _ _ Hincl) in Hpot. discriminate.
    + apply nonempty_false in Hpot. rewrite Hpot.
      destruct (nonempty (List.filter
                  (fun slide =>
                     OptimizedCarousel._looks_like_slide (node_candidate slide))
                  potential_slides)) eqn:Hopt.
      * intros _ Hnil. rewrite Hnil in Hopt. discriminate.
      * apply nonempty_false in Hopt. rewrite Hopt.
        destruct (node_find_elements carousel_container nested_selector)
          as [nested_containers|]; [|congruence].
        destruct (TesterCarousel.nested_slides nested_containers [])
          as [found|] eqn:Hnested; [|congruence].
        pose proof (nested_slides_incl nested_containers [] [] found
                      (incl_refl _) Hnested) as Hfound.
        intros Hne Hnil. rewrite Hnil in Hfound.
        destruct found as [|slide found]; [congruence|].
        exact (Hfound slide (or_introl eq_refl)).
Qed.

Lemma carousel_slides_optimized_finds_some_witness :
  TesterCarousel._get_all_carousel_slides [".slide"; ".swiper-slide"]
    generic_container <> []
  /\ OptimizedCarousel._get_all_carousel_slides [".slide"; ".swiper-slide"]
       generic_container <> [].
Proof.
  assert (Ht : TesterCarousel._get_all_carousel_slides
                 [".slide"; ".swiper-slide"] generic_container <> [])
    by (vm_compute; discriminate).
  split; [exact Ht|].
  exact (carousel_slides_optimized_finds_some [".slide"; ".swiper-slide"]
           generic_container Ht).
Defined.

Lemma optimized_first_found_skips (container : DomNode)
    (before after : list string) (selector : string) :
  Forall (finds_nothing container) before ->
  OptimizedCarousel.first_found container (before ++ selector :: after)
  = OptimizedCarousel.first_found container (selector :: after).
Proof.
  induction 1 as [|s before [Hs|[e Hs]] _ IH]; [reflexivity| |];
    cbn [app OptimizedCarousel.first_found]; rewrite Hs; exact IH.
Qed.

Lemma tester_first_found_skips (container : DomNode)
    (before after : list string) (selector : string) :
  Forall (fun s => node_find_elements container s = Ok []) before ->
  TesterCarousel.first_found container (before ++ selector :: after)
  = TesterCarousel.first_found container (selector :: after).
Proof.
  induction 1 as [|s before Hs _ IH]; [reflexivity|].
  cbn [app TesterCarousel.first_found]. rewrite Hs. exact IH.
Qed.

Lemma tester_first_found_raises (container : DomNode)
    (before after : list string) :
  Forall (finds_nothing container) before ->
  Exists (fun s => exists e, node_find_elements container s = Raise e) before ->
  exists e, TesterCarousel.first_found container (before ++ after) = Raise e.
Proof.
  induction 1 as [|s before Hs Hbefore IH]; intros Hex.
  - inversion Hex.
  - cbn [app TesterCarousel.first_found]. unfold mbind, res_bind.
    destruct Hs as [Hs|[e Hs]]; rewrite Hs.
    + apply IH. inversion Hex as [? ? [e He]|]; subst; [congruence | assumption].
    + exists e. reflexivity.
Qed.

Lemma finds_nothing_cases (container : DomNode) (before : list string) :
  Forall (finds_nothing container) before ->
  Forall (fun s => node_find_elements container s = Ok []) before
  \/ Exists (fun s => exists e, node_find_elements container s = Raise e) before.
Proof.
  induction 1 as [|s before Hs _ [IH|IH]].
  - left. constructor.
  - destruct Hs as [Hs|Hs].
    + left. constructor; assumption.
    + right. apply Exists_cons_hd. exact Hs.
  - right. apply Exists_cons_tl. exact IH.
Qed.

(** X23 ([_get_all_carousel_slides], both files).  The first slide selector
    that finds something decides: when every selector before it finds
    nothing or raises, the optimized file returns exactly what that selector
    finds; the first file returns the same when none of the earlier queries
    raised, and no slide at all when one of them did. *)
Theorem carousel_slides_first_selector_wins
    (carousel_container : DomNode) (before after : list string)
    (selector : string) (slide : DomNode) (more : list DomNode) :
  Forall (finds_nothing carousel_container) before ->
  node_find_elements carousel_container selector = Ok (slide :: more) ->
  OptimizedCarousel._get_all_carousel_slides (before ++ selector :: after)
    carousel_container = slide :: more
  /\ ((Forall (fun s => node_find_elements carousel_container s = Ok []) before
       /\ TesterCarousel._get_all_carousel_slides (before ++ selector :: after)
            carousel_container = slide :: more)
      \/ (Exists (fun s => exists e,
                    node_find_elements carousel_container s = Raise e) before
          /\ TesterCarousel._get_all_carousel_slides
               (before ++ selector :: after) carousel_container = [])).
Proof.
  intros Hbefore Hfind. split.
  - unfold OptimizedCarousel._get_all_carousel_slides. cbv zeta.
    rewrite (optimized_first_found_skips _ _ _ _ Hbefore).
    cbn [OptimizedCarousel.first_found]. rewrite Hfind. reflexivity.
  - unfold TesterCarousel._get_all_carousel_slides.
    destruct (finds_nothing_cases _ _ Hbefore) as [Hquiet|Hraise].
    + left. split; [exact Hquiet|].
      rewrite (tester_first_found_skips _ _ _ _ Hquiet).
      cbn [TesterCarousel.first_found]. unfold mbind, res_bind.
      rewrite Hfind. reflexivity.
    + right. split; [exact Hraise|].
      destruct (tester_first_found_raises _ _ (selector :: after)
                  Hbefore Hraise) as [e He].
      rewrite He. reflexivity.
Qed.

Lemma carousel_slides_first_selector_wins_witness :
  OptimizedCarousel._get_all_carousel_slides
    ([".carousel-item"; ".slide"] ++ ".swiper-slide" :: [".slick-slide"])
    example_container = [leaf plain_slide; leaf image_slide]
  /\ TesterCarousel._get_all_carousel_slides
       ([".carousel-item"; ".slide"] ++ ".swiper-slide" :: [".slick-slide"])
       example_container = [].
Proof.
  assert (Hbefore : Forall (finds_nothing example_container)
                      [".carousel-item"; ".slide"]).
  { constructor; [left; reflexivity|].
    constructor; [right; eexists; reflexivity|]. constructor. }
  assert (Hfind : node_find_elements example_container ".swiper-slide"
                  = Ok [leaf plain_slide; leaf image_slide]) by reflexivity.
  destruct (carousel_slides_first_selector_wins example_container
              [".carousel-item"; ".slide"] [".slick-slide"] ".swiper-slide"
              (leaf plain_slide) [leaf image_slide] Hbefore Hfind)
    as [Hopt Htester].
  split; [exact Hopt | reflexivity].
Defined.

(* ===================================================================== *)
(** ** The default file name of [save_results_to_file] *)
(* ===================================================================== *)

Lemma split_on_nonempty (sep : ascii) (s : string) : split_on sep s <> [].
Proof.
  destruct s as [|c s]; simpl; [discriminate|].
  destruct (Ascii.eqb c sep); [discriminate|].
  destruct (split_on sep s); discriminate.
Qed.

Lemma join_cons (sep piece : string) (pieces : list string) :
  pieces <> [] ->
  PyStr.join sep (piece :: pieces) = piece +:+ sep +:+ PyStr.join sep pieces.
Proof. destruct pieces; [congruence | reflexivity]. Qed.

Lemma split_on_join (sep : ascii) (s : string) :
  PyStr.join (String sep EmptyString) (split_on sep s) = s.
Proof.
  induction s as [|c s IH]; [reflexivity|].
  cbn [split_on]. destruct (Ascii.eqb c sep) eqn:Hc.
  - apply Ascii.eqb_eq in Hc. subst c.
    rewrite join_cons by apply split_on_nonempty. rewrite IH. reflexivity.
  - destruct (split_on sep s) as [|piece pieces] eqn:Hsplit.
    + exfalso. exact (split_on_nonempty sep s Hsplit).
    + rewrite <- IH. destruct pieces; reflexivity.
Qed.

Lemma split_on_pieces (sep : ascii) (s : string) :
  Forall (fun piece => has_char sep piece = false) (split_on sep s).
Proof.
  induction s as [|c s IH]; [repeat constructor|].
  cbn [split_on]. destruct (Ascii.eqb c sep) eqn:Hc.
  - constructor; [reflexivity | exact IH].
  - destruct (split_on sep s) as [|piece pieces].
    + constructor; [simpl; rewrite Hc; reflexivity | constructor].
    + inversion IH as [|? ? Hpiece Hpieces]; subst.
      constructor; [simpl; rewrite Hc; exact Hpiece | exact Hpieces].
Qed.

Lemma string_append_assoc (s1 s2 s3 : string) :
  (s1 +:+ s2) +:+ s3 = s1 +:+ s2 +:+ s3.
Proof.
  induction s1 as [|c s1 IH]; [reflexivity|].
  change (String c ((s1 +:+ s2) +:+ s3) = String c (s1 +:+ s2 +:+ s3)).
  f_equal. exact IH.
Qed.

Lemma join_last (sep : string) (pieces : list string) (name : string) :
  last pieces = Some name ->
  PyStr.join sep pieces = name
  \/ exists prefix, PyStr.join sep pieces = prefix +:+ sep +:+ name.
Proof.
  induction pieces as [|piece pieces IH]; [discriminate|].
  destruct pieces as [|piece' pieces].
  - intros [= <-]. left. reflexivity.
  - intros Hlast. right.
    rewrite join_cons by discriminate.
    change (last (piece :: piece' :: pieces)) with (last (piece' :: pieces))
      in Hlast.
    destruct (IH Hlast) as [Hname|[prefix Hprefix]].
    + exists piece. rewrite Hname. reflexivity.
    + exists (piece +:+ sep +:+ prefix). rewrite Hprefix.
      rewrite !string_append_assoc. reflexivity.
Qed.

(** X24 ([save_results_to_file], both files).  Without a file name the
    results go to [clickability_test_results_<name>.json], where [<name>] is
    what follows the last ['/'] of the URL (the whole URL when it has none):
    the name holds no ['/'], the lookup [name[-1]] never fails, and a URL
    that ends in ['/'] gives the empty name. *)
Theorem save_results_default_filename (url : string) :
  exists name,
    results_filename url None
    = Some ("clickability_test_results_" +:+ name +:+ ".json")
    /\ has_char "/"%char name = false
    /\ (url = name \/ exists prefix, url = prefix +:+ "/" +:+ name).
Proof.
  unfold results_filename, default_filename. cbn [PyStr.or_empty PyStr.truthy].
  pose proof (split_on_join "/"%char url) as Hjoin.
  pose proof (split_on_pieces "/"%char url) as Hpieces.
  destruct (last (split_on "/"%char url)) as [name|] eqn:Hlast.
  - exists name. split; [reflexivity|]. split.
    + rewrite Forall_forall in Hpieces. apply Hpieces.
      apply last_Some_elem_of. exact Hlast.
    + destruct (join_last "/" _ _ Hlast) as [Hname|[prefix Hprefix]].
      * left. rewrite <- Hjoin. exact Hname.
      * right. exists prefix. rewrite <- Hjoin. exact Hprefix.
  - apply last_None in Hlast. exfalso.
    exact (split_on_nonempty _ _ Hlast).
Qed.

(* ===================================================================== *)
(** ** [get_status_code] *)
(* ===================================================================== *)

(** X25 ([get_status_code] with [is_dead_click_by_href], both files).  For a
    descriptor whose href the dead-link test reads unchanged (no space, no
    upper-case letter) and finds dead, [get_status_code] sends no request and
    returns [None], whatever the network would answer. *)
Theorem dead_href_is_not_requested
    (urljoin : string -> string -> Res string) (head : string -> Res Response)
    (self_url : string) (element_info : ElementInfo) :
  href_normalized element_info ->
  is_dead_click_by_href element_info = true ->
  get_status_code urljoin head self_url (info_href element_info) = (None, []).
Proof.
  unfold href_normalized. intros Hnorm Hdead.
  apply is_dead_click_by_href_iff in Hdead. rewrite Hnorm in Hdead.
  unfold get_status_code. cbv zeta.
  destruct Hdead as [H|[H|[H|[]]]]; rewrite <- H; reflexivity.
Qed.

Lemma dead_href_is_not_requested_witness :
  href_normalized (link_info "javascript:void(0)")
  /\ is_dead_click_by_href (link_info "javascript:void(0)") = true
  /\ get_status_code (fun _ href => Ok href)
       (fun _ => Ok {| response_history := []; response_status_code := 200 |})
       "https://example.test/" (info_href (link_info "javascript:void(0)"))
     = (None, []).
Proof.
  assert (Hnorm : href_normalized (link_info "javascript:void(0)"))
    by reflexivity.
  assert (Hdead : is_dead_click_by_href (link_info "javascript:void(0)") = true)
    by reflexivity.
  split; [exact Hnorm|]. split; [exact Hdead|].
  exact (dead_href_is_not_requested (fun _ href => Ok href)
           (fun _ => Ok {| response_history := []; response_status_code := 200 |})
           "https://example.test/" (link_info "javascript:void(0)")
           Hnorm Hdead).
Defined.
